(** * Grid-stability forecast: the spread-compression chain

    A shallow embedding of the analysis scripts
    [analysis/3_spread_model.py], [analysis/4_tariff_model.py] and
    [analysis/5_combined_forecast.py].

    Numbers.  The scripts compute with binary64 floats.  Two embeddings
    are given.

    - Over the reals ([R]): every float is a real number and every
      operation is the exact one.  This embedding carries the structure
      of the scripts and the properties that do not depend on the last
      bit: orderings, bounds, which value feeds which cell.  It does not
      carry rounding, so an equation proved in it is an equation of
      exact arithmetic.  It has no infinity, NaN or complex number: where
      a run would produce one, the embedding stops with [NotReal].
      Overflow is not modelled.

    - Over binary64 (module [Binary64], primitive floats): the arithmetic
      of [power_law_spread] and [seasonal_adjustment] operation for
      operation, with Python's rules for [/] and [**] and numpy's
      summation order.  The C library's [pow] is a parameter.  Whatever
      is stated as exact is stated in this embedding.

    A missing value of a table (pandas NaN / None) is an explicit
    [None]. *)

From Stdlib Require Import Reals Lra ZArith Floats.
From stdpp Require Import base option list gmap strings pretty sorting.

#[global] Set Warnings "-inexact-float".

Open Scope R_scope.

(** Comparisons of real numbers as decisions. *)
#[global] Instance R_eq_dec : EqDecision R := Req_dec_T.
#[global] Instance Rlt_decision : RelDecision Rlt := Rlt_dec.
#[global] Instance Rle_decision : RelDecision Rle := Rle_dec.

(** ** The power law with floor *)

Module PowerLaw.

(** A float that holds an integer ([iw == floor(iw)]). *)
Definition is_integer (y : R) : Prop := IZR (Int_part y) = y.

(** The value of [x ** y] on Python floats, wherever that value is a
    float: 1 for a zero exponent, the power of a positive base, 0 for a
    zero base with a positive exponent, and for a negative base with an
    integer exponent the power of the absolute value, negated when the
    exponent is odd.  Python raises for a zero base with a negative
    exponent and gives a complex number for a negative base with an
    exponent that is not an integer; the value here is then of no use
    ([Composer.power_law_check] tells these cases). *)
Definition float_pow (x y : R) : R :=
  if decide (y = 0) then 1
  else if decide (0 < x) then Rpower x y
  else if decide (x = 0) then 0
  else if Z.even (Int_part y) then Rpower (- x) y
  else - Rpower (- x) y.

(** [power_law_spread] of 3_spread_model.py (lines 140-149); the copy in
    5_combined_forecast.py (lines 46-54) has the same body.  The value
    returned when the call returns a float; the division raises for a
    capacity of zero. *)
Definition power_law_spread (bess_gw floor spread_ref bess_ref alpha : R) : R :=
  floor + (spread_ref - floor) * float_pow (bess_ref / bess_gw) alpha.

(** The record written by [calibrate_params] (the dict [params]). *)
Record params := {
  model_type : string;
  spread_ref : R;
  bess_ref : R;
  floor : R;
  alpha : R;
  alpha_low : R;
  alpha_high : R
}.

(** One row of the monthly aggregate handed to [calibrate_params]; only
    the two columns it reads. *)
Record monthly_row := { m_bess_gw : R; m_spread : R }.

Definition Rsum (l : list R) : R := foldr Rplus 0 l.

(** [Series.mean()]. *)
Definition mean (l : list R) : R := Rsum l / INR (length l).

(** [x >= 6.0] as a boolean. *)
Definition Rgeb (x y : R) : bool := if Rle_dec y x then true else false.

(** [df.iloc[-n:]]: the last [n] rows (all of them when there are fewer). *)
Definition last_rows {A} (n : nat) (l : list A) : list A :=
  drop (length l - n)%nat l.

Definition alpha_caiso : R := 65 / 100.
Definition alpha_modo : R := 46 / 100.
Definition alpha_central : R := 50 / 100.
Definition avg_price : R := 90.
Definition rt_efficiency_loss : R := 15 / 100.

(** [calibrate_params] of 3_spread_model.py (lines 177-238), without its
    printing. *)
Definition calibrate_params (monthly_data : list monthly_row) : params :=
  let recent := filter (λ r, Rgeb (m_bess_gw r) 6 = true) monthly_data in
  let window :=
    if decide (6 ≤ length recent)%nat then recent
    else last_rows 6 monthly_data in
  {| model_type := "power_law_with_floor";
     spread_ref := mean (m_spread <$> window);
     bess_ref := mean (m_bess_gw <$> window);
     floor := avg_price * rt_efficiency_loss;
     alpha := alpha_central;
     alpha_low := alpha_modo;
     alpha_high := alpha_caiso |}.

End PowerLaw.

(** ** Values shared by the scripts *)

(** A [pd.Timestamp] at day resolution. *)
Record date := { year : Z; month : Z; day : Z }.

#[global] Instance date_eq_dec : EqDecision date.
Proof. solve_decision. Defined.

(** [Timestamp.to_period("M")]. *)
Definition year_month (d : date) : Z * Z := (year d, month d).

(** Lexicographic order of timestamps, as a boolean. *)
Definition date_leb (a b : date) : bool :=
  bool_decide (year a < year b)%Z
  || (bool_decide (year a = year b)
      && (bool_decide (month a < month b)%Z
          || (bool_decide (month a = month b) && bool_decide (day a ≤ day b)%Z))).

(** What stops a run: an exception, or, last, a value that the reals do
    not hold.  [NotReal] is no exception: the script goes on with an
    infinity, a NaN or a complex number, and what it does from there on
    is outside the embedding over the reals. *)
Inductive error :=
  | KeyError (key : string)
  | TypeError
  | IndexError
  | InvalidIndexError
  | AttributeError
  | ValueError
  | ZeroDivisionError
  | OverflowError
  | FitError
  | NotReal.

Definition result (A : Type) : Type := error + A.

#[global] Instance result_ret : MRet result := λ A x, inr x.
#[global] Instance result_bind : MBind result := λ A B f r,
  match r with inl e => inl e | inr x => f x end.

Definition raise {A} (e : error) : result A := inl e.

(** The values found in the two parameter files.  An object is the flat,
    number-valued object that [save_params] writes for [month_coefs]. *)
Inductive json :=
  | JNum (x : R)
  | JStr (s : string)
  | JNull
  | JObj (o : gmap string R).

(** [d[key]]. *)
Definition getitem (d : gmap string json) (key : string) : result json :=
  match d !! key with
  | Some v => mret v
  | None => raise (KeyError key)
  end.

(** [d.get(key, dflt)]. *)
Definition get (d : gmap string json) (key : string) (dflt : json) : json :=
  default dflt (d !! key).

(** A value used as a number: anything else raises at its first use in
    arithmetic or in a [:.nf] format. *)
Definition as_num (v : json) : result R :=
  match v with JNum x => mret x | _ => raise TypeError end.

(** A value used as a dict ([.get] is called on it). *)
Definition as_obj (v : json) : result (gmap string R) :=
  match v with JObj o => mret o | _ => raise TypeError end.

(** ** Seasonal adjustment *)

Module Seasonal.

(** [f"month_{m}"]. *)
Definition month_key (m : Z) : string := "month_" +:+ pretty m.

(** [seasonal_adjustment] of 5_combined_forecast.py (lines 57-75), for a
    reference spread other than zero; at zero numpy's division gives an
    infinity or a NaN ([Composer.forecast_month_check] stops there). *)
Definition seasonal_adjustment
    (month : Z) (month_coefs : gmap string R) (spread_ref : R) : R :=
  let month_effect := default 0 (month_coefs !! month_key month) in
  let all_effects :=
    0 :: ((λ m, default 0 (month_coefs !! month_key m)) <$> seqZ 2 11) in
  let avg_effect := PowerLaw.mean all_effects in
  1 + (month_effect - avg_effect) / spread_ref.

(** The twelve factors of a year, month 1 to month 12. *)
Definition yearly_factors (month_coefs : gmap string R) (spread_ref : R) : list R :=
  (λ m, seasonal_adjustment m month_coefs spread_ref) <$> seqZ 1 12.

End Seasonal.

(** ** The arithmetic in binary64 *)

Module Binary64.

#[local] Open Scope float_scope.

(** What a Python expression on floats comes to. *)
Inductive outcome :=
  | Float (x : float)
  | Complex
  | Raise (e : error).

(** [x / y] on Python floats. *)
Definition float_div (x y : float) : outcome :=
  if y =? 0 then Raise ZeroDivisionError else Float (x / y).

(** [iw == floor(iw)] for a finite float. *)
Definition is_integer (x : float) : bool :=
  match Prim2SF x with
  | S754_zero _ => true
  | S754_finite _ m e =>
      (0 <=? e)%Z || (Z.pos m `mod` 2 ^ (- e) =? 0)%Z
  | _ => false
  end.

(** [DOUBLE_IS_ODD_INTEGER]. *)
Definition is_odd_integer (x : float) : bool :=
  match Prim2SF x with
  | S754_finite _ m e =>
      if (0 <? e)%Z then false
      else (Z.pos m `mod` 2 ^ (- e) =? 0)%Z && Z.odd (Z.pos m `div` 2 ^ (- e))
  | _ => false
  end.

(** [copysign(0.0, x)] for an infinite [x]. *)
Definition signed_zero (x : float) : float := if x <? 0 then -0 else 0.

Section Pow.

(** The C library's [pow], called for a finite positive base other than
    1 and a finite exponent other than 0. *)
Variable libm_pow : float → float → float.

(** [iv ** iw] on Python floats: the special cases that CPython settles
    itself, in its order, then the C library; an infinite result of the
    library is an overflow. *)
Definition float_pow (iv iw : float) : outcome :=
  if iw =? 0 then Float 1
  else if is_nan iv then Float iv
  else if is_nan iw then Float (if iv =? 1 then 1 else iw)
  else if is_infinity iw then
    if abs iv =? 1 then Float 1
    else if Bool.eqb (0 <? iw) (1 <? abs iv) then Float (abs iw)
    else Float 0
  else if is_infinity iv then
    if 0 <? iw then Float (if is_odd_integer iw then iv else abs iv)
    else Float (if is_odd_integer iw then signed_zero iv else 0)
  else if iv =? 0 then
    if iw <? 0 then Raise ZeroDivisionError
    else Float (if is_odd_integer iw then iv else 0)
  else if (iv <? 0) && negb (is_integer iw) then Complex
  else
    let negate_result := (iv <? 0) && is_odd_integer iw in
    let av := if iv <? 0 then - iv else iv in
    if av =? 1 then Float (if negate_result then -1 else 1)
    else
      let ix := libm_pow av iw in
      if is_infinity ix then Raise OverflowError
      else Float (if negate_result then - ix else ix).

(** [power_law_spread] (3_spread_model.py lines 140-149,
    5_combined_forecast.py lines 46-54) on Python floats. *)
Definition power_law_spread (bess_gw floor spread_ref bess_ref alpha : float)
    : outcome :=
  match float_div bess_ref bess_gw with
  | Float ratio =>
      match float_pow ratio alpha with
      | Float p => Float (floor + (spread_ref - floor) * p)
      | other => other
      end
  | other => other
  end.

End Pow.

(** numpy's sum of a float array: plain for fewer than 8 elements; up to
    128 elements, eight running sums over the blocks of eight, added
    pairwise, then the rest one by one; above, the two halves (the first
    a multiple of eight long) summed the same way. *)
Definition sum_small (l : list float) : float := foldl PrimFloat.add (-0) l.

Fixpoint add_block (r : list float) (l : list float) : list float :=
  match r, l with
  | x :: r', y :: l' => (x + y) :: add_block r' l'
  | _, _ => r
  end.

Fixpoint sum_blocks (blocks : nat) (r l : list float) : list float * list float :=
  match blocks with
  | O => (r, l)
  | S k => sum_blocks k (add_block r (take 8 l)) (drop 8 l)
  end.

Definition sum_unrolled (l : list float) : float :=
  let n := length l in
  let '(r, rest) := sum_blocks (n / 8 - 1) (take 8 l) (drop 8 l) in
  match r with
  | [r0; r1; r2; r3; r4; r5; r6; r7] =>
      foldl PrimFloat.add (((r0 + r1) + (r2 + r3)) + ((r4 + r5) + (r6 + r7))) rest
  | _ => sum_small l
  end.

Fixpoint pairwise_sum (fuel : nat) (l : list float) : float :=
  let n := length l in
  if decide (n < 8)%nat then sum_small l
  else if decide (n ≤ 128)%nat then sum_unrolled l
  else
    match fuel with
    | O => sum_unrolled l
    | S fuel' =>
        let n2 := (n / 2 - (n / 2) `mod` 8)%nat in
        pairwise_sum fuel' (take n2 l) + pairwise_sum fuel' (drop n2 l)
    end.

(** [np.mean] of a list of floats. *)
Definition np_mean (l : list float) : float :=
  pairwise_sum (length l) l / of_uint63 (Uint63.of_Z (Z.of_nat (length l))).

(** [seasonal_adjustment] (5_combined_forecast.py lines 57-75): numpy
    arithmetic, which does not raise. *)
Definition seasonal_adjustment
    (month : Z) (month_coefs : gmap string float) (spread_ref : float) : float :=
  let month_effect := default 0 (month_coefs !! Seasonal.month_key month) in
  let all_effects :=
    0 :: ((λ m, default 0 (month_coefs !! Seasonal.month_key m)) <$> seqZ 2 11) in
  let avg_effect := np_mean all_effects in
  1 + (month_effect - avg_effect) / spread_ref.

(** The twelve factors of a year, month 1 to month 12. *)
Definition yearly_factors (month_coefs : gmap string float) (spread_ref : float)
    : list float :=
  (λ m, seasonal_adjustment m month_coefs spread_ref) <$> seqZ 1 12.

End Binary64.

(** ** The combined forecast (5_combined_forecast.py) *)

Module Composer.

Import PowerLaw Seasonal.

(** A row of bess_forecast.csv. *)
Record bess_row := { bess_date : date; bess_capacity_gw : R }.

(** A row of bess_fes_scenarios.csv. *)
Record scenario_row := {
  scenario_date : date;
  scenario : string;
  scenario_capacity_gw : R
}.

(** A row of renewable_capacity_monthly.csv. *)
Record renewable_row := { ren_date : date; total_wind_gw : R }.

(** A projected month of wind generation. *)
Record wind_row := { wind_date : date; wind_gen_gw : R }.

(** A cell of the forecast table. *)
Inductive cell :=
  | CDate (d : date)
  | CNum (x : R)
  | CNone.

(** The dict appended to [results] (lines 190-199), one per forecast
    month; its keys are the columns of five_year_forecast.csv. *)
Record forecast_row := {
  row_date : date;
  bess_gw : R;
  row_wind_gen_gw : R;
  wholesale_spread_mwh : R;
  agile_spread_mwh : R;
  agile_spread_p_kwh : R;
  spread_leading_the_way : option R;
  spread_falling_short : option R
}.

Definition opt_cell (o : option R) : cell :=
  match o with Some x => CNum x | None => CNone end.

(** The items of that dict, in the order the literal lists them. *)
Definition row_items (r : forecast_row) : list (string * cell) :=
  [ ("date", CDate (row_date r));
    ("bess_gw", CNum (bess_gw r));
    ("wind_gen_gw", CNum (row_wind_gen_gw r));
    ("wholesale_spread_mwh", CNum (wholesale_spread_mwh r));
    ("agile_spread_mwh", CNum (agile_spread_mwh r));
    ("agile_spread_p_kwh", CNum (agile_spread_p_kwh r));
    ("spread_leading_the_way", opt_cell (spread_leading_the_way r));
    ("spread_falling_short", opt_cell (spread_falling_short r)) ].

(** The seasonal capacity factors of wind, [wind_cf.get(m, 0.30)]. *)
Definition wind_cf (m : Z) : R :=
  if decide (m = 1)%Z then 38 / 100 else
  if decide (m = 2)%Z then 35 / 100 else
  if decide (m = 3)%Z then 32 / 100 else
  if decide (m = 4)%Z then 28 / 100 else
  if decide (m = 5)%Z then 25 / 100 else
  if decide (m = 6)%Z then 22 / 100 else
  if decide (m = 7)%Z then 22 / 100 else
  if decide (m = 8)%Z then 24 / 100 else
  if decide (m = 9)%Z then 28 / 100 else
  if decide (m = 10)%Z then 32 / 100 else
  if decide (m = 11)%Z then 36 / 100 else
  if decide (m = 12)%Z then 38 / 100 else 30 / 100.

Definition wind_growth_gw_month : R := (15 / 10) / 12.

(** [ren["date"].max()] of a table with first row [r]. *)
Definition max_date (r : renewable_row) (rest : list renewable_row) : date :=
  foldl (λ acc x, if date_leb acc (ren_date x) then ren_date x else acc)
        (ren_date r) rest.

(** [project_wind_generation] (lines 78-104); [ren] is [None] when the
    renewables file does not exist. *)
Definition project_wind_generation
    (ren : option (list renewable_row)) (forecast_dates : list date)
    : result (list wind_row) :=
  match ren with
  | Some rows =>
      match rows, last rows with
      | r :: rest, Some latest =>
          let latest_date := max_date r rest in
          mret ((λ d,
            let months_ahead :=
              ((year d - year latest_date) * 12
               + (month d - month latest_date))%Z in
            let wind_cap :=
              total_wind_gw latest + wind_growth_gw_month * IZR months_ahead in
            {| wind_date := d; wind_gen_gw := wind_cap * wind_cf (month d) |})
            <$> forecast_dates)
      | _, _ => raise IndexError
      end
  | None =>
      mret ((λ d, {| wind_date := d; wind_gen_gw := 68 / 10 |}) <$> forecast_dates)
  end.

(** [max(x, 0.0)]. *)
Definition clamp0 (x : R) : R := Rmax x 0.

(** The capacity of the first row of [scenarios] for scenario [name] at
    [d], when there is one. *)
Definition scenario_capacity
    (scenarios : list scenario_row) (name : string) (d : date) : option R :=
  scenario_capacity_gw <$>
    head (filter (λ s, scenario s = name ∧ scenario_date s = d) scenarios).

(** The spread of one scenario at one date (lines 176-188). *)
Definition scenario_spread
    (scenarios : option (list scenario_row)) (name : string) (d : date)
    (floor spread_ref bess_ref alpha season_mult : R) : option R :=
  sc ← scenarios;
  c ← scenario_capacity sc name d;
  Some (clamp0 (power_law_spread c floor spread_ref bess_ref alpha * season_mult)).

(** What stops one evaluation of the power law at capacity [bess_gw]:
    the division by a capacity of zero and a zero base raised to a
    negative power raise; a negative base raised to a power that is not
    an integer is a complex number. *)
Definition power_law_check (bess_gw bess_ref alpha : R) : result () :=
  if decide (bess_gw = 0) then raise ZeroDivisionError
  else if decide (alpha = 0) then mret ()
  else if decide (bess_ref = 0) then
    (if decide (alpha < 0) then raise ZeroDivisionError else mret ())
  else if decide (bess_ref / bess_gw < 0 ∧ ¬ is_integer alpha) then raise NotReal
  else mret ().

(** The same for the spread of one scenario, evaluated only when the
    scenario file exists and has a row for the date. *)
Definition scenario_check
    (scenarios : option (list scenario_row)) (name : string) (d : date)
    (bess_ref alpha : R) : result () :=
  match scenarios ≫= (λ sc, scenario_capacity sc name d) with
  | Some c => power_law_check c bess_ref alpha
  | None => mret ()
  end.

(** What stops one pass of the loop (lines 153-188), in the order of the
    statements: the base-case power law, the seasonal factor (not a real
    number for a reference spread of zero), the two scenario spreads. *)
Definition forecast_month_check
    (spread_ref bess_ref alpha : R)
    (scenarios : option (list scenario_row)) (b : bess_row) : result () :=
  _ ← power_law_check (bess_capacity_gw b) bess_ref alpha;
  _ ← (if decide (spread_ref = 0) then raise NotReal else mret ());
  _ ← scenario_check scenarios "leading_the_way" (bess_date b) bess_ref alpha;
  scenario_check scenarios "falling_short" (bess_date b) bess_ref alpha.

(** The first stop of a loop, if any. *)
Fixpoint first_stop {A} (check : A → result ()) (l : list A) : result () :=
  match l with
  | [] => mret ()
  | x :: l' => _ ← check x; first_stop check l'
  end.

(** The row appended by a pass of the loop that nothing stops
    (lines 153-199). *)
Definition forecast_month
    (floor spread_ref bess_ref alpha price_multiplier : R)
    (month_coefs : gmap string R)
    (scenarios : option (list scenario_row)) (wind_proj : list wind_row)
    (b : bess_row) : forecast_row :=
  let d := bess_date b in
  let wind_gen :=
    default (68 / 10)
      (wind_gen_gw <$> head (filter (λ w, wind_date w = d) wind_proj)) in
  let ws_annual :=
    power_law_spread (bess_capacity_gw b) floor spread_ref bess_ref alpha in
  let season_mult := seasonal_adjustment (month d) month_coefs spread_ref in
  let ws := clamp0 (ws_annual * season_mult) in
  let agile_spread := price_multiplier * ws in
  {| row_date := d;
     bess_gw := bess_capacity_gw b;
     row_wind_gen_gw := wind_gen;
     wholesale_spread_mwh := ws;
     agile_spread_mwh := agile_spread;
     agile_spread_p_kwh := agile_spread / 10;
     spread_leading_the_way :=
       scenario_spread scenarios "leading_the_way" d
                       floor spread_ref bess_ref alpha season_mult;
     spread_falling_short :=
       scenario_spread scenarios "falling_short" d
                       floor spread_ref bess_ref alpha season_mult |}.

(** [main] up to the point where five_year_forecast.csv is written
    (lines 107-206).  The result is the table that is saved; an error is
    an exception that leaves no table, or [NotReal].  The checks stand
    where Python raises: the subscripts, then the formatted prints, then
    the passes through the loop, one after the other. *)
Definition main
    (spread_params tariff_params : gmap string json)
    (bess : list bess_row) (scenarios : option (list scenario_row))
    (ren : option (list renewable_row)) : result (list forecast_row) :=
  floor_v ← getitem spread_params "floor";
  spread_ref_v ← getitem spread_params "spread_ref";
  bess_ref_v ← getitem spread_params "bess_ref";
  alpha_v ← getitem spread_params "alpha";
  alpha_low_v ← getitem spread_params "alpha_low";
  alpha_high_v ← getitem spread_params "alpha_high";
  let month_coefs_v := get spread_params "month_coefs" (JObj ∅) in
  let price_multiplier_v := get tariff_params "price_multiplier" (JNum (131 / 100)) in
  floor ← as_num floor_v;
  spread_ref ← as_num spread_ref_v;
  bess_ref ← as_num bess_ref_v;
  price_multiplier ← as_num price_multiplier_v;
  _ ← as_num (get tariff_params "price_adder_mwh" (JNum 65));
  _ ← (if bess is [] then raise IndexError else mret ());
  wind_proj ← project_wind_generation ren (bess_date <$> bess);
  alpha ← as_num alpha_v;
  month_coefs ← as_obj month_coefs_v;
  _ ← first_stop (forecast_month_check spread_ref bess_ref alpha scenarios) bess;
  mret (forecast_month floor spread_ref bess_ref alpha price_multiplier
                       month_coefs scenarios wind_proj <$> bess).

(** The curve of the sensitivity chart for elasticity [a] (lines 293-303):
    computed from the saved table, drawn, and not stored. *)
Definition alpha_band
    (forecast : list forecast_row) (floor spread_ref bess_ref a : R)
    (month_coefs : gmap string R) : list R :=
  (λ row,
     let s_ann := power_law_spread (bess_gw row) floor spread_ref bess_ref a in
     let s_mult := seasonal_adjustment (month (row_date row)) month_coefs spread_ref in
     clamp0 (s_ann * s_mult)) <$> forecast.

End Composer.

(** ** The tariff pass-through model (4_tariff_model.py) *)

Module Tariff.

(** A row of daily_wholesale_spread.csv (the Agile-derived series); an
    empty cell is [None]. *)
Record agile_row := {
  agile_date : date;
  spread_max_min : option R;
  price_mean : option R;
  price_max : option R;
  price_min : option R
}.

(** A row of daily_elexon_wholesale.csv. *)
Record elexon_row := {
  elexon_date : date;
  wholesale_spread : option R;
  wholesale_mean : option R
}.

(** A row of [merged] after [dropna()]. *)
Record merged_row := {
  merged_date : date;
  m_spread_max_min : R;
  m_price_mean : R;
  m_price_max : R;
  m_price_min : R;
  m_wholesale_spread : R;
  m_wholesale_mean : R
}.

(** One pair of an inner join on [date], kept when none of its cells is
    empty. *)
Definition merged_pair (a : agile_row) (e : elexon_row) : option merged_row :=
  s ← spread_max_min a; pm ← price_mean a; px ← price_max a; pn ← price_min a;
  ws ← wholesale_spread e; wm ← wholesale_mean e;
  Some {| merged_date := agile_date a;
          m_spread_max_min := s; m_price_mean := pm;
          m_price_max := px; m_price_min := pn;
          m_wholesale_spread := ws; m_wholesale_mean := wm |}.

(** [pd.merge(agile, elexon, on="date", how="inner").dropna()]. *)
Definition merge_inner (agile : list agile_row) (elexon : list elexon_row)
    : list merged_row :=
  a ← agile;
  omap (merged_pair a) (filter (λ e, elexon_date e = agile_date a) elexon).

(** What the script reads off a fitted [sm.OLS] model with one regressor. *)
Record fit := { slope : R; const : R; rsquared : R }.

(** The note of the parameter file written without Elexon data. *)
Definition degraded_note : string :=
  "No Elexon cross-validation available — using Agile prices as direct proxy".

(** The dict [params] of the branch without Elexon data (lines 152-161). *)
Definition degraded_params (n_agile : nat) : gmap string json :=
  <["spread_multiplier" := JNum 1]>
  (<["spread_intercept" := JNum 0]>
  (<["spread_r_squared" := JNull]>
  (<["price_multiplier" := JNum 1]>
  (<["price_adder_mwh" := JNum 0]>
  (<["price_r_squared" := JNull]>
  (<["n_obs" := JNum (INR n_agile)]>
  (<["note" := JStr degraded_note]> ∅))))))).

(** The dict [params] of the branch with Elexon data (lines 86-94). *)
Definition fitted_params (model model2 : fit) (n_merged : nat) : gmap string json :=
  <["spread_multiplier" := JNum (slope model)]>
  (<["spread_intercept" := JNum (const model)]>
  (<["spread_r_squared" := JNum (rsquared model)]>
  (<["price_multiplier" := JNum (slope model2)]>
  (<["price_adder_mwh" := JNum (const model2)]>
  (<["price_r_squared" := JNum (rsquared model2)]>
  (<["n_obs" := JNum (INR n_merged)]> ∅)))))).

Section Main.

(** [sm.OLS(y, sm.add_constant(x)).fit(cov_type="HC1")] on a non-empty
    list of pairs [(x, y)]: the library routine is a parameter of the
    model; it may raise. *)
Variable ols : list (R * R) → result fit.

(** The same on any list: without an observation statsmodels raises a
    [ValueError] (a reduction over an array of size zero). *)
Definition fit_ols (data : list (R * R)) : result fit :=
  match data with
  | [] => raise ValueError
  | _ :: _ => ols data
  end.

(** [main] (lines 33-182): the dict written to tariff_model_params.json.
    [elexon] is [None] when daily_elexon_wholesale.csv does not exist. *)
Definition main (agile : list agile_row) (elexon : option (list elexon_row))
    : result (gmap string json) :=
  match elexon with
  | Some rows =>
      let merged := merge_inner agile rows in
      model ← fit_ols ((λ r, (m_wholesale_spread r, m_spread_max_min r)) <$> merged);
      model2 ← fit_ols ((λ r, (m_wholesale_mean r, m_price_mean r)) <$> merged);
      mret (fitted_params model model2 (length merged))
  | None => mret (degraded_params (length agile))
  end.

End Main.

End Tariff.

(** ** The dataset merger ([load_and_merge] of 3_spread_model.py) *)

Module Merger.

(** A row of the daily spread file in use: its date, its spread column
    and its price column. *)
Record daily_row := {
  daily_date : date;
  daily_spread : option R;
  daily_price : option R
}.

(** A row of bess_capacity_monthly.csv. *)
Record capacity_row := {
  capacity_date : date;
  capacity_gw : option R;
  source : string
}.

(** A row of daily_wind_solar_generation.csv. *)
Record generation_row := { generation_date : date; wind_gen_gw : option R }.

(** A row of the merged panel. *)
Record panel_row := {
  panel_date : date;
  panel_spread : option R;
  panel_price : option R;
  panel_year_month : Z * Z;
  panel_bess_gw : option R;
  panel_wind_gen_gw : option R
}.

(** [bess[bess["source"] == "historic"].set_index("year_month")
    ["bess_capacity_gw"]]: the index and the values of the series. *)
Definition bess_lookup (bess : list capacity_row) : list ((Z * Z) * option R) :=
  (λ b, (year_month (capacity_date b), capacity_gw b))
    <$> filter (λ b, source b = "historic") bess.

(** The value of a series at a label: the first entry with that label, an
    empty cell when there is none. *)
Definition series_at (s : list ((Z * Z) * option R)) (k : Z * Z) : option R :=
  mjoin (snd <$> head (filter (λ e, e.1 = k) s)).

(** [Series.map(lookup)]: pandas refuses a lookup series whose index has
    a repeated label. *)
Definition series_map (keys : list (Z * Z)) (s : list ((Z * Z) * option R))
    : result (list (option R)) :=
  if decide (NoDup (fst <$> s)) then mret (series_at s <$> keys)
  else raise InvalidIndexError.

(** [pd.merge(spread, gen[["date", "wind_gen_gw"]], on="date", how="left")]
    for one left row that already carries its capacity. *)
Definition merge_left_row
    (gen : list generation_row) (d : daily_row) (c : option R) : list panel_row :=
  let mk w :=
    {| panel_date := daily_date d;
       panel_spread := daily_spread d;
       panel_price := daily_price d;
       panel_year_month := year_month (daily_date d);
       panel_bess_gw := c;
       panel_wind_gen_gw := w |} in
  match filter (λ g, generation_date g = daily_date d) gen with
  | [] => [mk None]
  | g :: gs => (λ x, mk (wind_gen_gw x)) <$> (g :: gs)
  end.

(** The daily file that is read, with the names of its spread and price
    columns (lines 55-64). *)
Definition choose_spread (elexon : option (list daily_row)) (agile : list daily_row)
    : list daily_row * string * string :=
  match elexon with
  | Some rows => (rows, "wholesale_spread", "wholesale_mean")
  | None => (agile, "spread_max_min", "price_mean")
  end.

(** [frame["date"].dt]: the date column of a file without a row is not
    a datetime column, and the accessor raises. *)
Definition dt {A} (rows : list A) : result () :=
  if rows is [] then raise AttributeError else mret ().

(** [load_and_merge] (lines 50-94).  [elexon] and [gen] are [None] when
    their files do not exist.  The columns [month], [year] and
    [day_of_week] are functions of [panel_date] and are not stored. *)
Definition load_and_merge
    (elexon : option (list daily_row)) (agile : list daily_row)
    (bess : list capacity_row) (gen : option (list generation_row))
    : result (list panel_row * string * string) :=
  let '(spread, spread_col, price_col) := choose_spread elexon agile in
  _ ← dt bess;
  _ ← dt spread;
  caps ← series_map ((λ d, year_month (daily_date d)) <$> spread) (bess_lookup bess);
  let with_cap := zip spread caps in
  let merged :=
    p ← with_cap; merge_left_row (default [] gen) p.1 p.2 in
  let kept := filter (λ r, is_Some (panel_bess_gw r)) merged in
  mret (kept, spread_col, price_col).

End Merger.

(** ** Sample inputs *)

Module Samples.

Import Composer.

Definition jan_2026 : date := {| year := 2026; month := 1; day := 1 |}.

(** A calibration file with reference point 100 at 5 GW and floor 10. *)
Definition spread_params : gmap string json :=
  <["floor" := JNum 10]>
  (<["spread_ref" := JNum 100]>
  (<["bess_ref" := JNum 5]>
  (<["alpha" := JNum (1 / 2)]>
  (<["alpha_low" := JNum (46 / 100)]>
  (<["alpha_high" := JNum (65 / 100)]> ∅))))).

(** A fitted pass-through file: spread fit 2 x + 5, level fit 3 x + 60. *)
Definition tariff_params : gmap string json :=
  <["spread_multiplier" := JNum 2]>
  (<["spread_intercept" := JNum 5]>
  (<["price_multiplier" := JNum 3]>
  (<["price_adder_mwh" := JNum 60]> ∅))).

(** One forecast month at the reference capacity. *)
Definition bess_at_ref : list bess_row :=
  [ {| bess_date := jan_2026; bess_capacity_gw := 5 |} ].

(** A calibration file with elasticities 1/2, 1 and 2 around reference
    point 1 at 1 GW, floor 0. *)
Definition unit_params : gmap string json :=
  <["floor" := JNum 0]>
  (<["spread_ref" := JNum 1]>
  (<["bess_ref" := JNum 1]>
  (<["alpha" := JNum 1]>
  (<["alpha_low" := JNum (/ 2)]>
  (<["alpha_high" := JNum 2]> ∅))))).

(** One forecast month at four times the reference capacity. *)
Definition bess_at_4 : list bess_row :=
  [ {| bess_date := jan_2026; bess_capacity_gw := 4 |} ].

(** One day of the Agile-derived series and one day of Elexon data, a
    year and a half apart. *)
Definition agile_day : list Tariff.agile_row :=
  [ {| Tariff.agile_date := {| year := 2024; month := 1; day := 1 |};
       Tariff.spread_max_min := Some 50; Tariff.price_mean := Some 80;
       Tariff.price_max := Some 100; Tariff.price_min := Some 50 |} ].

Definition elexon_day : list Tariff.elexon_row :=
  [ {| Tariff.elexon_date := {| year := 2025; month := 6; day := 1 |};
       Tariff.wholesale_spread := Some 40; Tariff.wholesale_mean := Some 70 |} ].

(** A regression routine that rejects every input. *)
Definition no_fit (xy : list (R * R)) : result Tariff.fit := inl FitError.


(** A daily row of January 2026, a monthly capacity series whose January
    2026 value is projected, and one whose value is historic. *)
Definition daily_jan : list Merger.daily_row :=
  [ {| Merger.daily_date := {| year := 2026; month := 1; day := 15 |};
       Merger.daily_spread := Some 50; Merger.daily_price := Some 80 |} ].

Definition projected_jan : list Merger.capacity_row :=
  [ {| Merger.capacity_date := jan_2026; Merger.capacity_gw := Some 7;
       Merger.source := "fes_system_transformation" |} ].

Definition historic_jan : list Merger.capacity_row :=
  [ {| Merger.capacity_date := jan_2026; Merger.capacity_gw := Some 7;
       Merger.source := "historic" |} ].

End Samples.

(** ** The rest of the spread model (3_spread_model.py) *)

Module SpreadModel.

Import Merger.

(** Chronological order of monthly periods. *)
Definition ym_le (a b : Z * Z) : Prop :=
  (a.1 < b.1)%Z ∨ (a.1 = b.1 ∧ (a.2 ≤ b.2)%Z).

#[global] Instance ym_le_dec : RelDecision ym_le.
Proof. intros a b. unfold ym_le. apply _. Defined.

(** The mean of a column: empty cells are skipped; a column without any
    value has an empty mean. *)
Definition col_mean (col : list (option R)) : option R :=
  match omap (λ c : option R, c) col with
  | [] => None
  | v :: vs => Some (PowerLaw.mean (v :: vs))
  end.

(** One row of [monthly] after [dropna()]. *)
Record month_agg := {
  agg_year_month : Z * Z;
  agg_bess_gw : R;
  agg_spread : R;
  agg_wind_gw : R;
  agg_n_days : nat
}.

(** The aggregate of the rows of one month, kept when none of its means
    is empty. *)
Definition month_group (df : list panel_row) (k : Z * Z) : option month_agg :=
  let g := filter (λ r, panel_year_month r = k) df in
  b ← col_mean (panel_bess_gw <$> g);
  s ← col_mean (panel_spread <$> g);
  w ← col_mean (panel_wind_gen_gw <$> g);
  Some {| agg_year_month := k; agg_bess_gw := b; agg_spread := s;
          agg_wind_gw := w; agg_n_days := length g |}.

(** [fit_power_law] (lines 152-174): [groupby("year_month")] with its
    groups in ascending order of the period, the four aggregates, then
    [dropna()]. *)
Definition fit_power_law (df : list panel_row) : list month_agg :=
  omap (month_group df) (merge_sort ym_le (remove_dups (panel_year_month <$> df))).

(** The two columns [calibrate_params] reads. *)
Definition calibration_rows (monthly : list month_agg) : list PowerLaw.monthly_row :=
  (λ m, {| PowerLaw.m_bess_gw := agg_bess_gw m;
           PowerLaw.m_spread := agg_spread m |}) <$> monthly.

(** [pd.get_dummies(values, prefix=prefix, drop_first=True)]: one column
    per distinct value in ascending order, the first one dropped. *)
Definition dummy_columns (prefix : string) (values : list Z) : list string :=
  (λ v, prefix +:+ "_" +:+ pretty v) <$> tail (merge_sort Z.le (remove_dups values)).

(** The regressors of [run_ols] (lines 103-123), the constant apart:
    capacity, wind when more than half of the rows have it, the weekend
    indicator, the month dummies and, on request, the year dummies. *)
Definition regressors (df : list panel_row) (include_year_dummies : bool)
    : list string :=
  let n_wind := length (filter (λ r, is_Some (panel_wind_gen_gw r)) df) in
  ["bess_gw"]
  ++ (if decide (length df < 2 * n_wind)%nat then ["wind_gen_gw"] else [])
  ++ ["weekend"]
  ++ dummy_columns "month" ((λ r, month (panel_date r)) <$> df)
  ++ (if include_year_dummies
      then dummy_columns "year" ((λ r, year (panel_date r)) <$> df) else []).

(** [ols_model.params.get(name, dflt)] on the fitted parameters, a series
    of named numbers. *)
Definition param_get (fitted : list (string * R)) (name : string) (dflt : R) : R :=
  default dflt (snd <$> head (filter (λ kv, kv.1 = name) fitted)).

(** The dict comprehension of [save_params] (lines 361-364). *)
Definition month_coefs_of (fitted : list (string * R)) : gmap string R :=
  foldl (λ m kv, <[kv.1 := kv.2]> m) ∅
        (filter (λ kv, String.prefix "month_" kv.1 = true) fitted).

(** The dict [params] that [calibrate_params] returns (lines 218-226). *)
Definition params_dict (p : PowerLaw.params) : gmap string json :=
  <["alpha_high" := JNum (PowerLaw.alpha_high p)]>
  (<["alpha_low" := JNum (PowerLaw.alpha_low p)]>
  (<["alpha" := JNum (PowerLaw.alpha p)]>
  (<["floor" := JNum (PowerLaw.floor p)]>
  (<["bess_ref" := JNum (PowerLaw.bess_ref p)]>
  (<["spread_ref" := JNum (PowerLaw.spread_ref p)]>
  (<["model_type" := JStr (PowerLaw.model_type p)]> ∅)))))).

(** [save_params] (lines 351-372): the dict written to
    spread_model_params.json. *)
Definition save_params
    (params : gmap string json) (fitted : list (string * R))
    (rsquared : R) (nobs : nat) (spread_col : string) : gmap string json :=
  <["weekend_coef" := JNum (param_get fitted "weekend" 0)]>
  (<["month_coefs" := JObj (month_coefs_of fitted)]>
  (<["spread_col" := JStr spread_col]>
  (<["ols_n_obs" := JNum (INR nobs)]>
  (<["ols_r_squared" := JNum rsquared]>
  (<["ols_wind_coef" := JNum (param_get fitted "wind_gen_gw" 0)]>
  (<["ols_bess_coef_with_year" := JNum (param_get fitted "bess_gw" 0)]>
   params)))))).

End SpreadModel.

(** ** The processing steps of the fetch scripts *)

Module Fetch.

(** Chronological order of days. *)
Definition date_le (a b : date) : Prop := date_leb a b = true.

#[global] Instance date_le_dec : RelDecision date_le.
Proof. intros a b. unfold date_le. apply _. Defined.

(** The aggregates [max] and [min] of a column: empty cells are skipped;
    a column without any value has an empty aggregate. *)
Definition col_max (col : list (option R)) : option R :=
  match omap (λ c : option R, c) col with
  | [] => None
  | v :: vs => Some (foldl Rmax v vs)
  end.

Definition col_min (col : list (option R)) : option R :=
  match omap (λ c : option R, c) col with
  | [] => None
  | v :: vs => Some (foldl Rmin v vs)
  end.

(** [count]: the number of non-empty cells. *)
Definition col_count (col : list (option R)) : nat :=
  length (omap (λ c : option R, c) col).

(** *** fetch_agile.py *)

(** A half-hourly Agile rate: the day of [valid_from] (the time of day
    plays no part below) and the price in p/kWh. *)
Record agile_rate := { valid_from : date; value_exc_vat : option R }.

(** The same row with the column [price_mwh]. *)
Record priced_rate := { rate_date : date; price_mwh : option R }.

(** [reverse_engineer_wholesale] (lines 131-153): p/kWh to GBP/MWh. *)
Definition reverse_engineer_wholesale (df : list agile_rate) : list priced_rate :=
  (λ r, {| rate_date := valid_from r;
           price_mwh := (λ v, v * 10) <$> value_exc_vat r |}) <$> df.

(** A row of [daily]; the two percentile columns are not modelled. *)
Record daily_spread := {
  spread_date : date;
  price_max : option R;
  price_min : option R;
  price_mean : option R;
  n_periods : nat;
  spread_max_min : option R
}.

(** The aggregates of one day. *)
Definition day_group (df : list priced_rate) (d : date) : daily_spread :=
  let col := price_mwh <$> filter (λ r, rate_date r = d) df in
  {| spread_date := d;
     price_max := col_max col;
     price_min := col_min col;
     price_mean := SpreadModel.col_mean col;
     n_periods := col_count col;
     spread_max_min := (mx ← col_max col; mn ← col_min col; Some (mx - mn)) |}.

(** [calculate_daily_spread] (lines 156-177): the days in ascending
    order, only those with at least 40 priced half-hours. *)
Definition calculate_daily_spread (df : list priced_rate) : list daily_spread :=
  filter (λ g, (40 ≤ n_periods g)%nat)
         (day_group df <$> merge_sort date_le (remove_dups (rate_date <$> df))).

(** *** fetch_elexon.py *)

(** A market-index record: the day of [startTime], the provider and the
    price. *)
Record market_record := {
  start_date : date;
  dataProvider : string;
  price : option R
}.

(** A row of daily_elexon_wholesale.csv. *)
Record wholesale_day := {
  wholesale_date : date;
  wholesale_mean : option R;
  wholesale_max : option R;
  wholesale_min : option R;
  wholesale_spread : option R;
  wholesale_n_periods : nat
}.

(** The records of the primary provider, else of the second one, else
    all of them (lines 173-177). *)
Definition select_provider (df : list market_record) : list market_record :=
  match filter (λ r, dataProvider r = "APXMIDP") df with
  | [] =>
      match filter (λ r, dataProvider r = "N2EXMIDP") df with
      | [] => df
      | n2 => n2
      end
  | apx => apx
  end.

Definition wholesale_group (apx : list market_record) (d : date) : wholesale_day :=
  let col := price <$> filter (λ r, start_date r = d) apx in
  {| wholesale_date := d;
     wholesale_mean := SpreadModel.col_mean col;
     wholesale_max := col_max col;
     wholesale_min := col_min col;
     wholesale_spread := (mx ← col_max col; mn ← col_min col; Some (mx - mn));
     wholesale_n_periods := col_count col |}.

(** [process_market_index] (lines 163-197): the table written to
    daily_elexon_wholesale.csv, or [None] when there is no record and
    nothing is written. *)
Definition process_market_index (data : list market_record)
    : option (list wholesale_day) :=
  match data with
  | [] => None
  | _ =>
      let apx := select_provider data in
      Some (wholesale_group apx
            <$> merge_sort date_le (remove_dups (start_date <$> apx)))
  end.

(** A FUELHH record as read with [r.get]: an absent key reads as the
    empty string or as 0. *)
Record fuel_record := {
  settlementDate : string;
  fuelType : string;
  generation : R
}.

(** A row appended to [all_rows]. *)
Record wind_day := {
  wind_day_date : string;
  wind_gen_mw : R;
  solar_gen_mw : R;
  wind_periods : nat;
  solar_periods : nat
}.

(** The keys of [by_date], in the order of their first appearance. *)
Definition first_seen (l : list string) : list string :=
  reverse (remove_dups (reverse l)).

(** The rows one chunk of records contributes in [fetch_all_generation]
    (lines 83-104). *)
Definition chunk_rows (records : list fuel_record) : list wind_day :=
  (λ d,
     let wind_gens :=
       generation
       <$> filter (λ r, settlementDate r = d ∧ fuelType r = "WIND") records in
     {| wind_day_date := d;
        wind_gen_mw :=
          match wind_gens with
          | [] => 0
          | _ => PowerLaw.Rsum wind_gens / INR (length wind_gens)
          end;
        solar_gen_mw := 0;
        wind_periods := length wind_gens;
        solar_periods := 0 |})
  <$> first_seen (settlementDate <$> records).

(** A row of the raw generation table with its date parsed. *)
Record generation_raw := {
  raw_date : date;
  raw_wind_mw : R;
  raw_solar_mw : R
}.

(** A row of daily_wind_solar_generation.csv. *)
Record generation_day := {
  gen_date : date;
  gen_wind_gw : R;
  gen_solar_gw : R;
  gen_wind_mw : R;
  gen_solar_mw : R
}.

(** [drop_duplicates(subset=["date"], keep="last")]. *)
Fixpoint keep_last (l : list generation_raw) : list generation_raw :=
  match l with
  | [] => []
  | x :: l' =>
      if decide (raw_date x ∈ raw_date <$> l') then keep_last l'
      else x :: keep_last l'
  end.

(** Rows in the order of their dates. *)
Definition raw_le (a b : generation_raw) : Prop := date_le (raw_date a) (raw_date b).

#[global] Instance raw_le_dec : RelDecision raw_le.
Proof. intros a b. unfold raw_le. apply _. Defined.

(** [process_generation] (lines 148-160).  [sort] stands for
    [sort_values("date")]: pandas' default sort is not stable, so the
    order it gives to rows with one date is a parameter of the model. *)
Definition process_generation
    (sort : list generation_raw → list generation_raw)
    (df : list generation_raw) : list generation_day :=
  (λ r, {| gen_date := raw_date r;
           gen_wind_gw := raw_wind_mw r / 1000;
           gen_solar_gw := raw_solar_mw r / 1000;
           gen_wind_mw := raw_wind_mw r;
           gen_solar_mw := raw_solar_mw r |})
  <$> keep_last (sort df).

(** The two columns [load_and_merge] reads from that file. *)
Definition to_generation_rows (out : list generation_day) : list Merger.generation_row :=
  (λ g, {| Merger.generation_date := gen_date g;
           Merger.wind_gen_gw := Some (gen_wind_gw g) |}) <$> out.

End Fetch.

(** ** The capacity series (fetch_bess_capacity.py, 2_bess_forecast.py) *)

Module Capacity.

(** Months counted from year 0, and the first day of a month. *)
Definition month_index (d : date) : Z := (year d * 12 + (month d - 1))%Z.

Definition month_start (i : Z) : date :=
  {| year := (i `div` 12)%Z; month := (i `mod` 12 + 1)%Z; day := 1 |}.

(** [pd.date_range(start, end, freq="MS")] for two first-of-month
    timestamps. *)
Definition date_range (start finish : date) : list date :=
  month_start <$> seqZ (month_index start) (month_index finish - month_index start + 1).

(** [index.min()] and [index.max()] of a frame with first date [d]. *)
Definition index_min (d : date) (rest : list date) : date :=
  foldl (λ acc x, if date_leb acc x then acc else x) d rest.

Definition index_max (d : date) (rest : list date) : date :=
  foldl (λ acc x, if date_leb acc x then x else acc) d rest.

(** The value of a date-indexed column at a date, an empty cell when the
    date is not in the index. *)
Definition value_at (s : list (date * option R)) (d : date) : option R :=
  mjoin (snd <$> head (filter (λ e, e.1 = d) s)).

(** [frame.reindex(range)]. *)
Definition reindex (range : list date) (s : list (date * option R))
    : list (date * option R) :=
  (λ d, (d, value_at s d)) <$> range.

(** The cells between two known values [p] and [v] that are [gap] empty
    cells apart, on equally spaced positions. *)
Definition fill (prev : option R) (v : R) (gap : nat) : list (option R) :=
  match prev with
  | None => replicate gap None
  | Some p => (λ i, Some (p + (v - p) * INR i / INR (S gap))) <$> seq 1 gap
  end.

(** Linear interpolation of a column by position, left to right: [prev]
    is the last known value, [gap] the number of empty cells since.
    Leading empty cells stay empty; trailing ones repeat the last value. *)
Fixpoint interp_go (prev : option R) (gap : nat) (col : list (option R))
    : list (option R) :=
  match col with
  | [] => replicate gap prev
  | None :: col' => interp_go prev (S gap) col'
  | Some v :: col' => fill prev v gap ++ Some v :: interp_go (Some v) 0 col'
  end.

(** [frame.interpolate(method="linear")]. *)
Definition interpolate (s : list (date * option R)) : list (date * option R) :=
  zip s.*1 (interp_go None 0 s.*2).

(** [KNOWN_CAPACITY_GW] in the order of [sorted(...items())], each key
    as the first day of its month. *)
Definition KNOWN_CAPACITY_GW : list (date * R) :=
  [ ({| year := 2017; month := 12; day := 1 |}, 3 / 10);
    ({| year := 2018; month := 6; day := 1 |}, 5 / 10);
    ({| year := 2018; month := 12; day := 1 |}, 7 / 10);
    ({| year := 2019; month := 6; day := 1 |}, 8 / 10);
    ({| year := 2019; month := 12; day := 1 |}, 1);
    ({| year := 2020; month := 6; day := 1 |}, 11 / 10);
    ({| year := 2020; month := 12; day := 1 |}, 13 / 10);
    ({| year := 2021; month := 6; day := 1 |}, 15 / 10);
    ({| year := 2021; month := 12; day := 1 |}, 18 / 10);
    ({| year := 2022; month := 6; day := 1 |}, 21 / 10);
    ({| year := 2022; month := 12; day := 1 |}, 25 / 10);
    ({| year := 2023; month := 6; day := 1 |}, 3);
    ({| year := 2023; month := 12; day := 1 |}, 36 / 10);
    ({| year := 2024; month := 6; day := 1 |}, 45 / 10);
    ({| year := 2024; month := 12; day := 1 |}, 55 / 10);
    ({| year := 2025; month := 6; day := 1 |}, 65 / 10);
    ({| year := 2025; month := 12; day := 1 |}, 75 / 10) ].

(** [FES_PROJECTIONS] in the order of [sorted(...items())]: the year and
    the values (LW, CT, ST, FS). *)
Definition FES_PROJECTIONS : list (Z * list R) :=
  [ (2025%Z, [75 / 10; 7; 65 / 10; 6]);
    (2026%Z, [10; 9; 85 / 10; 75 / 10]);
    (2027%Z, [13; 115 / 10; 105 / 10; 9]);
    (2028%Z, [16; 14; 125 / 10; 105 / 10]);
    (2029%Z, [19; 165 / 10; 15; 12]);
    (2030%Z, [22; 19; 17; 135 / 10]);
    (2031%Z, [24; 21; 19; 15]);
    (2032%Z, [26; 23; 21; 165 / 10]);
    (2033%Z, [28; 25; 225 / 10; 175 / 10]);
    (2034%Z, [30; 265 / 10; 24; 185 / 10]);
    (2035%Z, [32; 28; 255 / 10; 195 / 10]) ].

Definition FES_SCENARIOS : list string :=
  [ "leading_the_way"; "consumer_transformation";
    "system_transformation"; "falling_short" ].

(** The frame over the known points with one cell per month between
    the first and the last of them. *)
Definition monthly_frame (points : list (date * R)) : list (date * option R) :=
  match points.*1 with
  | [] => []
  | d :: rest =>
      reindex (date_range (index_min d rest) (index_max d rest))
              ((λ e : date * R, (e.1, Some e.2)) <$> points)
  end.

(** [build_historic_monthly] (lines 95-118): upsample to month starts
    and interpolate, then reindex to the full range of the known points
    and interpolate again. *)
Definition build_historic_monthly : list (date * option R) :=
  let monthly := interpolate (monthly_frame KNOWN_CAPACITY_GW) in
  match KNOWN_CAPACITY_GW.*1 with
  | [] => []
  | d :: rest =>
      interpolate (reindex (date_range (index_min d rest) (index_max d rest)) monthly)
  end.

(** A row of the scenario table. *)
Record projection_row := {
  projection_date : date;
  projection_scenario : string;
  projection_capacity_gw : option R
}.

(** The annual rows of [build_fes_projections] (lines 123-131). *)
Definition annual_rows : list (date * string * R) :=
  yv ← FES_PROJECTIONS;
  (λ sv : string * R, ({| year := yv.1; month := 1; day := 1 |}, sv.1, sv.2))
  <$> zip FES_SCENARIOS yv.2.

(** The monthly series of one scenario (lines 137-148). *)
Definition scenario_monthly (name : string) : list projection_row :=
  let sdf :=
    (λ r : date * string * R, (r.1.1, r.2))
    <$> filter (λ r : date * string * R, r.1.2 = name) annual_rows in
  (λ e : date * option R,
     {| projection_date := e.1; projection_scenario := name;
        projection_capacity_gw := e.2 |})
  <$> interpolate (monthly_frame sdf).

(** [build_fes_projections] (lines 121-150). *)
Definition build_fes_projections : list projection_row :=
  name ← FES_SCENARIOS; scenario_monthly name.

(** The combined series written to bess_capacity_monthly.csv by [main]
    (lines 182-191). *)
Definition combined_series : list Merger.capacity_row :=
  let historic := build_historic_monthly in
  match historic.*1 with
  | [] => []
  | d :: rest =>
      let hist_max := index_max d rest in
      let future :=
        filter (λ r, ¬ Fetch.date_le (projection_date r) hist_max)
          (filter (λ r, projection_scenario r = "system_transformation")
                  build_fes_projections) in
      (λ r : date * option R,
         {| Merger.capacity_date := r.1; Merger.capacity_gw := r.2;
            Merger.source :=
              if decide (Fetch.date_le r.1 hist_max) then "historic"
              else "fes_system_transformation" |})
      <$> (historic
           ++ ((λ r, (projection_date r, projection_capacity_gw r)) <$> future))
  end.

(** [main] of 2_bess_forecast.py up to the forecast it writes to
    bess_forecast.csv (lines 42-81).  [scenarios] is [None] when the
    scenario file does not exist.  The summary printed first reads
    [historic["date"].min().date()], which raises when the capacity file
    has no row at all (the minimum of its date column is then no
    timestamp), and [historic["bess_capacity_gw"].iloc[0]], which raises
    when no row is tagged historic.  The forecast is made of the rows of
    the capacity file from January 2026 to December 2030, or, when there
    is none and the scenario file exists, of those of the System
    Transformation scenario; the line printed next raises when that
    selection comes from a scenario file without a row. *)
Definition forecast_start : date := {| year := 2026; month := 1; day := 1 |}.
Definition forecast_end : date := {| year := 2030; month := 12; day := 1 |}.

Definition in_window (d : date) : Prop :=
  Fetch.date_le forecast_start d ∧ Fetch.date_le d forecast_end.

(** A row of bess_forecast.csv; the source column is there only when
    the rows come from the capacity file. *)
Record forecast_month := {
  forecast_date : date;
  forecast_capacity_gw : option R;
  forecast_source : option string
}.

Definition of_capacity_row (b : Merger.capacity_row) : forecast_month :=
  {| forecast_date := Merger.capacity_date b;
     forecast_capacity_gw := Merger.capacity_gw b;
     forecast_source := Some (Merger.source b) |}.

Definition of_projection_row (r : projection_row) : forecast_month :=
  {| forecast_date := projection_date r;
     forecast_capacity_gw := projection_capacity_gw r;
     forecast_source := None |}.

Definition bess_forecast
    (bess : list Merger.capacity_row) (scenarios : option (list projection_row))
    : result (list forecast_month) :=
  _ ← (if bess is [] then raise AttributeError else mret ());
  _ ← (if filter (λ b, Merger.source b = "historic") bess is []
       then raise IndexError else mret ());
  let forecast :=
    of_capacity_row
    <$> filter (λ b, in_window (Merger.capacity_date b)) bess in
  match forecast, scenarios with
  | [], Some [] => raise AttributeError
  | [], Some sc =>
      mret (of_projection_row
            <$> filter (λ r, in_window (projection_date r))
                  (filter (λ r, projection_scenario r = "system_transformation") sc))
  | _, _ => mret forecast
  end.

End Capacity.

(** ** More sample inputs *)

Module MoreSamples.

Import Composer.

(** Two days of the Agile-derived series and the same two days of
    Elexon data. *)
Definition agile_two_days : list Tariff.agile_row :=
  [ {| Tariff.agile_date := {| year := 2024; month := 1; day := 1 |};
       Tariff.spread_max_min := Some 50; Tariff.price_mean := Some 80;
       Tariff.price_max := Some 100; Tariff.price_min := Some 50 |};
    {| Tariff.agile_date := {| year := 2024; month := 1; day := 2 |};
       Tariff.spread_max_min := Some 70; Tariff.price_mean := Some 100;
       Tariff.price_max := Some 130; Tariff.price_min := Some 60 |} ].

Definition elexon_two_days : list Tariff.elexon_row :=
  [ {| Tariff.elexon_date := {| year := 2024; month := 1; day := 1 |};
       Tariff.wholesale_spread := Some 40; Tariff.wholesale_mean := Some 70 |};
    {| Tariff.elexon_date := {| year := 2024; month := 1; day := 2 |};
       Tariff.wholesale_spread := Some 60; Tariff.wholesale_mean := Some 90 |} ].

(** A regression routine for the samples: the least-squares line
    through the points, in closed form. *)
Definition least_squares (data : list (R * R)) : result Tariff.fit :=
  let x_mean := PowerLaw.mean data.*1 in
  let y_mean := PowerLaw.mean data.*2 in
  let sxx := PowerLaw.Rsum ((λ p : R * R, (p.1 - x_mean) * (p.1 - x_mean)) <$> data) in
  let sxy := PowerLaw.Rsum ((λ p : R * R, (p.1 - x_mean) * (p.2 - y_mean)) <$> data) in
  let syy := PowerLaw.Rsum ((λ p : R * R, (p.2 - y_mean) * (p.2 - y_mean)) <$> data) in
  inr {| Tariff.slope := sxy / sxx;
         Tariff.const := y_mean - sxy / sxx * x_mean;
         Tariff.rsquared := sxy * sxy / (sxx * syy) |}.

(** The two outer scenarios for January 2026. *)
Definition fan_jan : list scenario_row :=
  [ {| scenario_date := Samples.jan_2026; scenario := "leading_the_way";
       scenario_capacity_gw := 10 |};
    {| scenario_date := Samples.jan_2026; scenario := "falling_short";
       scenario_capacity_gw := 4 |} ].

(** A one-row renewables file, and two forecast months a year apart. *)
Definition renewables_dec : list renewable_row :=
  [ {| ren_date := {| year := 2025; month := 12; day := 1 |};
       total_wind_gw := 30 |} ].

Definition jan_2027 : date := {| year := 2027; month := 1; day := 1 |}.
Definition jan_2025 : date := {| year := 2025; month := 1; day := 1 |}.
Definition jan_2035 : date := {| year := 2035; month := 1; day := 1 |}.
Definition dec_2017 : date := {| year := 2017; month := 12; day := 1 |}.
Definition dec_2025 : date := {| year := 2025; month := 12; day := 1 |}.

(** A capacity file with one historic month and one projected month,
    and a scenario file with one month of the base scenario. *)
Definition capacity_two_months : list Merger.capacity_row :=
  [ {| Merger.capacity_date := dec_2025; Merger.capacity_gw := Some (75 / 10);
       Merger.source := "historic" |};
    {| Merger.capacity_date := jan_2027; Merger.capacity_gw := Some (105 / 10);
       Merger.source := "fes_system_transformation" |} ].

Definition scenario_one_month : list Capacity.projection_row :=
  [ {| Capacity.projection_date := jan_2027;
       Capacity.projection_scenario := "system_transformation";
       Capacity.projection_capacity_gw := Some (105 / 10) |} ].

(** Seven months of data: one below 6 GW, six at 6.5 GW. *)
Definition months_recent : list PowerLaw.monthly_row :=
  {| PowerLaw.m_bess_gw := 5; PowerLaw.m_spread := 150 |}
  :: replicate 6 {| PowerLaw.m_bess_gw := 65 / 10; PowerLaw.m_spread := 120 |}.

(** A generation file with the wind of 15 January 2026. *)
Definition generation_jan : list Merger.generation_row :=
  [ {| Merger.generation_date := {| year := 2026; month := 1; day := 15 |};
       Merger.wind_gen_gw := Some 9 |} ].

(** A panel with one day in January and one in February 2026. *)
Definition panel_jan_feb : list Merger.panel_row :=
  [ {| Merger.panel_date := {| year := 2026; month := 1; day := 15 |};
       Merger.panel_spread := Some 50; Merger.panel_price := Some 80;
       Merger.panel_year_month := (2026, 1)%Z;
       Merger.panel_bess_gw := Some 7; Merger.panel_wind_gen_gw := Some 9 |};
    {| Merger.panel_date := {| year := 2026; month := 2; day := 3 |};
       Merger.panel_spread := Some 60; Merger.panel_price := Some 85;
       Merger.panel_year_month := (2026, 2)%Z;
       Merger.panel_bess_gw := Some 7; Merger.panel_wind_gen_gw := None |} ].

(** Fitted parameters named after the regressors of that panel. *)
Definition fitted_jan_feb : list (string * R) :=
  [ ("const", 100); ("bess_gw", -2); ("weekend", -4); ("month_2", 3) ].

End MoreSamples.
(** * Properties *)

(** ** The power law *)

Section PowerLawFacts.

Import PowerLaw.

Lemma Rpower_one_base (a : R) : Rpower 1 a = 1.
Proof. unfold Rpower. rewrite ln_1, Rmult_0_r. apply exp_0. Qed.

Lemma Rpower_pos (x a : R) : 0 < Rpower x a.
Proof. unfold Rpower. apply exp_pos. Qed.

(** On a positive base Python's power is the real power. *)
Lemma float_pow_pos (x y : R) : 0 < x → float_pow x y = Rpower x y.
Proof.
  intros Hx. unfold float_pow.
  destruct (decide (y = 0)) as [-> | _].
  - symmetry. apply Rpower_O. exact Hx.
  - rewrite decide_True by exact Hx. reflexivity.
Qed.

Lemma float_pow_zero_exponent (x : R) : float_pow x 0 = 1.
Proof. unfold float_pow. rewrite decide_True by reflexivity. reflexivity. Qed.

Lemma power_law_spread_pos (c fl sref bref a : R) :
  0 < bref / c →
  power_law_spread c fl sref bref a = fl + (sref - fl) * Rpower (bref / c) a.
Proof. intros H. unfold power_law_spread. rewrite float_pow_pos by exact H. reflexivity. Qed.

(** For a base in (0, 1] a larger exponent gives a smaller power. *)
Lemma Rpower_antitone_exponent (x a b : R) :
  0 < x → x <= 1 → a <= b → Rpower x b <= Rpower x a.
Proof.
  intros Hx Hx1 Hab. unfold Rpower.
  assert (Hln : ln x <= 0).
  { destruct Hx1 as [Hlt | ->].
    - left. rewrite <- ln_1. now apply ln_increasing.
    - rewrite ln_1. lra. }
  assert (Hle : b * ln x <= a * ln x) by nra.
  destruct Hle as [Hlt | ->].
  - left. now apply exp_increasing.
  - lra.
Qed.


(** The power law is antitone in the elasticity on the compressing side. *)
Lemma power_law_antitone_alpha (c fl sref bref a b : R) :
  0 < bref → bref <= c → fl <= sref → a <= b →
  power_law_spread c fl sref bref b <= power_law_spread c fl sref bref a.
Proof.
  intros Hb Hc Hs Hab.
  assert (Hbase : 0 < bref / c <= 1).
  { split.
    - apply Rdiv_lt_0_compat; lra.
    - apply (Rmult_le_reg_r c); [lra |].
      unfold Rdiv. rewrite Rmult_assoc, Rinv_l by lra. lra. }
  rewrite !power_law_spread_pos by apply Hbase.
  pose proof (Rpower_antitone_exponent (bref / c) a b
                (proj1 Hbase) (proj2 Hbase) Hab) as Hp.
  nra.
Qed.

(** In exact arithmetic the bracket at the reference capacity is taken
    to the power of a base equal to one. *)
Lemma power_law_at_ref (fl sref bref a : R) :
  bref ≠ 0 → power_law_spread bref fl sref bref a = sref.
Proof.
  intros Hb. unfold power_law_spread.
  replace (bref / bref) with 1 by (field; exact Hb).
  rewrite float_pow_pos by lra.
  rewrite Rpower_one_base. ring.
Qed.

End PowerLawFacts.

(** ** Binary64 *)

Section Binary64Facts.

#[local] Open Scope Z_scope.







End Binary64Facts.










(** C4. Elasticity ordering: the three elasticities written by
    [calibrate_params] are 0.46 <= 0.50 <= 0.65, and for a capacity above
    the (positive) reference capacity and a reference spread above the
    floor the spread with alpha_high is at most the spread with the
    central alpha, which is at most the spread with alpha_low. *)
Theorem elasticity_ordering
    (monthly : list PowerLaw.monthly_row) (floor spread_ref bess_ref c : R) :
  0 < bess_ref → bess_ref < c → floor < spread_ref →
  let p := PowerLaw.calibrate_params monthly in
  PowerLaw.alpha_low p = 46 / 100 ∧ PowerLaw.alpha p = 50 / 100
  ∧ PowerLaw.alpha_high p = 65 / 100
  ∧ PowerLaw.power_law_spread c floor spread_ref bess_ref (PowerLaw.alpha_high p)
    <= PowerLaw.power_law_spread c floor spread_ref bess_ref (PowerLaw.alpha p)
  ∧ PowerLaw.power_law_spread c floor spread_ref bess_ref (PowerLaw.alpha p)
    <= PowerLaw.power_law_spread c floor spread_ref bess_ref (PowerLaw.alpha_low p).
Proof.
  intros Hb Hc Hs p. subst p. cbn [PowerLaw.calibrate_params
    PowerLaw.alpha PowerLaw.alpha_low PowerLaw.alpha_high].
  unfold PowerLaw.alpha_modo, PowerLaw.alpha_central, PowerLaw.alpha_caiso.
  repeat split; try reflexivity;
    apply power_law_antitone_alpha; lra.
Qed.

Lemma elasticity_ordering_witness :
  0 < 65 / 10 ∧ 65 / 10 < 13 ∧ 135 / 10 < 120 ∧
  let p := PowerLaw.calibrate_params [] in
  PowerLaw.power_law_spread 13 (135 / 10) 120 (65 / 10) (PowerLaw.alpha_high p)
  <= PowerLaw.power_law_spread 13 (135 / 10) 120 (65 / 10) (PowerLaw.alpha_low p).
Proof.
  repeat (split; [lra |]).
  destruct (elasticity_ordering [] (135 / 10) 120 (65 / 10) 13)
    as (_ & _ & _ & H1 & H2); [lra | lra | lra |].
  intros p. exact (Rle_trans _ _ _ H1 H2).
Defined.

(** ** Seasonal adjustment *)

Section SeasonalFacts.

Import PowerLaw Seasonal.

Lemma months_2_to_12 : seqZ 2 11 = [2; 3; 4; 5; 6; 7; 8; 9; 10; 11; 12]%Z.
Proof. reflexivity. Qed.






End SeasonalFacts.




(** ** The combined forecast *)

Section ComposerFacts.

Import PowerLaw Seasonal Composer.

Lemma bind_inr {A B} (r : result A) (f : A → result B) (y : B) :
  r ≫= f = inr y → ∃ x, r = inr x ∧ f x = inr y.
Proof. destruct r as [e | x]; [discriminate | eauto]. Qed.

Lemma getitem_inr (d : gmap string json) (key : string) (v : json) :
  getitem d key = inr v → d !! key = Some v.
Proof.
  unfold getitem. destruct (d !! key); [| discriminate].
  intros [= ->]. reflexivity.
Qed.

Lemma getitem_missing (d : gmap string json) (key : string) :
  d !! key = None → getitem d key = inl (KeyError key).
Proof. unfold getitem. intros ->. reflexivity. Qed.

Lemma as_num_inr (v : json) (x : R) : as_num v = inr x → v = JNum x.
Proof. destruct v; try discriminate. intros [= ->]. reflexivity. Qed.

Lemma as_obj_inr (v : json) (o : gmap string R) : as_obj v = inr o → v = JObj o.
Proof. destruct v; try discriminate. intros [= ->]. reflexivity. Qed.

(** What a successful run of [main] has read and what it has saved. *)
Lemma main_inr sp tp bess sc ren rows :
  main sp tp bess sc ren = inr rows →
  ∃ floor spread_ref bess_ref alpha pm coefs wind,
    sp !! "floor" = Some (JNum floor)
    ∧ sp !! "spread_ref" = Some (JNum spread_ref)
    ∧ sp !! "bess_ref" = Some (JNum bess_ref)
    ∧ sp !! "alpha" = Some (JNum alpha)
    ∧ is_Some (sp !! "alpha_low") ∧ is_Some (sp !! "alpha_high")
    ∧ get sp "month_coefs" (JObj ∅) = JObj coefs
    ∧ get tp "price_multiplier" (JNum (131 / 100)) = JNum pm
    ∧ project_wind_generation ren (bess_date <$> bess) = inr wind
    ∧ bess ≠ []
    ∧ rows = forecast_month floor spread_ref bess_ref alpha pm coefs sc wind
               <$> bess.
Proof.
  unfold main. intros H.
  apply bind_inr in H as (fv & Hf & H). apply getitem_inr in Hf.
  apply bind_inr in H as (sv & Hsr & H). apply getitem_inr in Hsr.
  apply bind_inr in H as (bv & Hb & H). apply getitem_inr in Hb.
  apply bind_inr in H as (av & Ha & H). apply getitem_inr in Ha.
  apply bind_inr in H as (alv & Hal & H). apply getitem_inr in Hal.
  apply bind_inr in H as (ahv & Hah & H). apply getitem_inr in Hah.
  cbv zeta in H.
  apply bind_inr in H as (fl & Hfl & H). apply as_num_inr in Hfl.
  apply bind_inr in H as (sr & Hsr' & H). apply as_num_inr in Hsr'.
  apply bind_inr in H as (br & Hbr & H). apply as_num_inr in Hbr.
  apply bind_inr in H as (pm & Hpm & H). apply as_num_inr in Hpm.
  apply bind_inr in H as (adder & _ & H).
  apply bind_inr in H as (u & Hne & H).
  apply bind_inr in H as (wind & Hw & H).
  apply bind_inr in H as (a & Ha' & H). apply as_num_inr in Ha'.
  apply bind_inr in H as (coefs & Hco & H). apply as_obj_inr in Hco.
  apply bind_inr in H as (u' & _ & H).
  injection H as <-. subst fv sv bv av.
  exists fl, sr, br, a, pm, coefs, wind.
  repeat split; eauto.
  intros ->. discriminate Hne.
Qed.

(** A successful run of [main] went through every pass of the loop. *)
Lemma main_inr_checks sp tp bess sc ren rows spread_ref bess_ref alpha :
  main sp tp bess sc ren = inr rows →
  sp !! "spread_ref" = Some (JNum spread_ref) →
  sp !! "bess_ref" = Some (JNum bess_ref) →
  sp !! "alpha" = Some (JNum alpha) →
  first_stop (forecast_month_check spread_ref bess_ref alpha sc) bess = inr ().
Proof.
  unfold main. intros H Hs Hb Ha.
  apply bind_inr in H as (fv & Hf & H).
  apply bind_inr in H as (sv & Hsr & H). apply getitem_inr in Hsr.
  apply bind_inr in H as (bv & Hbv & H). apply getitem_inr in Hbv.
  apply bind_inr in H as (av & Hav & H). apply getitem_inr in Hav.
  apply bind_inr in H as (alv & Hal & H).
  apply bind_inr in H as (ahv & Hah & H).
  cbv zeta in H.
  apply bind_inr in H as (fl & Hfl & H).
  apply bind_inr in H as (sr & Hsr' & H). apply as_num_inr in Hsr'.
  apply bind_inr in H as (br & Hbr & H). apply as_num_inr in Hbr.
  apply bind_inr in H as (pm & Hpm & H).
  apply bind_inr in H as (adder & _ & H).
  apply bind_inr in H as (u & Hne & H).
  apply bind_inr in H as (wind & Hw & H).
  apply bind_inr in H as (a & Ha' & H). apply as_num_inr in Ha'.
  apply bind_inr in H as (coefs & Hco & H).
  apply bind_inr in H as ([] & Hchk & H).
  assert (sr = spread_ref) as -> by congruence.
  assert (br = bess_ref) as -> by congruence.
  assert (a = alpha) as -> by congruence.
  exact Hchk.
Qed.

(** The passes of the loop go through: positive capacities in the
    forecast and in the scenario file, a positive reference capacity, a
    reference spread other than zero. *)
Lemma power_law_check_pos (c bess_ref alpha : R) :
  0 < c → 0 < bess_ref → power_law_check c bess_ref alpha = inr ().
Proof.
  intros Hc Hb. unfold power_law_check.
  rewrite decide_False by lra.
  destruct (decide (alpha = 0)); [reflexivity |].
  rewrite decide_False by lra.
  rewrite decide_False; [reflexivity |].
  intros [Hneg _].
  pose proof (Rdiv_lt_0_compat bess_ref c Hb Hc). lra.
Qed.

Lemma scenario_check_pos sc name d bess_ref alpha :
  0 < bess_ref →
  (∀ rows s, sc = Some rows → s ∈ rows → 0 < scenario_capacity_gw s) →
  scenario_check sc name d bess_ref alpha = inr ().
Proof.
  intros Hb Hsc. unfold scenario_check.
  destruct sc as [rows |]; [| reflexivity]. cbn [mbind option_bind].
  unfold scenario_capacity.
  destruct (filter _ rows) as [| s l] eqn:Hf; [reflexivity |].
  cbn [head fmap option_fmap option_map].
  apply power_law_check_pos; [| exact Hb].
  apply (Hsc rows s eq_refl).
  assert (Hin : s ∈ filter (λ s, scenario s = name ∧ scenario_date s = d) rows)
    by (rewrite Hf; apply list_elem_of_here).
  apply list_elem_of_filter in Hin as [_ Hin]. exact Hin.
Qed.

Lemma forecast_month_check_pos spread_ref bess_ref alpha sc (b : bess_row) :
  spread_ref ≠ 0 → 0 < bess_ref → 0 < bess_capacity_gw b →
  (∀ rows s, sc = Some rows → s ∈ rows → 0 < scenario_capacity_gw s) →
  forecast_month_check spread_ref bess_ref alpha sc b = inr ().
Proof.
  intros Hs Hb Hc Hsc. unfold forecast_month_check.
  rewrite power_law_check_pos by assumption.
  cbn [mbind result_bind].
  rewrite decide_False by exact Hs. cbn [mbind result_bind mret result_ret].
  rewrite !scenario_check_pos by assumption.
  reflexivity.
Qed.

Lemma first_stop_pos spread_ref bess_ref alpha sc (bess : list bess_row) :
  spread_ref ≠ 0 → 0 < bess_ref →
  (∀ b, b ∈ bess → 0 < bess_capacity_gw b) →
  (∀ rows s, sc = Some rows → s ∈ rows → 0 < scenario_capacity_gw s) →
  first_stop (forecast_month_check spread_ref bess_ref alpha sc) bess = inr ().
Proof.
  intros Hs Hb Hbess Hsc.
  induction bess as [| b bess IH]; [reflexivity |].
  cbn [first_stop].
  rewrite forecast_month_check_pos;
    [| exact Hs | exact Hb | apply Hbess, list_elem_of_here | exact Hsc].
  cbn [mbind result_bind].
  apply IH. intros b' Hb'. apply Hbess. apply list_elem_of_further. exact Hb'.
Qed.

(** The converse: from well-typed parameter files and a non-empty
    capacity forecast [main] saves one row per month. *)
Lemma main_runs sp tp bess sc ren floor spread_ref bess_ref alpha pm coefs wind x :
  sp !! "floor" = Some (JNum floor) →
  sp !! "spread_ref" = Some (JNum spread_ref) →
  sp !! "bess_ref" = Some (JNum bess_ref) →
  sp !! "alpha" = Some (JNum alpha) →
  is_Some (sp !! "alpha_low") → is_Some (sp !! "alpha_high") →
  get sp "month_coefs" (JObj ∅) = JObj coefs →
  get tp "price_multiplier" (JNum (131 / 100)) = JNum pm →
  get tp "price_adder_mwh" (JNum 65) = JNum x →
  project_wind_generation ren (bess_date <$> bess) = inr wind →
  bess ≠ [] →
  first_stop (forecast_month_check spread_ref bess_ref alpha sc) bess = inr () →
  main sp tp bess sc ren
  = inr (forecast_month floor spread_ref bess_ref alpha pm coefs sc wind <$> bess).
Proof.
  intros Hf Hs Hb Ha [al Hal] [ah Hah] Hco Hpm Hx Hw Hne Hchk.
  unfold main, getitem. rewrite Hf, Hs, Hb, Ha, Hal, Hah. cbn.
  rewrite Hpm, Hx, Hco. cbn.
  replace (match bess with [] => raise IndexError | _ :: _ => mret () end)
    with (inr () : result ()) by (destruct bess; [congruence | reflexivity]).
  cbn. rewrite Hw. cbn. rewrite Hchk. reflexivity.
Qed.

End ComposerFacts.

Section ComposerRows.

Import PowerLaw Seasonal Composer.

(** Without seasonal coefficients every month has factor 1. *)
Lemma seasonal_adjustment_empty (m : Z) (spread_ref : R) :
  seasonal_adjustment m ∅ spread_ref = 1.
Proof.
  unfold seasonal_adjustment. rewrite months_2_to_12.
  cbn [fmap list_fmap]. rewrite !lookup_empty.
  cbv [default from_option mean Rsum foldr]. unfold Rdiv. ring.
Qed.

Lemma clamp0_nonneg (x : R) : 0 <= x → clamp0 x = x.
Proof. intros H. unfold clamp0. apply Rmax_left. exact H. Qed.

(** [main] reads neither the spread multiplier nor the spread intercept
    of the pass-through file. *)
Lemma main_ignores_spread_fit sp tp bess sc ren (v w : json) :
  main sp (<["spread_multiplier" := v]> (<["spread_intercept" := w]> tp))
       bess sc ren
  = main sp tp bess sc ren.
Proof.
  unfold main, get. rewrite !lookup_insert_ne by done. reflexivity.
Qed.

(** The run on the first sample: one row, wholesale spread 100, tariff
    spread 300. *)
Lemma sample_run :
  main Samples.spread_params Samples.tariff_params Samples.bess_at_ref None None
  = inr (forecast_month 10 100 5 (1 / 2) 3 ∅ None
           [ {| wind_date := Samples.jan_2026; wind_gen_gw := 68 / 10 |} ]
         <$> Samples.bess_at_ref).
Proof.
  apply (main_runs _ _ _ _ _ 10 100 5 (1 / 2) 3 ∅ _ 60); try reflexivity.
  - eexists; reflexivity.
  - eexists; reflexivity.
  - discriminate.
  - apply first_stop_pos; [lra | lra | | discriminate].
    intros b ->%list_elem_of_singleton. cbn. lra.
Qed.

Lemma sample_wholesale (r : forecast_row) :
  r ∈ forecast_month 10 100 5 (1 / 2) 3 ∅ None
        [ {| wind_date := Samples.jan_2026; wind_gen_gw := 68 / 10 |} ]
      <$> Samples.bess_at_ref →
  wholesale_spread_mwh r = 100 ∧ agile_spread_mwh r = 300.
Proof.
  unfold Samples.bess_at_ref. cbn [fmap list_fmap].
  intros ->%list_elem_of_singleton.
  cbn [forecast_month wholesale_spread_mwh agile_spread_mwh
       bess_date bess_capacity_gw].
  rewrite seasonal_adjustment_empty, power_law_at_ref by lra.
  rewrite Rmult_1_r, clamp0_nonneg by lra. split; lra.
Qed.

End ComposerRows.

(** C6, as the code has it.  For every forecast month the saved row
    holds the seasonally adjusted power-law spread clamped at zero; the
    tariff spread is that value times the price multiplier of the
    pass-through file (1.31 when the file has none), with no intercept;
    the p/kWh value is the tariff spread divided by 10; the spread
    multiplier and the spread intercept of the file are not read. *)
Theorem tariff_step_uses_price_multiplier
    (sp tp : gmap string json) (bess : list Composer.bess_row)
    (sc : option (list Composer.scenario_row))
    (ren : option (list Composer.renewable_row))
    (rows : list Composer.forecast_row) :
  Composer.main sp tp bess sc ren = inr rows →
  Composer.row_date <$> rows = Composer.bess_date <$> bess
  ∧ (∃ floor spread_ref bess_ref alpha pm coefs,
       sp !! "floor" = Some (JNum floor)
       ∧ sp !! "spread_ref" = Some (JNum spread_ref)
       ∧ sp !! "bess_ref" = Some (JNum bess_ref)
       ∧ sp !! "alpha" = Some (JNum alpha)
       ∧ get sp "month_coefs" (JObj ∅) = JObj coefs
       ∧ get tp "price_multiplier" (JNum (131 / 100)) = JNum pm
       ∧ ∀ r, r ∈ rows →
           Composer.wholesale_spread_mwh r
           = Composer.clamp0
               (PowerLaw.power_law_spread (Composer.bess_gw r)
                  floor spread_ref bess_ref alpha
                * Seasonal.seasonal_adjustment (month (Composer.row_date r))
                    coefs spread_ref)
           ∧ Composer.agile_spread_mwh r = pm * Composer.wholesale_spread_mwh r
           ∧ Composer.agile_spread_p_kwh r = Composer.agile_spread_mwh r / 10)
  ∧ (∀ v w : json,
       Composer.main sp (<["spread_multiplier" := v]> (<["spread_intercept" := w]> tp))
                     bess sc ren
       = inr rows).
Proof.
  intros H.
  pose proof (main_inr _ _ _ _ _ _ H)
    as (fl & sr & br & a & pm & coefs & wind
        & Hf & Hs & Hb & Ha & _ & _ & Hco & Hpm & _ & _ & ->).
  split; [| split].
  - rewrite <- list_fmap_compose. reflexivity.
  - exists fl, sr, br, a, pm, coefs. repeat (split; [assumption |]).
    intros r (b & -> & _)%list_elem_of_fmap. repeat split.
  - intros v w. rewrite main_ignores_spread_fit. exact H.
Qed.

Lemma tariff_step_uses_price_multiplier_witness :
  ∃ rows,
    Composer.main Samples.spread_params Samples.tariff_params
                  Samples.bess_at_ref None None = inr rows
    ∧ Composer.row_date <$> rows = Composer.bess_date <$> Samples.bess_at_ref
    ∧ ∀ v w : json,
        Composer.main Samples.spread_params
          (<["spread_multiplier" := v]> (<["spread_intercept" := w]> Samples.tariff_params))
          Samples.bess_at_ref None None
        = inr rows.
Proof.
  eexists. split; [exact sample_run |].
  destruct (tariff_step_uses_price_multiplier _ _ _ _ _ _ sample_run)
    as (Hd & _ & Hi).
  split; [exact Hd | exact Hi].
Defined.

(** C6 as stated fails: with a fitted spread multiplier 2 and spread
    intercept 5 (and price multiplier 3) a wholesale spread of 100 gives
    the tariff spread 300, not 2 * 100 + 5. *)
Lemma tariff_step_is_not_the_spread_fit :
  Samples.tariff_params !! "spread_multiplier" = Some (JNum 2)
  ∧ Samples.tariff_params !! "spread_intercept" = Some (JNum 5)
  ∧ ∃ r,
      Composer.main Samples.spread_params Samples.tariff_params
                    Samples.bess_at_ref None None = inr [r]
      ∧ Composer.wholesale_spread_mwh r = 100
      ∧ Composer.agile_spread_mwh r = 300
      ∧ Composer.agile_spread_mwh r ≠ 2 * Composer.wholesale_spread_mwh r + 5.
Proof.
  split; [reflexivity |]. split; [reflexivity |].
  eexists. split; [exact sample_run |].
  match goal with
  | |- Composer.wholesale_spread_mwh ?r = _ ∧ _ =>
      destruct (sample_wholesale r) as [Hw Ha]
  end.
  { apply list_elem_of_singleton. reflexivity. }
  rewrite Hw, Ha. repeat split; lra.
Qed.

Section ForecastTable.

Import PowerLaw Seasonal Composer.

(** The columns of five_year_forecast.csv. *)
Lemma row_columns (r : forecast_row) :
  (row_items r).*1
  = [ "date"; "bess_gw"; "wind_gen_gw"; "wholesale_spread_mwh";
      "agile_spread_mwh"; "agile_spread_p_kwh";
      "spread_leading_the_way"; "spread_falling_short" ].
Proof. reflexivity. Qed.

Lemma Rpower_quarter_half : Rpower (1 / 4) (/ 2) = 1 / 2.
Proof.
  rewrite Rpower_sqrt by lra. apply sqrt_lem_1; lra.
Qed.

Lemma Rpower_quarter_one : Rpower (1 / 4) 1 = 1 / 4.
Proof. apply Rpower_1. lra. Qed.

Lemma Rpower_quarter_two : Rpower (1 / 4) 2 = 1 / 16.
Proof.
  replace 2 with (1 + 1) by lra.
  rewrite Rpower_plus, Rpower_quarter_one. lra.
Qed.

(** The run on the second sample. *)
Lemma unit_run :
  main Samples.unit_params ∅ Samples.bess_at_4 None None
  = inr (forecast_month 0 1 1 1 (131 / 100) ∅ None
           [ {| wind_date := Samples.jan_2026; wind_gen_gw := 68 / 10 |} ]
         <$> Samples.bess_at_4).
Proof.
  apply (main_runs _ _ _ _ _ 0 1 1 1 (131 / 100) ∅ _ 65); try reflexivity.
  - eexists; reflexivity.
  - eexists; reflexivity.
  - discriminate.
  - apply first_stop_pos; [lra | lra | | discriminate].
    intros b ->%list_elem_of_singleton. cbn. lra.
Qed.

(** The cells of its only row. *)
Lemma unit_row_items :
  row_items
    (forecast_month 0 1 1 1 (131 / 100) ∅ None
       [ {| wind_date := Samples.jan_2026; wind_gen_gw := 68 / 10 |} ]
       {| bess_date := Samples.jan_2026; bess_capacity_gw := 4 |})
  = [ ("date", CDate Samples.jan_2026);
      ("bess_gw", CNum 4);
      ("wind_gen_gw", CNum (68 / 10));
      ("wholesale_spread_mwh", CNum (1 / 4));
      ("agile_spread_mwh", CNum (131 / 100 * (1 / 4)));
      ("agile_spread_p_kwh", CNum (131 / 100 * (1 / 4) / 10));
      ("spread_leading_the_way", CNone);
      ("spread_falling_short", CNone) ].
Proof.
  assert (Hws : clamp0 (power_law_spread 4 0 1 1 1
                        * seasonal_adjustment 1 ∅ 1) = 1 / 4).
  { rewrite seasonal_adjustment_empty, power_law_spread_pos by lra.
    rewrite Rpower_quarter_one. rewrite clamp0_nonneg by lra. lra. }
  unfold row_items, forecast_month.
  cbn [row_date bess_gw row_wind_gen_gw wholesale_spread_mwh agile_spread_mwh
       agile_spread_p_kwh spread_leading_the_way spread_falling_short
       bess_date bess_capacity_gw Samples.jan_2026 month].
  rewrite Hws. reflexivity.
Qed.

(** The two curves of the elasticity chart over that row. *)
Lemma unit_bands (r : forecast_row) :
  bess_gw r = 4 →
  alpha_band [r] 0 1 1 (/ 2) ∅ = [1 / 2] ∧ alpha_band [r] 0 1 1 2 ∅ = [1 / 16].
Proof.
  intros Hb. unfold alpha_band. cbn [fmap list_fmap].
  rewrite Hb, seasonal_adjustment_empty, !power_law_spread_pos by lra.
  rewrite Rpower_quarter_half, Rpower_quarter_two.
  rewrite !clamp0_nonneg by lra. split; f_equal; lra.
Qed.

End ForecastTable.

(** C7, as the code has it.  The saved table has one row per forecast
    month and exactly the columns date, bess_gw, wind_gen_gw,
    wholesale_spread_mwh, agile_spread_mwh, agile_spread_p_kwh,
    spread_leading_the_way and spread_falling_short: the base-case
    wholesale spread, the tariff spread in two units (the second is the
    first divided by 10), and the two scenario spreads, each the clamped,
    seasonally adjusted power law at that scenario's capacity for the
    date, or empty when the scenario has no row for it. *)
Theorem forecast_table_columns
    (sp tp : gmap string json) (bess : list Composer.bess_row)
    (sc : option (list Composer.scenario_row))
    (ren : option (list Composer.renewable_row))
    (rows : list Composer.forecast_row) :
  Composer.main sp tp bess sc ren = inr rows →
  length rows = length bess
  ∧ ∃ floor spread_ref bess_ref alpha coefs,
      sp !! "floor" = Some (JNum floor)
      ∧ sp !! "spread_ref" = Some (JNum spread_ref)
      ∧ sp !! "bess_ref" = Some (JNum bess_ref)
      ∧ sp !! "alpha" = Some (JNum alpha)
      ∧ get sp "month_coefs" (JObj ∅) = JObj coefs
      ∧ ∀ r, r ∈ rows →
          (Composer.row_items r).*1
          = [ "date"; "bess_gw"; "wind_gen_gw"; "wholesale_spread_mwh";
              "agile_spread_mwh"; "agile_spread_p_kwh";
              "spread_leading_the_way"; "spread_falling_short" ]
          ∧ Composer.agile_spread_p_kwh r = Composer.agile_spread_mwh r / 10
          ∧ Composer.spread_leading_the_way r
            = Composer.scenario_spread sc "leading_the_way" (Composer.row_date r)
                floor spread_ref bess_ref alpha
                (Seasonal.seasonal_adjustment (month (Composer.row_date r))
                   coefs spread_ref)
          ∧ Composer.spread_falling_short r
            = Composer.scenario_spread sc "falling_short" (Composer.row_date r)
                floor spread_ref bess_ref alpha
                (Seasonal.seasonal_adjustment (month (Composer.row_date r))
                   coefs spread_ref).
Proof.
  intros H.
  pose proof (main_inr _ _ _ _ _ _ H)
    as (fl & sr & br & a & pm & coefs & wind
        & Hf & Hs & Hb & Ha & _ & _ & Hco & _ & _ & _ & ->).
  split; [apply length_fmap |].
  exists fl, sr, br, a, coefs. repeat (split; [assumption |]).
  intros r (b & -> & _)%list_elem_of_fmap.
  split; [apply row_columns |]. repeat split.
Qed.

Lemma forecast_table_columns_witness :
  ∃ rows,
    Composer.main Samples.unit_params ∅ Samples.bess_at_4 None None = inr rows
    ∧ length rows = length Samples.bess_at_4.
Proof.
  eexists. split; [exact unit_run |].
  exact (proj1 (forecast_table_columns _ _ _ _ _ _ unit_run)).
Defined.

(** C7 as stated fails: the saved row has no elasticity-band value.  On
    the second sample (elasticities 1/2, 1, 2; capacity four times the
    reference) the chart curves for alpha_low and alpha_high are 1/2 and
    1/16, and no cell of the saved row holds either. *)
Lemma forecast_row_lacks_elasticity_band :
  Samples.unit_params !! "alpha_low" = Some (JNum (/ 2))
  ∧ Samples.unit_params !! "alpha_high" = Some (JNum 2)
  ∧ ∃ r,
      Composer.main Samples.unit_params ∅ Samples.bess_at_4 None None = inr [r]
      ∧ Composer.alpha_band [r] 0 1 1 (/ 2) ∅ = [1 / 2]
      ∧ Composer.alpha_band [r] 0 1 1 2 ∅ = [1 / 16]
      ∧ (∀ k, (k, Composer.CNum (1 / 2)) ∉ Composer.row_items r)
      ∧ (∀ k, (k, Composer.CNum (1 / 16)) ∉ Composer.row_items r).
Proof.
  split; [reflexivity |]. split; [reflexivity |].
  eexists. split; [exact unit_run |].
  split; [apply unit_bands; reflexivity |].
  split; [apply unit_bands; reflexivity |].
  rewrite unit_row_items.
  split; intros k Hin;
    rewrite !elem_of_cons, elem_of_nil in Hin;
    repeat destruct Hin as [Heq | Hin]; try exact Hin;
    try discriminate Heq; injection Heq as _ Hx; lra.
Qed.

Section RequiredKeys.

Import Composer.

(** A calibration file without one of the subscripted keys stops [main]
    at the first missing one. *)
Lemma main_missing_key sp tp bess sc ren (key : string) :
  key ∈ ["floor"; "spread_ref"; "bess_ref"; "alpha"; "alpha_low"; "alpha_high"] →
  sp !! key = None →
  ∃ k, sp !! k = None ∧ main sp tp bess sc ren = inl (KeyError k).
Proof.
  intros Hin Hkey. unfold main, getitem.
  destruct (sp !! "floor") eqn:H1; [| exists "floor"; split; [exact H1 | reflexivity]].
  destruct (sp !! "spread_ref") eqn:H2;
    [| exists "spread_ref"; split; [exact H2 | reflexivity]].
  destruct (sp !! "bess_ref") eqn:H3;
    [| exists "bess_ref"; split; [exact H3 | reflexivity]].
  destruct (sp !! "alpha") eqn:H4;
    [| exists "alpha"; split; [exact H4 | reflexivity]].
  destruct (sp !! "alpha_low") eqn:H5;
    [| exists "alpha_low"; split; [exact H5 | reflexivity]].
  destruct (sp !! "alpha_high") eqn:H6;
    [| exists "alpha_high"; split; [exact H6 | reflexivity]].
  exfalso.
  rewrite !elem_of_cons, elem_of_nil in Hin.
  repeat destruct Hin as [-> | Hin]; try exact Hin; congruence.
Qed.

End RequiredKeys.

(** C10.  With a calibration file that carries its core parameters (and
    inputs that let the run through: a non-empty capacity forecast,
    positive capacities, a positive reference capacity, a reference
    spread other than zero), a pass-through file without
    price_multiplier does not stop the Composer: the rows are computed
    with 1.31; a calibration file without month_coefs is read as having
    no seasonal coefficients.  A calibration file without floor,
    spread_ref, bess_ref or alpha stops the Composer with a KeyError, so
    no row is produced. *)
Theorem composer_defaults_and_required_keys
    (sp tp : gmap string json) (bess : list Composer.bess_row)
    (sc : option (list Composer.scenario_row))
    (ren : option (list Composer.renewable_row))
    (floor spread_ref bess_ref alpha x : R) (wind : list Composer.wind_row) :
  sp !! "floor" = Some (JNum floor) →
  sp !! "spread_ref" = Some (JNum spread_ref) →
  sp !! "bess_ref" = Some (JNum bess_ref) →
  sp !! "alpha" = Some (JNum alpha) →
  is_Some (sp !! "alpha_low") → is_Some (sp !! "alpha_high") →
  get tp "price_adder_mwh" (JNum 65) = JNum x →
  Composer.project_wind_generation ren (Composer.bess_date <$> bess) = inr wind →
  bess ≠ [] →
  spread_ref ≠ 0 → 0 < bess_ref →
  (∀ b, b ∈ bess → 0 < Composer.bess_capacity_gw b) →
  (∀ rows s, sc = Some rows → s ∈ rows → 0 < Composer.scenario_capacity_gw s) →
  (tp !! "price_multiplier" = None →
   ∀ coefs, get sp "month_coefs" (JObj ∅) = JObj coefs →
     Composer.main sp tp bess sc ren
     = inr (Composer.forecast_month floor spread_ref bess_ref alpha (131 / 100)
              coefs sc wind <$> bess))
  ∧ (sp !! "month_coefs" = None →
     ∀ pm, get tp "price_multiplier" (JNum (131 / 100)) = JNum pm →
       Composer.main sp tp bess sc ren
       = inr (Composer.forecast_month floor spread_ref bess_ref alpha pm
                ∅ sc wind <$> bess))
  ∧ (∀ key, key ∈ ["floor"; "spread_ref"; "bess_ref"; "alpha"] →
     ∀ sp' tp' bess' sc' ren',
       sp' !! key = None →
       ∃ k, sp' !! k = None
            ∧ Composer.main sp' tp' bess' sc' ren' = inl (KeyError k)).
Proof.
  intros Hf Hs Hb Ha Hal Hah Hx Hw Hne Hsr Hbr Hcap Hscen.
  pose proof (first_stop_pos spread_ref bess_ref alpha sc bess Hsr Hbr Hcap Hscen)
    as Hchk.
  split; [| split].
  - intros Hpm coefs Hco.
    apply (main_runs _ _ _ _ _ _ _ _ _ _ _ _ x); try assumption.
    unfold get. rewrite Hpm. reflexivity.
  - intros Hmc pm Hpm.
    apply (main_runs _ _ _ _ _ _ _ _ _ _ _ _ x); try assumption.
    unfold get. rewrite Hmc. reflexivity.
  - intros key Hin sp' tp' bess' sc' ren' Hkey.
    apply main_missing_key with (key := key); [| exact Hkey].
    rewrite !elem_of_cons, elem_of_nil in Hin.
    rewrite !elem_of_cons. tauto.
Qed.

Lemma composer_defaults_and_required_keys_witness :
  (∅ : gmap string json) !! "price_multiplier" = None
  ∧ Samples.spread_params !! "month_coefs" = None
  ∧ Composer.main Samples.spread_params ∅ Samples.bess_at_ref None None
    = inr (Composer.forecast_month 10 100 5 (1 / 2) (131 / 100) ∅ None
             [ {| Composer.wind_date := Samples.jan_2026;
                  Composer.wind_gen_gw := 68 / 10 |} ]
           <$> Samples.bess_at_ref)
  ∧ ∃ k, Composer.main (delete "alpha" Samples.spread_params) ∅
           Samples.bess_at_ref None None = inl (KeyError k).
Proof.
  destruct (composer_defaults_and_required_keys
              Samples.spread_params ∅ Samples.bess_at_ref None None
              10 100 5 (1 / 2) 65
              [ {| Composer.wind_date := Samples.jan_2026;
                   Composer.wind_gen_gw := 68 / 10 |} ])
    as (H1 & _ & H3); try reflexivity.
  - eexists; reflexivity.
  - eexists; reflexivity.
  - discriminate.
  - lra.
  - lra.
  - intros b ->%list_elem_of_singleton. cbn. lra.
  - discriminate.
  - split; [reflexivity |]. split; [reflexivity |]. split.
    + apply H1; reflexivity.
    + destruct (H3 "alpha") with (sp' := delete "alpha" Samples.spread_params)
        (tp' := (∅ : gmap string json)) (bess' := Samples.bess_at_ref)
        (sc' := @None (list Composer.scenario_row))
        (ren' := @None (list Composer.renewable_row)) as (k & _ & Hk).
      * rewrite !elem_of_cons. tauto.
      * apply lookup_delete_eq.
      * exists k. exact Hk.
Defined.

(** ** The tariff pass-through model *)

Section TariffFacts.

Import Tariff.

Variable ols : list (R * R) → result fit.

Lemma degraded_lookups (n : nat) :
  degraded_params n !! "spread_multiplier" = Some (JNum 1)
  ∧ degraded_params n !! "spread_intercept" = Some (JNum 0)
  ∧ degraded_params n !! "price_multiplier" = Some (JNum 1)
  ∧ degraded_params n !! "price_adder_mwh" = Some (JNum 0)
  ∧ degraded_params n !! "note" = Some (JStr degraded_note).
Proof. repeat split. Qed.

Lemma fitted_has_no_note (model model2 : fit) (n : nat) :
  fitted_params model model2 n !! "note" = None.
Proof. reflexivity. Qed.

Lemma fit_ols_inr (data : list (R * R)) (model : fit) :
  fit_ols ols data = inr model → data ≠ [] ∧ ols data = inr model.
Proof.
  unfold fit_ols. destruct data as [| p data]; [discriminate |].
  intros H. split; [discriminate | exact H].
Qed.

(** With an Elexon file the written dict is a fitted one, and the
    overlap is not empty. *)
Lemma main_with_elexon agile rows q :
  main ols agile (Some rows) = inr q →
  ∃ model model2,
    merge_inner agile rows ≠ []
    ∧ ols ((λ r, (m_wholesale_spread r, m_spread_max_min r)) <$> merge_inner agile rows)
      = inr model
    ∧ ols ((λ r, (m_wholesale_mean r, m_price_mean r)) <$> merge_inner agile rows)
      = inr model2
    ∧ q = fitted_params model model2 (length (merge_inner agile rows)).
Proof.
  unfold main. intros H.
  apply bind_inr in H as (model & Hm & H).
  apply bind_inr in H as (model2 & Hm2 & H).
  apply fit_ols_inr in Hm as [Hne Hm]. apply fit_ols_inr in Hm2 as [_ Hm2].
  injection H as <-. exists model, model2.
  split; [| auto].
  intros Hnil. apply Hne. rewrite Hnil. reflexivity.
Qed.

(** The Composer on the degraded file: tariff spread = wholesale spread. *)
Lemma composer_on_degraded n sp bess sc ren rows r :
  Composer.main sp (degraded_params n) bess sc ren = inr rows →
  r ∈ rows →
  Composer.agile_spread_mwh r = Composer.wholesale_spread_mwh r.
Proof.
  intros H Hr.
  pose proof (main_inr _ _ _ _ _ _ H)
    as (fl & sr & br & a & pm & coefs & wind
        & _ & _ & _ & _ & _ & _ & _ & Hpm & _ & _ & ->).
  assert (pm = 1) as ->.
  { unfold get in Hpm.
    rewrite (proj1 (proj2 (proj2 (degraded_lookups n)))) in Hpm.
    cbv [default from_option Datatypes.id] in Hpm. congruence. }
  apply list_elem_of_fmap in Hr as (b & -> & _).
  cbn [Composer.forecast_month Composer.agile_spread_mwh
       Composer.wholesale_spread_mwh]. ring.
Qed.

End TariffFacts.

(** The run without an Elexon file.  The model writes the identity
    mapping (both multipliers 1, intercept and adder 0) together with a
    note that no cross-validation was available; a file written from
    Elexon data never has that note; and the Composer run on the
    degraded file gives a tariff spread equal to the wholesale spread in
    every row. *)
Lemma degraded_pass_through
    (ols : list (R * R) → result Tariff.fit) (agile : list Tariff.agile_row) :
  ∃ p,
    Tariff.main ols agile None = inr p
    ∧ p !! "spread_multiplier" = Some (JNum 1)
    ∧ p !! "spread_intercept" = Some (JNum 0)
    ∧ p !! "price_multiplier" = Some (JNum 1)
    ∧ p !! "price_adder_mwh" = Some (JNum 0)
    ∧ p !! "note" = Some (JStr Tariff.degraded_note)
    ∧ (∀ elexon q, Tariff.main ols agile (Some elexon) = inr q → q !! "note" = None)
    ∧ (∀ sp bess sc ren rows r,
         Composer.main sp p bess sc ren = inr rows → r ∈ rows →
         Composer.agile_spread_mwh r = Composer.wholesale_spread_mwh r).
Proof.
  exists (Tariff.degraded_params (length agile)).
  split; [reflexivity |].
  destruct (degraded_lookups (length agile)) as (H1 & H2 & H3 & H4 & H5).
  repeat (split; [assumption |]). split.
  - intros elexon q Hq.
    apply main_with_elexon in Hq as (model & model2 & _ & _ & _ & ->).
    apply fitted_has_no_note.
  - intros sp bess sc ren rows r. apply composer_on_degraded.
Qed.

(** C8: the run with an Elexon file that shares no complete day with the
    tariff-derived series.  The branch taken is the fitting one; the
    regression is asked to fit no observation and raises, so no
    parameter file is written: neither the identity mapping nor a note. *)
Theorem elexon_without_overlap_stops
    (ols : list (R * R) → result Tariff.fit)
    (agile : list Tariff.agile_row) (elexon : list Tariff.elexon_row) :
  Tariff.merge_inner agile elexon = [] →
  Tariff.main ols agile (Some elexon) = inl ValueError.
Proof.
  intros Hnil. unfold Tariff.main. rewrite Hnil. reflexivity.
Qed.

Lemma elexon_without_overlap_stops_witness :
  Tariff.merge_inner Samples.agile_day Samples.elexon_day = []
  ∧ Tariff.main Samples.no_fit Samples.agile_day (Some Samples.elexon_day)
    = inl ValueError
  ∧ ∃ p, Tariff.main Samples.no_fit Samples.agile_day None = inr p
         ∧ p !! "note" = Some (JStr Tariff.degraded_note).
Proof.
  split; [reflexivity |]. split.
  - apply (elexon_without_overlap_stops Samples.no_fit). reflexivity.
  - eexists. split; reflexivity.
Defined.

(** ** The dataset merger *)

Section MergerFacts.

Import Merger.

Lemma zip_with_image {A B} (f : A → B) (l : list A) :
  zip l (f <$> l) = (λ x, (x, f x)) <$> l.
Proof. induction l as [| x l IH]; [reflexivity |]. cbn. now rewrite IH. Qed.

Lemma bind_pairs {A B C} (f : A → B) (g : A → B → list C) (l : list A) :
  ((λ x, (x, f x)) <$> l) ≫= (λ p, g p.1 p.2) = l ≫= (λ x, g x (f x)).
Proof. induction l as [| x l IH]; [reflexivity |]. cbn. now rewrite IH. Qed.

(** A value read off a lookup series is one of its entries. *)
Lemma series_at_Some s k c : series_at s k = Some c → (k, Some c) ∈ s.
Proof.
  unfold series_at. induction s as [| [k' v] s IH]; [discriminate |].
  rewrite filter_cons. cbn [fst]. destruct (decide (k' = k)) as [-> | Hne].
  - cbn. intros ->. apply list_elem_of_here.
  - intros H. apply list_elem_of_further. apply IH. exact H.
Qed.

(** With distinct labels, an entry of the series is the value read. *)
Lemma series_at_unique s k v :
  NoDup s.*1 → (k, v) ∈ s → series_at s k = v.
Proof.
  unfold series_at. induction s as [| [k' v'] s IH]; intros Hnd Hin.
  - inversion Hin.
  - rewrite fmap_cons in Hnd. apply NoDup_cons in Hnd as [Hk' Hnd].
    rewrite filter_cons. cbn [fst].
    apply elem_of_cons in Hin as [Heq | Hin].
    + injection Heq as -> ->. rewrite decide_True by reflexivity. reflexivity.
    + destruct (decide (k' = k)) as [-> | Hne].
      * exfalso. apply Hk'. apply list_elem_of_fmap.
        exists (k, v). split; [reflexivity | exact Hin].
      * apply IH; assumption.
Qed.

(** The historic entries of the capacity file, as the lookup has them. *)
Lemma elem_of_bess_lookup bess k v :
  (k, v) ∈ bess_lookup bess ↔
  ∃ b, b ∈ bess ∧ source b = "historic"
       ∧ year_month (capacity_date b) = k ∧ capacity_gw b = v.
Proof.
  unfold bess_lookup. rewrite list_elem_of_fmap. split.
  - intros (b & Heq & Hb). apply list_elem_of_filter in Hb as [Hs Hb].
    injection Heq as -> ->. eauto.
  - intros (b & Hb & Hs & <- & <-). exists b. split; [reflexivity |].
    apply list_elem_of_filter. split; assumption.
Qed.

(** The rows a daily row contributes: at least one, each with the daily
    row's date, spread and price and with the capacity handed in. *)
Lemma merge_left_row_spec gen d c r :
  r ∈ merge_left_row gen d c →
  panel_date r = daily_date d ∧ panel_spread r = daily_spread d
  ∧ panel_price r = daily_price d ∧ panel_bess_gw r = c.
Proof.
  unfold merge_left_row.
  destruct (filter _ gen) as [| g gs].
  - intros ->%list_elem_of_singleton. repeat split.
  - intros (x & -> & _)%list_elem_of_fmap. repeat split.
Qed.

Lemma merge_left_row_inhabited gen d c : ∃ r, r ∈ merge_left_row gen d c.
Proof.
  unfold merge_left_row.
  destruct (filter _ gen) as [| g gs]; eexists; apply list_elem_of_here.
Qed.

(** The panel when both files have rows and the lookup labels are
    distinct. *)
Lemma load_and_merge_runs elexon agile bess gen :
  bess ≠ [] → (choose_spread elexon agile).1.1 ≠ [] →
  NoDup (bess_lookup bess).*1 →
  load_and_merge elexon agile bess gen
  = inr (filter (λ r, is_Some (panel_bess_gw r))
           (d ← (choose_spread elexon agile).1.1;
            merge_left_row (default [] gen) d
              (series_at (bess_lookup bess) (year_month (daily_date d)))),
         (choose_spread elexon agile).1.2, (choose_spread elexon agile).2).
Proof.
  intros Hb Hs Hnd. unfold load_and_merge, series_map.
  destruct (choose_spread elexon agile) as [[spread sc] pc].
  cbn [fst snd] in Hs.
  destruct bess as [| b0 bess0]; [congruence |].
  destruct spread as [| d0 spread0]; [congruence |].
  cbn [dt mbind result_bind mret result_ret].
  rewrite decide_True by exact Hnd. cbn [mbind result_bind mret result_ret fst snd].
  rewrite <- list_fmap_compose, zip_with_image, bind_pairs.
  reflexivity.
Qed.

Lemma load_and_merge_inr elexon agile bess gen out :
  load_and_merge elexon agile bess gen = inr out →
  bess ≠ [] ∧ (choose_spread elexon agile).1.1 ≠ []
  ∧ NoDup (bess_lookup bess).*1.
Proof.
  unfold load_and_merge, series_map.
  destruct (choose_spread elexon agile) as [[spread sc] pc].
  destruct bess as [| b0 bess0]; [discriminate |].
  destruct spread as [| d0 spread0]; [discriminate |].
  cbn [dt mbind result_bind mret result_ret].
  destruct (decide (NoDup (bess_lookup (b0 :: bess0)).*1)); [| discriminate].
  intros _. repeat split; [discriminate | discriminate | assumption].
Qed.

(** The panel of a run that returns. *)
Lemma load_and_merge_panel elexon agile bess gen out :
  load_and_merge elexon agile bess gen = inr out →
  out = (filter (λ r, is_Some (panel_bess_gw r))
           (d ← (choose_spread elexon agile).1.1;
            merge_left_row (default [] gen) d
              (series_at (bess_lookup bess) (year_month (daily_date d)))),
         (choose_spread elexon agile).1.2, (choose_spread elexon agile).2).
Proof.
  intros H. destruct (load_and_merge_inr _ _ _ _ _ H) as (Hb & Hs & Hnd).
  rewrite (load_and_merge_runs _ _ _ _ Hb Hs Hnd) in H. congruence.
Qed.

End MergerFacts.

(** C9, as the code has it.  The lookup is built from the rows of the
    monthly capacity file whose source is "historic"; when the capacity
    file and the daily file have rows and the historic months are
    distinct the merger returns a panel in which every row has a
    capacity, namely the historic capacity of the month of its date;
    every daily row whose month has a historic capacity contributes a row
    with exactly that capacity; and a daily row whose month has no
    historic capacity contributes none. *)
Theorem merger_invariant
    (elexon : option (list Merger.daily_row)) (agile : list Merger.daily_row)
    (bess : list Merger.capacity_row) (gen : option (list Merger.generation_row)) :
  bess ≠ [] → (Merger.choose_spread elexon agile).1.1 ≠ [] →
  NoDup (Merger.bess_lookup bess).*1 →
  let spread := (Merger.choose_spread elexon agile).1.1 in
  let historic (ym : Z * Z) (c : R) :=
    ∃ b, b ∈ bess ∧ Merger.source b = "historic"
         ∧ year_month (Merger.capacity_date b) = ym
         ∧ Merger.capacity_gw b = Some c in
  ∃ panel spread_col price_col,
    Merger.load_and_merge elexon agile bess gen = inr (panel, spread_col, price_col)
    ∧ (∀ r, r ∈ panel →
         ∃ c, Merger.panel_bess_gw r = Some c
              ∧ historic (year_month (Merger.panel_date r)) c)
    ∧ (∀ d c, d ∈ spread → historic (year_month (Merger.daily_date d)) c →
         ∃ r, r ∈ panel
              ∧ Merger.panel_date r = Merger.daily_date d
              ∧ Merger.panel_spread r = Merger.daily_spread d
              ∧ Merger.panel_price r = Merger.daily_price d
              ∧ Merger.panel_bess_gw r = Some c)
    ∧ (∀ d, (∀ c, ¬ historic (year_month (Merger.daily_date d)) c) →
         ∀ r, r ∈ panel → Merger.panel_date r ≠ Merger.daily_date d).
Proof.
  intros Hbne Hsne Hnd spread historic.
  assert (Hhist : ∀ ym c, historic ym c ↔ (ym, Some c) ∈ Merger.bess_lookup bess).
  { intros ym c. symmetry. apply elem_of_bess_lookup. }
  eexists _, _, _. split; [apply load_and_merge_runs; assumption |].
  assert (Hrows : ∀ r,
    r ∈ filter (λ r, is_Some (Merger.panel_bess_gw r))
          (d ← spread;
           Merger.merge_left_row (default [] gen) d
             (Merger.series_at (Merger.bess_lookup bess)
                (year_month (Merger.daily_date d)))) →
    ∃ c, Merger.panel_bess_gw r = Some c
         ∧ historic (year_month (Merger.panel_date r)) c).
  { intros r [[c Hc] Hin]%list_elem_of_filter.
    apply list_elem_of_bind in Hin as (d & Hr & _).
    apply merge_left_row_spec in Hr as (Hd & _ & _ & Hcap).
    exists c. split; [exact Hc |].
    apply Hhist. apply series_at_Some. rewrite Hd. congruence. }
  split; [exact Hrows |]. split.
  - intros d c Hd Hh.
    destruct (merge_left_row_inhabited (default [] gen) d
                (Merger.series_at (Merger.bess_lookup bess)
                   (year_month (Merger.daily_date d)))) as [r Hr].
    pose proof (merge_left_row_spec _ _ _ _ Hr) as (Hdate & Hsp & Hpr & Hcap).
    assert (Hc : Merger.panel_bess_gw r = Some c).
    { rewrite Hcap. apply series_at_unique; [exact Hnd | apply Hhist; exact Hh]. }
    exists r. repeat split; try assumption.
    apply list_elem_of_filter. split; [rewrite Hc; eauto |].
    apply list_elem_of_bind. exists d. split; assumption.
  - intros d Hno r Hr Hdate.
    destruct (Hrows r Hr) as (c & _ & Hh).
    rewrite Hdate in Hh. exact (Hno c Hh).
Qed.

Lemma merger_invariant_witness :
  Samples.historic_jan ≠ []
  ∧ NoDup (Merger.bess_lookup Samples.historic_jan).*1
  ∧ ∃ panel spread_col price_col,
      Merger.load_and_merge None Samples.daily_jan Samples.historic_jan None
      = inr (panel, spread_col, price_col)
      ∧ ∀ r, r ∈ panel → ∃ c, Merger.panel_bess_gw r = Some c.
Proof.
  assert (Hnd : NoDup (Merger.bess_lookup Samples.historic_jan).*1).
  { apply NoDup_singleton. }
  split; [discriminate |]. split; [exact Hnd |].
  destruct (merger_invariant None Samples.daily_jan Samples.historic_jan None
              ltac:(discriminate) ltac:(discriminate) Hnd)
    as (panel & sc & pc & Hrun & Hall & _).
  exists panel, sc, pc. split; [exact Hrun |].
  intros r Hr. destruct (Hall r Hr) as (c & Hc & _). exists c. exact Hc.
Defined.

(** C9 as stated fails for a month whose capacity value in the monthly
    file is a projected one: the daily row of 15 January 2026 is dropped
    although the file has the value 7 for January 2026, because that row
    of the file is tagged fes_system_transformation, not historic. *)
Lemma projected_month_is_dropped :
  (∃ d b, d ∈ Samples.daily_jan ∧ b ∈ Samples.projected_jan
          ∧ year_month (Merger.capacity_date b) = year_month (Merger.daily_date d)
          ∧ Merger.capacity_gw b = Some 7)
  ∧ Merger.load_and_merge None Samples.daily_jan Samples.projected_jan None
    = inr ([], "spread_max_min", "price_mean").
Proof.
  split.
  - eexists _, _. split; [apply list_elem_of_here |].
    split; [apply list_elem_of_here |]. split; reflexivity.
  - rewrite load_and_merge_runs; [reflexivity | discriminate | discriminate |].
    apply NoDup_nil_2.
Qed.

(** * Further properties of the scripts *)

(** ** The forecast rows *)

Section ForecastRows.

Import PowerLaw Seasonal Composer.

(** More capacity never gives a larger power-law spread. *)
Lemma power_law_antitone_capacity (fl sref bref a c1 c2 : R) :
  0 <= a → 0 < bref → fl <= sref → 0 < c1 → c1 <= c2 →
  power_law_spread c2 fl sref bref a <= power_law_spread c1 fl sref bref a.
Proof.
  intros Ha Hb Hs H1 H12.
  assert (Hr : 0 < bref / c2 <= bref / c1).
  { split; [apply Rdiv_lt_0_compat; lra |].
    unfold Rdiv. apply Rmult_le_compat_l; [lra |].
    apply Rinv_le_contravar; lra. }
  rewrite !power_law_spread_pos by lra.
  pose proof (Rle_Rpower_l _ _ a Ha Hr) as Hp. nra.
Qed.

Lemma power_law_ge_floor (fl sref bref a c : R) :
  0 < bref → 0 < c → fl <= sref → fl <= power_law_spread c fl sref bref a.
Proof.
  intros Hb Hc Hs.
  rewrite power_law_spread_pos by (apply Rdiv_lt_0_compat; lra).
  pose proof (Rpower_pos (bref / c) a). nra.
Qed.

Lemma clamp0_nonneg_result (x : R) : 0 <= clamp0 x.
Proof. unfold clamp0. apply Rmax_r. Qed.

(** Clamped products with a common factor keep the order of the
    non-negative levels. *)
Lemma clamp0_scaled_mono (x y m : R) :
  0 <= x → x <= y → clamp0 (x * m) <= clamp0 (y * m).
Proof.
  intros Hx Hxy. unfold clamp0.
  destruct (Rle_dec 0 m) as [Hm | Hm].
  - apply Rle_max_compat_r. nra.
  - rewrite !Rmax_right by nra. lra.
Qed.

(** The parameters a successful run has read are those of the file. *)
Lemma main_rows_of sp tp bess sc ren rows fl sr br a :
  main sp tp bess sc ren = inr rows →
  sp !! "floor" = Some (JNum fl) → sp !! "spread_ref" = Some (JNum sr) →
  sp !! "bess_ref" = Some (JNum br) → sp !! "alpha" = Some (JNum a) →
  ∃ pm coefs wind,
    get sp "month_coefs" (JObj ∅) = JObj coefs
    ∧ get tp "price_multiplier" (JNum (131 / 100)) = JNum pm
    ∧ project_wind_generation ren (bess_date <$> bess) = inr wind
    ∧ rows = forecast_month fl sr br a pm coefs sc wind <$> bess.
Proof.
  intros H Hf Hs Hb Ha.
  pose proof (main_inr _ _ _ _ _ _ H)
    as (fl' & sr' & br' & a' & pm & coefs & wind
        & Hf' & Hs' & Hb' & Ha' & _ & _ & Hco & Hpm & Hw & _ & ->).
  assert (fl' = fl) as -> by congruence.
  assert (sr' = sr) as -> by congruence.
  assert (br' = br) as -> by congruence.
  assert (a' = a) as -> by congruence.
  exists pm, coefs, wind. auto.
Qed.

End ForecastRows.

(** X1. Scenario fan: in a saved row, when the falling-short capacity is
    at most the base-case capacity and the leading-the-way capacity at
    least that, the leading-the-way spread is at most the base-case
    wholesale spread, which is at most the falling-short spread. *)
Theorem scenario_fan_ordering
    (sp tp : gmap string json) (bess : list Composer.bess_row)
    (sc : list Composer.scenario_row)
    (ren : option (list Composer.renewable_row))
    (rows : list Composer.forecast_row) (fl sr br a : R) :
  Composer.main sp tp bess (Some sc) ren = inr rows →
  sp !! "floor" = Some (JNum fl) → sp !! "spread_ref" = Some (JNum sr) →
  sp !! "bess_ref" = Some (JNum br) → sp !! "alpha" = Some (JNum a) →
  0 <= fl → fl <= sr → 0 < br → 0 <= a →
  ∀ r c_lw c_fs,
    r ∈ rows →
    Composer.scenario_capacity sc "leading_the_way" (Composer.row_date r) = Some c_lw →
    Composer.scenario_capacity sc "falling_short" (Composer.row_date r) = Some c_fs →
    0 < c_fs → c_fs <= Composer.bess_gw r → Composer.bess_gw r <= c_lw →
    ∃ lw fs,
      Composer.spread_leading_the_way r = Some lw
      ∧ Composer.spread_falling_short r = Some fs
      ∧ lw <= Composer.wholesale_spread_mwh r
      ∧ Composer.wholesale_spread_mwh r <= fs.
Proof.
  intros H Hf Hs Hb Ha Hfl Hsr Hbr Hal r c_lw c_fs Hr Hlw Hfs Hpos Hle1 Hle2.
  destruct (main_rows_of _ _ _ _ _ _ _ _ _ _ H Hf Hs Hb Ha)
    as (pm & coefs & wind & _ & _ & _ & ->).
  apply list_elem_of_fmap in Hr as (b & -> & _).
  cbn [Composer.forecast_month Composer.row_date Composer.bess_gw
       Composer.wholesale_spread_mwh Composer.spread_leading_the_way
       Composer.spread_falling_short] in *.
  unfold Composer.scenario_spread. cbn [mbind option_bind].
  rewrite Hlw, Hfs. cbn [mbind option_bind].
  eexists _, _. split; [reflexivity |]. split; [reflexivity |].
  split; apply clamp0_scaled_mono.
  - pose proof (power_law_ge_floor fl sr br a c_lw Hbr ltac:(lra) Hsr). lra.
  - apply power_law_antitone_capacity; lra.
  - pose proof (power_law_ge_floor fl sr br a (Composer.bess_capacity_gw b)
                  Hbr ltac:(lra) Hsr). lra.
  - apply power_law_antitone_capacity; lra.
Qed.

Lemma scenario_fan_ordering_witness :
  ∃ rows,
    Composer.main Samples.spread_params Samples.tariff_params
                  Samples.bess_at_ref (Some MoreSamples.fan_jan) None = inr rows
    ∧ ∀ r, r ∈ rows →
        ∃ lw fs,
          Composer.spread_leading_the_way r = Some lw
          ∧ Composer.spread_falling_short r = Some fs
          ∧ lw <= Composer.wholesale_spread_mwh r
          ∧ Composer.wholesale_spread_mwh r <= fs.
Proof.
  assert (Hrun :
    Composer.main Samples.spread_params Samples.tariff_params
                  Samples.bess_at_ref (Some MoreSamples.fan_jan) None
    = inr (Composer.forecast_month 10 100 5 (1 / 2) 3 ∅ (Some MoreSamples.fan_jan)
             [ {| Composer.wind_date := Samples.jan_2026;
                  Composer.wind_gen_gw := 68 / 10 |} ]
           <$> Samples.bess_at_ref)).
  { apply (main_runs _ _ _ _ _ 10 100 5 (1 / 2) 3 ∅ _ 60); try reflexivity.
    - eexists; reflexivity.
    - eexists; reflexivity.
    - discriminate.
    - apply first_stop_pos; [lra | lra | |].
      + intros b ->%list_elem_of_singleton. cbn. lra.
      + intros rows s [= <-] Hs. unfold MoreSamples.fan_jan in Hs.
        rewrite !elem_of_cons, elem_of_nil in Hs.
        destruct Hs as [-> | [-> | []]]; cbn; lra. }
  eexists. split; [exact Hrun |].
  intros r Hr.
  apply (scenario_fan_ordering _ _ _ _ _ _ 10 100 5 (1 / 2) Hrun)
    with (c_lw := 10) (c_fs := 4); try reflexivity; try lra; try exact Hr.
  - apply list_elem_of_fmap in Hr as (b & -> & Hb).
    apply list_elem_of_singleton in Hb as ->. reflexivity.
  - apply list_elem_of_fmap in Hr as (b & -> & Hb).
    apply list_elem_of_singleton in Hb as ->. reflexivity.
  - apply list_elem_of_fmap in Hr as (b & -> & Hb).
    apply list_elem_of_singleton in Hb as ->. cbn. lra.
  - apply list_elem_of_fmap in Hr as (b & -> & Hb).
    apply list_elem_of_singleton in Hb as ->. cbn. lra.
Defined.

(** X2. No negative spreads: in every saved row the wholesale spread and
    both scenario spreads (when present) are at least zero, the tariff
    spread is at least zero when the price multiplier is, and the p/kWh
    value is the tariff spread divided by 10. *)
Theorem forecast_spreads_nonnegative
    (sp tp : gmap string json) (bess : list Composer.bess_row)
    (sc : option (list Composer.scenario_row))
    (ren : option (list Composer.renewable_row))
    (rows : list Composer.forecast_row) :
  Composer.main sp tp bess sc ren = inr rows →
  ∃ pm,
    get tp "price_multiplier" (JNum (131 / 100)) = JNum pm
    ∧ ∀ r, r ∈ rows →
        0 <= Composer.wholesale_spread_mwh r
        ∧ (∀ x, Composer.spread_leading_the_way r = Some x → 0 <= x)
        ∧ (∀ x, Composer.spread_falling_short r = Some x → 0 <= x)
        ∧ (0 <= pm → 0 <= Composer.agile_spread_mwh r)
        ∧ Composer.agile_spread_p_kwh r = Composer.agile_spread_mwh r / 10.
Proof.
  intros H.
  pose proof (main_inr _ _ _ _ _ _ H)
    as (fl & sr & br & a & pm & coefs & wind
        & _ & _ & _ & _ & _ & _ & _ & Hpm & _ & _ & ->).
  exists pm. split; [exact Hpm |].
  intros r (b & -> & _)%list_elem_of_fmap.
  cbn [Composer.forecast_month Composer.wholesale_spread_mwh
       Composer.spread_leading_the_way Composer.spread_falling_short
       Composer.agile_spread_mwh Composer.agile_spread_p_kwh].
  assert (Hsc : ∀ name x,
    Composer.scenario_spread sc name (Composer.bess_date b) fl sr br a
      (Seasonal.seasonal_adjustment (month (Composer.bess_date b)) coefs sr)
    = Some x → 0 <= x).
  { intros name x. unfold Composer.scenario_spread.
    destruct sc as [s |]; [| discriminate]. cbn [mbind option_bind].
    destruct (Composer.scenario_capacity s name (Composer.bess_date b));
      [| discriminate].
    cbn [mbind option_bind]. intros [= <-]. apply clamp0_nonneg_result. }
  pose proof (clamp0_nonneg_result
    (PowerLaw.power_law_spread (Composer.bess_capacity_gw b) fl sr br a
     * Seasonal.seasonal_adjustment (month (Composer.bess_date b)) coefs sr)) as Hw.
  repeat split.
  - exact Hw.
  - apply Hsc.
  - apply Hsc.
  - intros Hp. nra.
Qed.

Lemma forecast_spreads_nonnegative_witness :
  ∃ rows,
    Composer.main Samples.spread_params Samples.tariff_params
                  Samples.bess_at_ref None None = inr rows
    ∧ ∀ r, r ∈ rows → 0 <= Composer.wholesale_spread_mwh r.
Proof.
  eexists. split; [exact sample_run |].
  destruct (forecast_spreads_nonnegative _ _ _ _ _ _ sample_run) as (pm & _ & Hall).
  intros r Hr. exact (proj1 (Hall r Hr)).
Defined.

Section WindProjection.

Import Composer.

(** Looking a forecast date up in a projection that was computed date by
    date finds the projection of that date. *)
Lemma wind_lookup (g : date → wind_row) (l : list date) (d : date) :
  (∀ x, wind_date (g x) = x) → d ∈ l →
  wind_gen_gw <$> head (filter (λ w, wind_date w = d) (g <$> l))
  = Some (wind_gen_gw (g d)).
Proof.
  intros Hg. induction l as [| x l IH]; intros Hin; [inversion Hin |].
  rewrite fmap_cons, filter_cons, Hg.
  destruct (decide (x = d)) as [-> | Hne]; [reflexivity |].
  apply IH. apply elem_of_cons in Hin as [-> | Hin]; [congruence | exact Hin].
Qed.

Lemma project_wind_some rs dates out :
  project_wind_generation (Some rs) dates = inr out →
  ∃ first rest latest,
    rs = first :: rest ∧ last rs = Some latest
    ∧ out = (λ d,
        {| wind_date := d;
           wind_gen_gw :=
             (total_wind_gw latest
              + wind_growth_gw_month
                * IZR ((year d - year (max_date first rest)) * 12
                       + (month d - month (max_date first rest))))
             * wind_cf (month d) |})
            <$> dates.
Proof.
  unfold project_wind_generation.
  destruct rs as [| first rest]; [discriminate |].
  destruct (last (first :: rest)) as [latest |] eqn:Hl; [| discriminate].
  intros [= <-]. exists first, rest, latest. auto.
Qed.

Lemma wind_cf_bounds (m : Z) : 22 / 100 <= wind_cf m <= 38 / 100.
Proof. unfold wind_cf. repeat case_decide; lra. Qed.

End WindProjection.

(** X3. The wind column of a saved row is the projection for the row's
    own date: 6.8 when there is no renewables file, and otherwise the last
    row's installed wind capacity plus 0.125 GW per month since the
    file's latest date, times the capacity factor of the month.  The
    fallback 6.8 inside the loop is never what fills the cell when a
    renewables file is present. *)
Theorem forecast_wind_is_projection
    (sp tp : gmap string json) (bess : list Composer.bess_row)
    (sc : option (list Composer.scenario_row))
    (ren : option (list Composer.renewable_row))
    (rows : list Composer.forecast_row) :
  Composer.main sp tp bess sc ren = inr rows →
  ∀ r, r ∈ rows →
    match ren with
    | None => Composer.row_wind_gen_gw r = 68 / 10
    | Some rs =>
        ∃ first rest latest,
          rs = first :: rest ∧ last rs = Some latest
          ∧ Composer.row_wind_gen_gw r
            = (Composer.total_wind_gw latest
               + Composer.wind_growth_gw_month
                 * IZR ((year (Composer.row_date r)
                         - year (Composer.max_date first rest)) * 12
                        + (month (Composer.row_date r)
                           - month (Composer.max_date first rest))))
              * Composer.wind_cf (month (Composer.row_date r))
    end.
Proof.
  intros H r Hr.
  pose proof (main_inr _ _ _ _ _ _ H)
    as (fl & sr & br & a & pm & coefs & wind
        & _ & _ & _ & _ & _ & _ & _ & _ & Hw & _ & ->).
  apply list_elem_of_fmap in Hr as (b & -> & Hb).
  assert (Hd : Composer.bess_date b ∈ Composer.bess_date <$> bess).
  { apply list_elem_of_fmap. eauto. }
  cbn [Composer.forecast_month Composer.row_wind_gen_gw Composer.row_date].
  destruct ren as [rs |].
  - apply project_wind_some in Hw as (first & rest & latest & Hrs & Hl & ->).
    exists first, rest, latest. split; [exact Hrs |]. split; [exact Hl |].
    rewrite wind_lookup; [reflexivity | reflexivity | exact Hd].
  - injection Hw as <-.
    rewrite wind_lookup; [reflexivity | reflexivity | exact Hd].
Qed.

Lemma forecast_wind_is_projection_witness :
  ∃ rows,
    Composer.main Samples.spread_params Samples.tariff_params
                  Samples.bess_at_ref None None = inr rows
    ∧ ∀ r, r ∈ rows → Composer.row_wind_gen_gw r = 68 / 10.
Proof.
  eexists. split; [exact sample_run |].
  intros r Hr.
  exact (forecast_wind_is_projection _ _ _ _ None _ sample_run r Hr).
Defined.

(** X4. The wind projection never falls from one year to a later one:
    of two projected months with the same calendar month, the one in the
    later year has at least the wind generation of the other; the
    capacity factor of a month always lies between 0.22 and 0.38. *)
Theorem wind_projection_annual_growth
    (rs : list Composer.renewable_row) (dates : list date)
    (out : list Composer.wind_row) (w1 w2 : Composer.wind_row) :
  Composer.project_wind_generation (Some rs) dates = inr out →
  w1 ∈ out → w2 ∈ out →
  month (Composer.wind_date w2) = month (Composer.wind_date w1) →
  (year (Composer.wind_date w1) ≤ year (Composer.wind_date w2))%Z →
  Composer.wind_gen_gw w1 <= Composer.wind_gen_gw w2
  ∧ 22 / 100 <= Composer.wind_cf (month (Composer.wind_date w1)) <= 38 / 100.
Proof.
  intros H H1 H2 Hm Hy.
  apply project_wind_some in H as (first & rest & latest & _ & _ & ->).
  apply list_elem_of_fmap in H1 as (d1 & -> & _).
  apply list_elem_of_fmap in H2 as (d2 & -> & _).
  cbn [Composer.wind_date Composer.wind_gen_gw] in *.
  pose proof (wind_cf_bounds (month d1)) as Hcf.
  split; [| exact Hcf].
  rewrite Hm. unfold Composer.wind_growth_gw_month.
  assert (Hk : IZR ((year d1 - year (Composer.max_date first rest)) * 12
                    + (month d1 - month (Composer.max_date first rest)))
               <= IZR ((year d2 - year (Composer.max_date first rest)) * 12
                       + (month d1 - month (Composer.max_date first rest)))).
  { apply IZR_le. lia. }
  nra.
Qed.

Lemma wind_projection_annual_growth_witness :
  ∃ out w1 w2,
    Composer.project_wind_generation (Some MoreSamples.renewables_dec)
      [Samples.jan_2026; MoreSamples.jan_2027] = inr out
    ∧ w1 ∈ out ∧ w2 ∈ out
    ∧ Composer.wind_gen_gw w1 <= Composer.wind_gen_gw w2.
Proof.
  eexists _, _, _. split; [reflexivity |].
  split; [apply list_elem_of_here |].
  split; [apply list_elem_of_further, list_elem_of_here |].
  refine (proj1 (wind_projection_annual_growth
                   MoreSamples.renewables_dec
                   [Samples.jan_2026; MoreSamples.jan_2027] _ _ _
                   eq_refl _ _ _ _)).
  - apply list_elem_of_here.
  - apply list_elem_of_further, list_elem_of_here.
  - reflexivity.
  - cbn. lia.
Defined.

(** X5. Empty inputs stop the Composer: with well-typed parameter files,
    an empty capacity forecast raises IndexError (at the print of its
    first capacity), and so does a renewables file without rows (at the
    read of its last row); no table is saved in either case. *)
Theorem composer_empty_inputs
    (sp tp : gmap string json) (sc : option (list Composer.scenario_row))
    (ren : option (list Composer.renewable_row)) (fl sr br pm x : R) :
  sp !! "floor" = Some (JNum fl) → sp !! "spread_ref" = Some (JNum sr) →
  sp !! "bess_ref" = Some (JNum br) →
  is_Some (sp !! "alpha") → is_Some (sp !! "alpha_low") →
  is_Some (sp !! "alpha_high") →
  get tp "price_multiplier" (JNum (131 / 100)) = JNum pm →
  get tp "price_adder_mwh" (JNum 65) = JNum x →
  Composer.main sp tp [] sc ren = inl IndexError
  ∧ ∀ bess, Composer.main sp tp bess sc (Some []) = inl IndexError.
Proof.
  intros Hf Hs Hb [a Ha] [al Hal] [ah Hah] Hpm Hx.
  assert (Hpre : ∀ bess ren',
    Composer.main sp tp bess sc ren'
    = ((if bess is [] then raise IndexError else mret ()) ≫= λ _ : (),
       Composer.project_wind_generation ren' (Composer.bess_date <$> bess)
       ≫= λ wind,
       as_num a ≫= λ alpha,
       as_obj (get sp "month_coefs" (JObj ∅)) ≫= λ coefs,
       Composer.first_stop (Composer.forecast_month_check sr br alpha sc) bess
       ≫= λ _ : (),
       mret (Composer.forecast_month fl sr br alpha pm coefs sc wind <$> bess))).
  { intros bess ren'. unfold Composer.main, getitem.
    rewrite Hf, Hs, Hb, Ha, Hal, Hah. cbn. rewrite Hpm, Hx. reflexivity. }
  split.
  - rewrite Hpre. reflexivity.
  - intros bess. rewrite Hpre. destruct bess; reflexivity.
Qed.

Lemma composer_empty_inputs_witness :
  Composer.main Samples.spread_params Samples.tariff_params [] None None
  = inl IndexError
  ∧ Composer.main Samples.spread_params Samples.tariff_params
      Samples.bess_at_ref None (Some []) = inl IndexError.
Proof.
  destruct (composer_empty_inputs Samples.spread_params Samples.tariff_params
              None None 10 100 5 3 60) as [H1 H2]; try reflexivity.
  - eexists; reflexivity.
  - eexists; reflexivity.
  - eexists; reflexivity.
  - split; [exact H1 | apply H2].
Defined.

(** ** Calibration *)

Section CalibrationFacts.

Import PowerLaw.

Lemma Rgeb_true (x y : R) : Rgeb x y = true ↔ y <= x.
Proof. unfold Rgeb. destruct (Rle_dec y x); split; auto; discriminate. Qed.

Lemma Rsum_lower (c : R) (l : list R) :
  Forall (λ x, c <= x) l → c * INR (length l) <= Rsum l.
Proof.
  induction 1 as [| x l Hx _ IH]; [cbn; lra |].
  cbn [length Rsum foldr]. rewrite S_INR. unfold Rsum in IH. lra.
Qed.

Lemma mean_lower (c : R) (l : list R) :
  l ≠ [] → Forall (λ x, c <= x) l → c <= mean l.
Proof.
  intros Hne Hall. unfold mean.
  assert (Hlen : 0 < INR (length l)).
  { apply lt_0_INR. destruct l; [congruence | cbn; lia]. }
  apply (Rmult_le_reg_r (INR (length l))); [exact Hlen |].
  unfold Rdiv. rewrite Rmult_assoc, Rinv_l by lra.
  rewrite Rmult_1_r. apply Rsum_lower. exact Hall.
Qed.

Lemma Rsum_pos (l : list R) : l ≠ [] → Forall (λ x, 0 < x) l → 0 < Rsum l.
Proof.
  intros Hne Hall. destruct Hall as [| x l Hx Hall]; [congruence |].
  cbn [Rsum foldr].
  assert (0 <= foldr Rplus 0 l).
  { clear Hne. induction Hall as [| y l Hy _ IH]; cbn; lra. }
  lra.
Qed.

Lemma mean_pos (l : list R) : l ≠ [] → Forall (λ x, 0 < x) l → 0 < mean l.
Proof.
  intros Hne Hall. unfold mean. apply Rdiv_lt_0_compat.
  - apply Rsum_pos; assumption.
  - apply lt_0_INR. destruct l; [congruence | cbn; lia].
Qed.

Lemma recent_idem (l : list monthly_row) :
  filter (λ r, Rgeb (m_bess_gw r) 6 = true)
         (filter (λ r, Rgeb (m_bess_gw r) 6 = true) l)
  = filter (λ r, Rgeb (m_bess_gw r) 6 = true) l.
Proof.
  induction l as [| x l IH]; [reflexivity |].
  rewrite filter_cons. case_decide as Hx; [| exact IH].
  rewrite filter_cons, decide_True by exact Hx. now rewrite IH.
Qed.

Lemma last_rows_nonempty {A} (n : nat) (l : list A) :
  l ≠ [] → (0 < n)%nat → last_rows n l ≠ [].
Proof.
  intros Hne Hn Hnil. unfold last_rows in Hnil.
  apply (f_equal length) in Hnil. rewrite length_drop in Hnil. cbn in Hnil.
  destruct l; [congruence | cbn in Hnil; lia].
Qed.

End CalibrationFacts.

(** X6. When at least six months have a capacity of 6 GW or more, the
    calibration is the same as on those months alone (months below 6 GW
    do not influence it) and the reference capacity is at least 6 GW. *)
Theorem calibration_uses_recent_months (monthly : list PowerLaw.monthly_row) :
  (6 ≤ length (filter (λ r, PowerLaw.Rgeb (PowerLaw.m_bess_gw r) 6 = true) monthly))%nat →
  PowerLaw.calibrate_params monthly
  = PowerLaw.calibrate_params
      (filter (λ r, PowerLaw.Rgeb (PowerLaw.m_bess_gw r) 6 = true) monthly)
  ∧ 6 <= PowerLaw.bess_ref (PowerLaw.calibrate_params monthly).
Proof.
  intros Hlen. split.
  - unfold PowerLaw.calibrate_params. rewrite recent_idem.
    rewrite !decide_True by exact Hlen. reflexivity.
  - unfold PowerLaw.calibrate_params. rewrite decide_True by exact Hlen.
    cbn [PowerLaw.bess_ref]. apply mean_lower.
    + intros Hnil. apply (f_equal length) in Hnil.
      rewrite length_fmap in Hnil. cbn in Hnil. lia.
    + apply Forall_fmap, Forall_forall. intros r Hr.
      apply list_elem_of_filter in Hr as [Hr _]. cbn.
      apply Rgeb_true. exact Hr.
Qed.

Lemma calibration_uses_recent_months_witness :
  (6 ≤ length (filter (λ r, PowerLaw.Rgeb (PowerLaw.m_bess_gw r) 6 = true)
                 MoreSamples.months_recent))%nat
  ∧ 6 <= PowerLaw.bess_ref (PowerLaw.calibrate_params MoreSamples.months_recent).
Proof.
  assert (Hlen :
    (6 ≤ length (filter (λ r, PowerLaw.Rgeb (PowerLaw.m_bess_gw r) 6 = true)
                   MoreSamples.months_recent))%nat).
  { unfold MoreSamples.months_recent. cbn [replicate].
    rewrite filter_cons, decide_False
      by (intros H; apply Rgeb_true in H; cbn in H; lra).
    repeat (rewrite filter_cons, decide_True by (apply Rgeb_true; cbn; lra)).
    cbn. lia. }
  split; [exact Hlen |].
  exact (proj2 (calibration_uses_recent_months _ Hlen)).
Defined.

(** X7. On a non-empty monthly table whose capacities are all positive,
    the calibration returns a positive reference capacity, whichever
    reference window is used; the floor is 13.5 and the elasticities are
    positive and ordered. *)
Theorem calibration_reference_positive (monthly : list PowerLaw.monthly_row) :
  monthly ≠ [] →
  Forall (λ r, 0 < PowerLaw.m_bess_gw r) monthly →
  let p := PowerLaw.calibrate_params monthly in
  0 < PowerLaw.bess_ref p
  ∧ PowerLaw.floor p = 135 / 10
  ∧ 0 < PowerLaw.alpha_low p
  ∧ PowerLaw.alpha_low p <= PowerLaw.alpha p
  ∧ PowerLaw.alpha p <= PowerLaw.alpha_high p.
Proof.
  intros Hne Hall p. subst p. unfold PowerLaw.calibrate_params.
  cbn [PowerLaw.bess_ref PowerLaw.floor PowerLaw.alpha PowerLaw.alpha_low
       PowerLaw.alpha_high].
  unfold PowerLaw.avg_price, PowerLaw.rt_efficiency_loss, PowerLaw.alpha_modo,
    PowerLaw.alpha_central, PowerLaw.alpha_caiso.
  split; [| repeat split; lra].
  case_decide as Hlen.
  - apply mean_pos.
    + intros Hnil. apply (f_equal length) in Hnil.
      rewrite length_fmap in Hnil. cbn in Hnil. lia.
    + apply Forall_fmap, Forall_forall. intros r Hr.
      apply list_elem_of_filter in Hr as [_ Hr]. cbn.
      rewrite Forall_forall in Hall. auto.
  - apply mean_pos.
    + intros Hnil. apply fmap_nil_inv in Hnil.
      revert Hnil. apply last_rows_nonempty; [exact Hne | lia].
    + apply Forall_fmap. unfold PowerLaw.last_rows.
      apply Forall_drop. exact Hall.
Qed.

Lemma calibration_reference_positive_witness :
  MoreSamples.months_recent ≠ []
  ∧ 0 < PowerLaw.bess_ref (PowerLaw.calibrate_params MoreSamples.months_recent).
Proof.
  split; [discriminate |].
  refine (proj1 (calibration_reference_positive MoreSamples.months_recent _ _)).
  - discriminate.
  - unfold MoreSamples.months_recent. cbn [replicate].
    repeat constructor; cbn; lra.
Defined.

(** X8. The Composer on any file the tariff model writes: the price
    multiplier it reads is the one written (the built-in 1.31 is never
    used), namely 1 without an Elexon file and the slope of the
    price-level regression with one, and every saved row has tariff
    spread = that multiplier times the wholesale spread. *)
Theorem composer_reads_written_multiplier
    (ols : list (R * R) → result Tariff.fit)
    (agile : list Tariff.agile_row) (elexon : option (list Tariff.elexon_row))
    (p : gmap string json) :
  Tariff.main ols agile elexon = inr p →
  ∃ pm,
    p !! "price_multiplier" = Some (JNum pm)
    ∧ match elexon with
      | None => pm = 1
      | Some rows =>
          ∃ model2,
            ols ((λ r, (Tariff.m_wholesale_mean r, Tariff.m_price_mean r))
                 <$> Tariff.merge_inner agile rows) = inr model2
            ∧ pm = Tariff.slope model2
      end
    ∧ ∀ sp bess sc ren rows r,
        Composer.main sp p bess sc ren = inr rows → r ∈ rows →
        Composer.agile_spread_mwh r = pm * Composer.wholesale_spread_mwh r.
Proof.
  intros H.
  assert (Hcomp : ∀ pm, p !! "price_multiplier" = Some (JNum pm) →
    ∀ sp bess sc ren rows r,
      Composer.main sp p bess sc ren = inr rows → r ∈ rows →
      Composer.agile_spread_mwh r = pm * Composer.wholesale_spread_mwh r).
  { intros pm Hp sp bess sc ren rows r Hm Hr.
    pose proof (main_inr _ _ _ _ _ _ Hm)
      as (fl & sr & br & a & pm' & coefs & wind
          & _ & _ & _ & _ & _ & _ & _ & Hpm & _ & _ & ->).
    unfold get in Hpm. rewrite Hp in Hpm.
    cbv [default from_option Datatypes.id] in Hpm. injection Hpm as <-.
    apply list_elem_of_fmap in Hr as (b & -> & _). reflexivity. }
  destruct elexon as [rows |].
  - apply main_with_elexon in H as (model & model2 & _ & _ & Hm2 & ->).
    exists (Tariff.slope model2). split; [reflexivity |].
    split; [eauto |]. apply Hcomp. reflexivity.
  - injection H as <-. exists 1. split; [reflexivity |].
    split; [reflexivity |]. apply Hcomp. reflexivity.
Qed.

Lemma composer_reads_written_multiplier_witness :
  ∃ p pm,
    Tariff.main Samples.no_fit Samples.agile_day None = inr p
    ∧ p !! "price_multiplier" = Some (JNum pm) ∧ pm = 1.
Proof.
  destruct (composer_reads_written_multiplier
              Samples.no_fit Samples.agile_day None _ eq_refl)
    as (pm & Hp & Hone & _).
  eexists _, pm. split; [reflexivity |]. split; [exact Hp | exact Hone].
Defined.

(** ** What the tariff regressions are fitted on *)

Section TariffOverlap.

Import Tariff.

Lemma merged_pair_Some a e r :
  merged_pair a e = Some r ↔
  spread_max_min a = Some (m_spread_max_min r)
  ∧ price_mean a = Some (m_price_mean r)
  ∧ price_max a = Some (m_price_max r)
  ∧ price_min a = Some (m_price_min r)
  ∧ wholesale_spread e = Some (m_wholesale_spread r)
  ∧ wholesale_mean e = Some (m_wholesale_mean r)
  ∧ merged_date r = agile_date a.
Proof.
  unfold merged_pair. split.
  - destruct (spread_max_min a), (price_mean a), (price_max a), (price_min a),
      (wholesale_spread e), (wholesale_mean e); cbn; try discriminate.
    intros [= <-]. cbn. repeat split.
  - intros (-> & -> & -> & -> & -> & -> & <-). cbn. destruct r; reflexivity.
Qed.

Lemma elem_of_merge_inner agile elexon r :
  r ∈ merge_inner agile elexon ↔
  ∃ a e, a ∈ agile ∧ e ∈ elexon ∧ elexon_date e = agile_date a
         ∧ merged_pair a e = Some r.
Proof.
  unfold merge_inner. rewrite list_elem_of_bind. split.
  - intros (a & Hr & Ha). apply list_elem_of_omap in Hr as (e & He & Hp).
    apply list_elem_of_filter in He as [Hd He]. eauto 8.
  - intros (a & e & Ha & He & Hd & Hp). exists a. split; [| exact Ha].
    apply list_elem_of_omap. exists e. split; [| exact Hp].
    apply list_elem_of_filter. auto.
Qed.

End TariffOverlap.

(** X9. With an Elexon file, a run that writes a parameter file had at
    least one pair of an Agile row and an Elexon row that share a date
    and have no empty cell among their six values; the two regressions
    are fitted on exactly those pairs; the written file holds the slope
    and intercept of each fit and the number of pairs. *)
Theorem regressions_fitted_on_complete_overlap
    (ols : list (R * R) → result Tariff.fit)
    (agile : list Tariff.agile_row) (elexon : list Tariff.elexon_row)
    (q : gmap string json) :
  Tariff.main ols agile (Some elexon) = inr q →
  ∃ model model2,
    Tariff.merge_inner agile elexon ≠ []
    ∧ ols ((λ r, (Tariff.m_wholesale_spread r, Tariff.m_spread_max_min r))
           <$> Tariff.merge_inner agile elexon) = inr model
    ∧ ols ((λ r, (Tariff.m_wholesale_mean r, Tariff.m_price_mean r))
           <$> Tariff.merge_inner agile elexon) = inr model2
    ∧ q !! "spread_multiplier" = Some (JNum (Tariff.slope model))
    ∧ q !! "spread_intercept" = Some (JNum (Tariff.const model))
    ∧ q !! "price_multiplier" = Some (JNum (Tariff.slope model2))
    ∧ q !! "price_adder_mwh" = Some (JNum (Tariff.const model2))
    ∧ q !! "n_obs" = Some (JNum (INR (length (Tariff.merge_inner agile elexon))))
    ∧ ∀ r, r ∈ Tariff.merge_inner agile elexon ↔
        ∃ a e, a ∈ agile ∧ e ∈ elexon
               ∧ Tariff.elexon_date e = Tariff.agile_date a
               ∧ Tariff.merged_date r = Tariff.agile_date a
               ∧ Tariff.spread_max_min a = Some (Tariff.m_spread_max_min r)
               ∧ Tariff.price_mean a = Some (Tariff.m_price_mean r)
               ∧ Tariff.price_max a = Some (Tariff.m_price_max r)
               ∧ Tariff.price_min a = Some (Tariff.m_price_min r)
               ∧ Tariff.wholesale_spread e = Some (Tariff.m_wholesale_spread r)
               ∧ Tariff.wholesale_mean e = Some (Tariff.m_wholesale_mean r).
Proof.
  intros H.
  apply main_with_elexon in H as (model & model2 & Hne & Hm & Hm2 & ->).
  exists model, model2. repeat (split; [first [assumption | reflexivity] |]).
  intros r. rewrite elem_of_merge_inner. split.
  - intros (a & e & Ha & He & Hd & Hp).
    apply merged_pair_Some in Hp as (H1 & H2 & H3 & H4 & H5 & H6 & H7).
    exists a, e. repeat split; assumption.
  - intros (a & e & Ha & He & Hd & H7 & H1 & H2 & H3 & H4 & H5 & H6).
    exists a, e. repeat (split; [assumption |]).
    apply merged_pair_Some. repeat split; assumption.
Qed.

Lemma regressions_fitted_on_complete_overlap_witness :
  ∃ q,
    Tariff.main MoreSamples.least_squares
      MoreSamples.agile_two_days (Some MoreSamples.elexon_two_days) = inr q
    ∧ q !! "n_obs" = Some (JNum (INR 2)).
Proof.
  eexists. split; [reflexivity |].
  destruct (regressions_fitted_on_complete_overlap
              MoreSamples.least_squares
              MoreSamples.agile_two_days MoreSamples.elexon_two_days _ eq_refl)
    as (model & model2 & _ & _ & _ & _ & _ & _ & _ & Hn & _).
  exact Hn.
Defined.

(** ** The merger and the generation file *)

Section MergerWind.

Import Merger.

(** With distinct keys at most one row matches a key. *)
Lemma filter_key_unique {A K} `{EqDecision K} (f : A → K) (l : list A) (k : K) :
  NoDup (f <$> l) →
  filter (λ x, f x = k) l = from_option (λ x, [x]) [] (head (filter (λ x, f x = k) l)).
Proof.
  induction l as [| x l IH]; intros Hnd; [reflexivity |].
  rewrite fmap_cons in Hnd. apply NoDup_cons in Hnd as [Hx Hnd].
  rewrite filter_cons. case_decide as Hk; [| apply IH; exact Hnd].
  cbn. f_equal.
  destruct (filter (λ x, f x = k) l) as [| y ys] eqn:Hf; [reflexivity |].
  exfalso. apply Hx.
  assert (Hy : y ∈ filter (λ x, f x = k) l) by (rewrite Hf; apply list_elem_of_here).
  apply list_elem_of_filter in Hy as [Hfy Hy].
  apply list_elem_of_fmap. exists y. split; [congruence | exact Hy].
Qed.

Lemma omap_length_le {A B} (f : A → option B) (l : list A) :
  (length (omap f l) ≤ length l)%nat.
Proof.
  induction l as [| x l IH]; [reflexivity |].
  cbn. destruct (f x); cbn; lia.
Qed.

Lemma merge_left_row_unique gen d c :
  NoDup (generation_date <$> gen) →
  merge_left_row gen d c
  = [ {| panel_date := daily_date d;
         panel_spread := daily_spread d;
         panel_price := daily_price d;
         panel_year_month := year_month (daily_date d);
         panel_bess_gw := c;
         panel_wind_gen_gw :=
           head (filter (λ g, generation_date g = daily_date d) gen)
           ≫= wind_gen_gw |} ].
Proof.
  intros Hnd. unfold merge_left_row.
  rewrite (filter_key_unique generation_date gen (daily_date d) Hnd).
  destruct (head _) as [g |]; reflexivity.
Qed.

End MergerWind.

(** X10. Generation data in the panel: when the capacity file and the
    daily file have rows and the dates of the generation file are
    distinct (and the historic months too), the panel has
    exactly one row for each daily row whose month has a historic
    capacity, in the order of the daily file, carrying the wind value of
    the same date, or an empty cell when the file has no row for that
    date; without a generation file every wind cell is empty.  A missing
    wind value is never replaced by zero. *)
Theorem merger_one_row_per_day
    (elexon : option (list Merger.daily_row)) (agile : list Merger.daily_row)
    (bess : list Merger.capacity_row) (gen : option (list Merger.generation_row)) :
  bess ≠ [] → (Merger.choose_spread elexon agile).1.1 ≠ [] →
  NoDup (Merger.bess_lookup bess).*1 →
  NoDup (Merger.generation_date <$> default [] gen) →
  ∃ panel spread_col price_col,
    Merger.load_and_merge elexon agile bess gen = inr (panel, spread_col, price_col)
    ∧ panel
      = omap (λ d,
          c ← Merger.series_at (Merger.bess_lookup bess)
                 (year_month (Merger.daily_date d));
          Some {| Merger.panel_date := Merger.daily_date d;
                  Merger.panel_spread := Merger.daily_spread d;
                  Merger.panel_price := Merger.daily_price d;
                  Merger.panel_year_month := year_month (Merger.daily_date d);
                  Merger.panel_bess_gw := Some c;
                  Merger.panel_wind_gen_gw :=
                    head (filter (λ g, Merger.generation_date g = Merger.daily_date d)
                            (default [] gen))
                    ≫= Merger.wind_gen_gw |})
          (Merger.choose_spread elexon agile).1.1
    ∧ (length panel ≤ length (Merger.choose_spread elexon agile).1.1)%nat
    ∧ (gen = None → ∀ r, r ∈ panel → Merger.panel_wind_gen_gw r = None).
Proof.
  intros Hbne Hsne Hnd Hgen.
  eexists _, _, _. split; [apply load_and_merge_runs; assumption |].
  set (spread := (Merger.choose_spread elexon agile).1.1).
  assert (Hform :
    filter (λ r, is_Some (Merger.panel_bess_gw r))
      (d ← spread;
       Merger.merge_left_row (default [] gen) d
         (Merger.series_at (Merger.bess_lookup bess)
            (year_month (Merger.daily_date d))))
    = omap (λ d,
        c ← Merger.series_at (Merger.bess_lookup bess)
               (year_month (Merger.daily_date d));
        Some {| Merger.panel_date := Merger.daily_date d;
                Merger.panel_spread := Merger.daily_spread d;
                Merger.panel_price := Merger.daily_price d;
                Merger.panel_year_month := year_month (Merger.daily_date d);
                Merger.panel_bess_gw := Some c;
                Merger.panel_wind_gen_gw :=
                  head (filter (λ g, Merger.generation_date g = Merger.daily_date d)
                          (default [] gen))
                  ≫= Merger.wind_gen_gw |}) spread).
  { induction spread as [| d l IH]; [reflexivity |].
    rewrite bind_cons, filter_app, IH.
    rewrite (merge_left_row_unique _ _ _ Hgen).
    cbn [omap list_omap].
    destruct (Merger.series_at _ _) as [c |].
    - rewrite filter_cons, decide_True by (cbn; eauto). reflexivity.
    - rewrite filter_cons, decide_False by (cbn; intros [? ?]; discriminate).
      reflexivity. }
  rewrite Hform. split; [reflexivity |]. split.
  - apply omap_length_le.
  - intros -> r Hr. apply list_elem_of_omap in Hr as (d & _ & Hd).
    destruct (Merger.series_at _ _) as [c |]; [| discriminate].
    cbn in Hd. injection Hd as <-. reflexivity.
Qed.

Lemma merger_one_row_per_day_witness :
  NoDup (Merger.bess_lookup Samples.historic_jan).*1
  ∧ NoDup (Merger.generation_date <$> MoreSamples.generation_jan)
  ∧ ∃ panel spread_col price_col,
      Merger.load_and_merge None Samples.daily_jan Samples.historic_jan
        (Some MoreSamples.generation_jan)
      = inr (panel, spread_col, price_col)
      ∧ Merger.panel_wind_gen_gw <$> panel = [Some 9].
Proof.
  assert (H1 : NoDup (Merger.bess_lookup Samples.historic_jan).*1)
    by apply NoDup_singleton.
  assert (H2 : NoDup (Merger.generation_date <$> MoreSamples.generation_jan))
    by apply NoDup_singleton.
  split; [exact H1 |]. split; [exact H2 |].
  destruct (merger_one_row_per_day None Samples.daily_jan Samples.historic_jan
              (Some MoreSamples.generation_jan)
              ltac:(discriminate) ltac:(discriminate) H1 H2)
    as (panel & sc & pc & Hrun & Hpanel & _).
  exists panel, sc, pc. split; [exact Hrun |].
  rewrite Hpanel. reflexivity.
Defined.

(** ** The monthly table *)

Section MonthlyTable.

Import Merger SpreadModel.

#[local] Instance ym_le_total : Total ym_le.
Proof. intros [a1 a2] [b1 b2]. unfold ym_le. cbn. lia. Qed.

#[local] Instance ym_le_trans : Transitive ym_le.
Proof. intros [a1 a2] [b1 b2] [c1 c2]. unfold ym_le. cbn. lia. Qed.

(** The group keys: the distinct months, in ascending order. *)
Lemma group_keys_spec (l : list (Z * Z)) :
  NoDup (merge_sort ym_le (remove_dups l))
  ∧ StronglySorted ym_le (merge_sort ym_le (remove_dups l))
  ∧ ∀ k, k ∈ merge_sort ym_le (remove_dups l) ↔ k ∈ l.
Proof.
  split; [| split].
  - rewrite merge_sort_Permutation. apply NoDup_remove_dups.
  - apply StronglySorted_merge_sort; apply _.
  - intros k. rewrite merge_sort_Permutation. apply elem_of_remove_dups.
Qed.

Lemma elem_of_group_keys (l : list (Z * Z)) (k : Z * Z) :
  k ∈ merge_sort ym_le (remove_dups l) ↔ k ∈ l.
Proof. apply group_keys_spec. Qed.

Lemma col_mean_all_empty (col : list (option R)) :
  Forall (λ c, c = None) col → col_mean col = None.
Proof.
  intros H. unfold col_mean.
  replace (omap (λ c : option R, c) col) with (@nil R); [reflexivity |].
  induction H as [| c col -> _ IH]; [reflexivity | exact IH].
Qed.

(** A column whose cells all hold the same value has the mean of as
    many copies of it. *)
Lemma col_mean_copies (c : R) (col : list (option R)) :
  col ≠ [] → Forall (λ x, x = Some c) col →
  col_mean col = Some (PowerLaw.mean (replicate (length col) c)).
Proof.
  intros Hne Hall. unfold col_mean.
  assert (Hv : omap (λ c : option R, c) col = replicate (length col) c).
  { clear Hne. induction Hall as [| x col -> _ IH]; [reflexivity |].
    cbn. rewrite IH. reflexivity. }
  rewrite Hv. destruct col as [| x col]; [congruence |]. reflexivity.
Qed.

Lemma month_group_Some df k m :
  month_group df k = Some m →
  agg_year_month m = k
  ∧ agg_n_days m = length (filter (λ r, panel_year_month r = k) df)
  ∧ col_mean (panel_bess_gw <$> filter (λ r, panel_year_month r = k) df)
    = Some (agg_bess_gw m)
  ∧ col_mean (panel_spread <$> filter (λ r, panel_year_month r = k) df)
    = Some (agg_spread m)
  ∧ col_mean (panel_wind_gen_gw <$> filter (λ r, panel_year_month r = k) df)
    = Some (agg_wind_gw m).
Proof.
  unfold month_group. cbv zeta.
  destruct (col_mean (panel_bess_gw <$> _)) as [b |]; [| discriminate].
  destruct (col_mean (panel_spread <$> _)) as [s |]; [| discriminate].
  destruct (col_mean (panel_wind_gen_gw <$> _)) as [w |]; [| discriminate].
  cbn. intros [= <-]. cbn. repeat split.
Qed.

Lemma elem_of_fit_power_law df m :
  m ∈ fit_power_law df ↔
  (∃ r, r ∈ df ∧ panel_year_month r = agg_year_month m)
  ∧ month_group df (agg_year_month m) = Some m.
Proof.
  unfold fit_power_law. rewrite list_elem_of_omap. split.
  - intros (k & Hk & Hm).
    pose proof (month_group_Some _ _ _ Hm) as (Hym & _).
    rewrite elem_of_group_keys in Hk.
    apply list_elem_of_fmap in Hk as (r & -> & Hr).
    rewrite Hym. split; [eauto | exact Hm].
  - intros [(r & Hr & Hym) Hm]. exists (agg_year_month m). split; [| exact Hm].
    apply elem_of_group_keys.
    apply list_elem_of_fmap. eauto.
Qed.

(** Dropping keys keeps them distinct and in order. *)
Lemma omap_keys_sorted {A} (f : Z * Z → option A) (key : A → Z * Z)
    (keys : list (Z * Z)) :
  (∀ k a, f k = Some a → key a = k) →
  NoDup keys → StronglySorted ym_le keys →
  NoDup (key <$> omap f keys) ∧ StronglySorted ym_le (key <$> omap f keys).
Proof.
  intros Hkey Hnd Hs.
  assert (Hsub : ∀ (l : list (Z * Z)) (k : Z * Z),
            k ∈ key <$> omap f l → k ∈ l).
  { intros l k (a & -> & Ha)%list_elem_of_fmap.
    apply list_elem_of_omap in Ha as (k' & Hk' & Hf).
    rewrite (Hkey _ _ Hf). exact Hk'. }
  induction Hs as [| k keys Hs IH Hall]; [split; constructor |].
  apply NoDup_cons in Hnd as [Hk Hnd]. destruct (IH Hnd) as [IH1 IH2].
  cbn. destruct (f k) as [a |] eqn:Hf; [| split; assumption].
  cbn. rewrite (Hkey _ _ Hf). split.
  - apply NoDup_cons. split; [| exact IH1]. intros Hin. apply Hk, Hsub, Hin.
  - constructor; [exact IH2 |].
    apply Forall_forall. intros k' Hk'. rewrite Forall_forall in Hall.
    apply Hall, Hsub, Hk'.
Qed.

(** A panel row of a merge carries the capacity looked up for its month. *)
Lemma merge_left_row_month gen d c r :
  r ∈ merge_left_row gen d c →
  panel_year_month r = year_month (daily_date d) ∧ panel_bess_gw r = c
  ∧ (gen = [] → panel_wind_gen_gw r = None).
Proof.
  unfold merge_left_row.
  destruct (filter _ gen) as [| g gs] eqn:Hf.
  - intros ->%list_elem_of_singleton. repeat split.
  - intros (x & -> & _)%list_elem_of_fmap. repeat split.
    intros ->. discriminate Hf.
Qed.

Lemma panel_rows_of_merge elexon agile bess gen panel sc pc r :
  load_and_merge elexon agile bess gen = inr (panel, sc, pc) →
  r ∈ panel →
  ∃ c, panel_bess_gw r = Some c
       ∧ series_at (bess_lookup bess) (panel_year_month r) = Some c
       ∧ (gen = None → panel_wind_gen_gw r = None).
Proof.
  intros H Hr.
  apply load_and_merge_panel in H. injection H as -> _ _.
  apply list_elem_of_filter in Hr as [[c Hc] Hr].
  apply list_elem_of_bind in Hr as (d & Hr & _).
  apply merge_left_row_month in Hr as (Hym & Hcap & Hw).
  exists c. split; [exact Hc |]. split; [congruence |].
  intros ->. apply Hw. reflexivity.
Qed.

End MonthlyTable.

(** X11. Without a generation file the monthly table is empty: every
    wind cell of the merged panel is empty, so every month has an empty
    wind mean and [dropna()] removes it; the calibration then receives no
    row at all. *)
Theorem calibration_table_needs_wind
    (elexon : option (list Merger.daily_row)) (agile : list Merger.daily_row)
    (bess : list Merger.capacity_row)
    (panel : list Merger.panel_row) (spread_col price_col : string) :
  Merger.load_and_merge elexon agile bess None = inr (panel, spread_col, price_col) →
  SpreadModel.fit_power_law panel = []
  ∧ SpreadModel.calibration_rows (SpreadModel.fit_power_law panel) = [].
Proof.
  intros H.
  assert (Hnone : ∀ k, SpreadModel.month_group panel k = None).
  { intros k. unfold SpreadModel.month_group. cbv zeta.
    rewrite (col_mean_all_empty (Merger.panel_wind_gen_gw <$> _)).
    - destruct (SpreadModel.col_mean (Merger.panel_bess_gw <$> _)); [| reflexivity].
      destruct (SpreadModel.col_mean (Merger.panel_spread <$> _)); reflexivity.
    - apply Forall_fmap, Forall_forall. intros r Hr.
      apply list_elem_of_filter in Hr as [_ Hr]. cbn.
      destruct (panel_rows_of_merge _ _ _ _ _ _ _ _ H Hr) as (c & _ & _ & Hw).
      apply Hw. reflexivity. }
  assert (Hfit : SpreadModel.fit_power_law panel = []).
  { unfold SpreadModel.fit_power_law.
    induction (merge_sort _ _) as [| k ks IH]; [reflexivity |].
    cbn. rewrite Hnone. exact IH. }
  rewrite Hfit. split; reflexivity.
Qed.

Lemma calibration_table_needs_wind_witness :
  ∃ panel spread_col price_col,
    Merger.load_and_merge None Samples.daily_jan Samples.historic_jan None
    = inr (panel, spread_col, price_col)
    ∧ panel ≠ []
    ∧ SpreadModel.fit_power_law panel = [].
Proof.
  assert (Hrun := load_and_merge_runs None Samples.daily_jan Samples.historic_jan
                    None ltac:(discriminate) ltac:(discriminate)
                    (NoDup_singleton _)).
  eexists _, _, _. split; [exact Hrun |]. split.
  - intros Hnil. apply (f_equal length) in Hnil.
    vm_compute in Hnil. discriminate Hnil.
  - exact (proj1 (calibration_table_needs_wind _ _ _ _ _ _ Hrun)).
Defined.

(** X12. The monthly capacity comes from the step value: for a panel
    produced by the merger, the capacity of every row of the monthly
    table is the mean of [n_days] copies of one value, the historic
    capacity of that month in the capacity file, with [n_days] at least
    one. *)
Theorem monthly_capacity_is_step_value
    (elexon : option (list Merger.daily_row)) (agile : list Merger.daily_row)
    (bess : list Merger.capacity_row) (gen : option (list Merger.generation_row))
    (panel : list Merger.panel_row) (spread_col price_col : string) :
  Merger.load_and_merge elexon agile bess gen = inr (panel, spread_col, price_col) →
  ∀ m, m ∈ SpreadModel.fit_power_law panel →
    ∃ b c, b ∈ bess ∧ Merger.source b = "historic"
           ∧ year_month (Merger.capacity_date b) = SpreadModel.agg_year_month m
           ∧ Merger.capacity_gw b = Some c
           ∧ (0 < SpreadModel.agg_n_days m)%nat
           ∧ SpreadModel.agg_bess_gw m
             = PowerLaw.mean (replicate (SpreadModel.agg_n_days m) c).
Proof.
  intros H m Hm.
  apply elem_of_fit_power_law in Hm as [(r & Hr & Hym) Hg].
  apply month_group_Some in Hg as (_ & Hn & Hb & _ & _).
  destruct (panel_rows_of_merge _ _ _ _ _ _ _ _ H Hr) as (c & Hc & Hs & _).
  rewrite Hym in Hs.
  assert (Hin : r ∈ filter (λ r, Merger.panel_year_month r
                                 = SpreadModel.agg_year_month m) panel)
    by (apply list_elem_of_filter; auto).
  assert (Hcol :
    SpreadModel.col_mean
      (Merger.panel_bess_gw
       <$> filter (λ r, Merger.panel_year_month r = SpreadModel.agg_year_month m)
             panel)
    = Some (PowerLaw.mean (replicate (SpreadModel.agg_n_days m) c))).
  { rewrite Hn, <- (length_fmap Merger.panel_bess_gw). apply col_mean_copies.
    - intros Hnil. apply fmap_nil_inv in Hnil.
      rewrite Hnil in Hin. inversion Hin.
    - apply Forall_fmap, Forall_forall. intros r' Hr'.
      apply list_elem_of_filter in Hr' as [Hym' Hr']. cbn.
      destruct (panel_rows_of_merge _ _ _ _ _ _ _ _ H Hr') as (c' & Hc' & Hs' & _).
      rewrite Hym' in Hs'. congruence. }
  apply series_at_Some in Hs. apply elem_of_bess_lookup in Hs.
  destruct Hs as (b & Hb1 & Hb2 & Hb3 & Hb4).
  exists b, c. repeat (split; [assumption |]). split.
  - rewrite Hn. destruct (filter _ panel); [inversion Hin | cbn; lia].
  - congruence.
Qed.

Lemma monthly_capacity_is_step_value_witness :
  ∃ panel spread_col price_col,
    Merger.load_and_merge None Samples.daily_jan Samples.historic_jan
      (Some MoreSamples.generation_jan) = inr (panel, spread_col, price_col)
    ∧ ∀ m, m ∈ SpreadModel.fit_power_law panel →
        ∃ b c, b ∈ Samples.historic_jan
               ∧ Merger.capacity_gw b = Some c
               ∧ SpreadModel.agg_bess_gw m
                 = PowerLaw.mean (replicate (SpreadModel.agg_n_days m) c).
Proof.
  assert (Hrun := load_and_merge_runs None Samples.daily_jan Samples.historic_jan
                    (Some MoreSamples.generation_jan)
                    ltac:(discriminate) ltac:(discriminate) (NoDup_singleton _)).
  eexists _, _, _. split; [exact Hrun |].
  intros m Hm.
  destruct (monthly_capacity_is_step_value _ _ _ _ _ _ _ Hrun m Hm)
    as (b & c & Hb & _ & _ & Hc & _ & Hmean).
  exists b, c. auto.
Defined.

(** X13. The monthly table has one row per month, in ascending order of
    the month; each row aggregates at least one day of the panel and
    [n_days] is the number of panel rows of that month. *)
Theorem monthly_table_one_row_per_month (df : list Merger.panel_row) :
  NoDup (SpreadModel.agg_year_month <$> SpreadModel.fit_power_law df)
  ∧ StronglySorted SpreadModel.ym_le
      (SpreadModel.agg_year_month <$> SpreadModel.fit_power_law df)
  ∧ ∀ m, m ∈ SpreadModel.fit_power_law df →
      (1 ≤ SpreadModel.agg_n_days m)%nat
      ∧ SpreadModel.agg_n_days m
        = length (filter (λ r, Merger.panel_year_month r
                               = SpreadModel.agg_year_month m) df).
Proof.
  destruct (group_keys_spec (Merger.panel_year_month <$> df)) as (Hnd & Hs & _).
  destruct (omap_keys_sorted (SpreadModel.month_group df)
              SpreadModel.agg_year_month _
              (λ k a Hf, proj1 (month_group_Some df k a Hf)) Hnd Hs) as [H1 H2].
  split; [exact H1 |]. split; [exact H2 |].
  intros m Hm.
  apply elem_of_fit_power_law in Hm as [(r & Hr & Hym) Hg].
  apply month_group_Some in Hg as (_ & Hn & _).
  rewrite Hn. split; [| reflexivity].
  assert (Hin : r ∈ filter (λ r, Merger.panel_year_month r
                                 = SpreadModel.agg_year_month m) df)
    by (apply list_elem_of_filter; auto).
  destruct (filter _ df); [inversion Hin | cbn; lia].
Qed.

(** ** The saved calibration file *)

Section SavedParams.

Import SpreadModel.

Lemma foldl_insert_lookup_notin (l : list (string * R)) (m : gmap string R) (k : string) :
  k ∉ l.*1 →
  foldl (λ m kv, <[kv.1 := kv.2]> m) m l !! k = m !! k.
Proof.
  revert m. induction l as [| [k' v] l IH]; intros m Hk; [reflexivity |].
  cbn. rewrite IH.
  - apply lookup_insert_ne. intros ->. apply Hk. cbn. apply list_elem_of_here.
  - intros Hin. apply Hk. cbn. apply list_elem_of_further. exact Hin.
Qed.

(** A name that is not a fitted parameter is not a key of month_coefs. *)
Lemma month_coefs_of_notin (fitted : list (string * R)) (k : string) :
  k ∉ fitted.*1 → month_coefs_of fitted !! k = None.
Proof.
  intros Hk. unfold month_coefs_of.
  rewrite foldl_insert_lookup_notin; [apply lookup_empty |].
  intros (kv & -> & Hin)%list_elem_of_fmap.
  apply list_elem_of_filter in Hin as [_ Hin].
  apply Hk. apply list_elem_of_fmap. eauto.
Qed.

(** A dummy column stands for a value above the smallest one present. *)
Lemma dummy_column_above_min (prefix : string) (values : list Z) (c : string) :
  c ∈ dummy_columns prefix values →
  ∃ v h, c = prefix +:+ "_" +:+ pretty v ∧ v ∈ values ∧ h ∈ values ∧ (h < v)%Z.
Proof.
  unfold dummy_columns. intros (v & -> & Hv)%list_elem_of_fmap.
  assert (Hs : StronglySorted Z.le (merge_sort Z.le (remove_dups values)))
    by (apply StronglySorted_merge_sort; apply _).
  assert (Hnd : NoDup (merge_sort Z.le (remove_dups values)))
    by (rewrite merge_sort_Permutation; apply NoDup_remove_dups).
  assert (Hel : ∀ z, z ∈ merge_sort Z.le (remove_dups values) → z ∈ values).
  { intros z. rewrite merge_sort_Permutation. apply elem_of_remove_dups. }
  destruct (merge_sort Z.le (remove_dups values)) as [| h t]; [inversion Hv |].
  cbn in Hv. exists v, h. split; [reflexivity |].
  split; [apply Hel, list_elem_of_further, Hv |].
  split; [apply Hel, list_elem_of_here |].
  apply StronglySorted_inv in Hs as [_ Hall]. rewrite Forall_forall in Hall.
  apply NoDup_cons in Hnd as [Hh _].
  assert (h ≠ v) by (intros ->; exact (Hh Hv)).
  specialize (Hall v Hv). lia.
Qed.

(** No regressor is called month_1 when the months are calendar months. *)
Lemma month_1_not_regressor (df : list Merger.panel_row) (incl : bool) :
  (∀ r, r ∈ df → (1 ≤ month (Merger.panel_date r))%Z) →
  "month_1" ∉ "const" :: regressors df incl.
Proof.
  intros Hm Hin. unfold regressors in Hin.
  rewrite elem_of_cons, !elem_of_app in Hin.
  destruct Hin as [Hin | [Hin | [Hin | [Hin | [Hin | Hin]]]]].
  - discriminate Hin.
  - apply list_elem_of_singleton in Hin. discriminate Hin.
  - case_decide; [apply list_elem_of_singleton in Hin; discriminate Hin
                 | inversion Hin].
  - apply list_elem_of_singleton in Hin. discriminate Hin.
  - apply dummy_column_above_min in Hin as (v & h & Heq & _ & Hh & Hlt).
    cbn in Heq. injection Heq as Heq.
    change ("" +:+ pretty v) with (pretty v) in Heq.
    change "1" with (pretty 1%Z) in Heq. apply (inj pretty) in Heq. subst v.
    apply list_elem_of_fmap in Hh as (r & -> & Hr).
    specialize (Hm r Hr). lia.
  - destruct incl; [| inversion Hin].
    apply dummy_column_above_min in Hin as (v & h & Heq & _). cbn in Heq.
    discriminate Heq.
Qed.

End SavedParams.

(** The reference point calibrated on a non-empty monthly table with
    positive capacities and spreads is positive. *)
Lemma calibration_reference_point (monthly : list PowerLaw.monthly_row) :
  monthly ≠ [] →
  Forall (λ r, 0 < PowerLaw.m_bess_gw r ∧ 0 < PowerLaw.m_spread r) monthly →
  0 < PowerLaw.bess_ref (PowerLaw.calibrate_params monthly)
  ∧ 0 < PowerLaw.spread_ref (PowerLaw.calibrate_params monthly).
Proof.
  intros Hne Hall. unfold PowerLaw.calibrate_params.
  cbn [PowerLaw.bess_ref PowerLaw.spread_ref].
  rewrite Forall_forall in Hall.
  case_decide as Hlen.
  - assert (Hw : ∀ f : PowerLaw.monthly_row → R,
      f <$> filter (λ r, PowerLaw.Rgeb (PowerLaw.m_bess_gw r) 6 = true) monthly ≠ []).
    { intros f Hnil. apply (f_equal length) in Hnil.
      rewrite length_fmap in Hnil. cbn in Hnil. lia. }
    split; (apply mean_pos; [apply Hw |]);
      apply Forall_fmap, Forall_forall; intros r Hr;
      apply list_elem_of_filter in Hr as [_ Hr]; cbn; apply Hall; exact Hr.
  - assert (Hw : ∀ f : PowerLaw.monthly_row → R,
      f <$> PowerLaw.last_rows 6 monthly ≠ []).
    { intros f Hnil. apply fmap_nil_inv in Hnil.
      revert Hnil. apply last_rows_nonempty; [exact Hne | lia]. }
    split; (apply mean_pos; [apply Hw |]);
      apply Forall_fmap; unfold PowerLaw.last_rows; apply Forall_drop;
      apply Forall_forall; intros r Hr; cbn; apply Hall; exact Hr.
Qed.

(** X14. The file [save_params] writes from a calibration carries every
    key the Composer subscripts.  For a calibration on a non-empty
    monthly table with positive capacities and spreads, a pass-through
    file whose used entries are numbers, and a non-empty capacity
    forecast with positive capacities (in the scenario file too), the
    Composer does not fail and computes its rows from exactly the
    calibrated floor, reference point and central alpha and the month
    coefficients taken from the fit. *)
Theorem saved_params_feed_composer
    (monthly : list PowerLaw.monthly_row)
    (fitted : list (string * R)) (rsquared : R)
    (nobs : nat) (spread_col : string)
    (tp : gmap string json) (bess : list Composer.bess_row)
    (sc : option (list Composer.scenario_row))
    (ren : option (list Composer.renewable_row))
    (pm x : R) (wind : list Composer.wind_row) :
  monthly ≠ [] →
  Forall (λ r, 0 < PowerLaw.m_bess_gw r ∧ 0 < PowerLaw.m_spread r) monthly →
  get tp "price_multiplier" (JNum (131 / 100)) = JNum pm →
  get tp "price_adder_mwh" (JNum 65) = JNum x →
  Composer.project_wind_generation ren (Composer.bess_date <$> bess) = inr wind →
  bess ≠ [] →
  (∀ b, b ∈ bess → 0 < Composer.bess_capacity_gw b) →
  (∀ rows s, sc = Some rows → s ∈ rows → 0 < Composer.scenario_capacity_gw s) →
  let p := PowerLaw.calibrate_params monthly in
  Composer.main
    (SpreadModel.save_params (SpreadModel.params_dict p) fitted rsquared nobs spread_col)
    tp bess sc ren
  = inr (Composer.forecast_month (PowerLaw.floor p) (PowerLaw.spread_ref p)
           (PowerLaw.bess_ref p) (PowerLaw.alpha p) pm
           (SpreadModel.month_coefs_of fitted) sc wind <$> bess).
Proof.
  intros Hmne Hmpos Hpm Hx Hw Hne Hcap Hscen p.
  destruct (calibration_reference_point monthly Hmne Hmpos) as [Hbr Hsr].
  apply (main_runs _ _ _ _ _ _ _ _ _ _ _ _ x); try assumption; try reflexivity.
  - eexists; reflexivity.
  - eexists; reflexivity.
  - apply first_stop_pos; [| exact Hbr | exact Hcap | exact Hscen].
    fold p. subst p. lra.
Qed.

Lemma saved_params_feed_composer_witness :
  ∃ rows,
    Composer.main
      (SpreadModel.save_params
         (SpreadModel.params_dict (PowerLaw.calibrate_params MoreSamples.months_recent))
         [("const", 100); ("month_2", 3)] 0 7 "wholesale_spread")
      Samples.tariff_params Samples.bess_at_ref None None = inr rows
    ∧ length rows = 1%nat.
Proof.
  eexists. split.
  - apply (saved_params_feed_composer MoreSamples.months_recent _ _ _ _ _ _ _ _ 3 60
             [ {| Composer.wind_date := Samples.jan_2026;
                  Composer.wind_gen_gw := 68 / 10 |} ]).
    + discriminate.
    + unfold MoreSamples.months_recent. cbn [replicate].
      repeat constructor; cbn; lra.
    + reflexivity.
    + reflexivity.
    + reflexivity.
    + discriminate.
    + intros b ->%list_elem_of_singleton. cbn. lra.
    + discriminate.
  - reflexivity.
Defined.

(** X15. The month coefficients the pipeline saves have no month_1
    entry: when the fitted parameters are named after the constant and
    the regressors of [run_ols], and the months of the panel are calendar
    months, the first month present is the dropped dummy, so month_1 is
    never a key of the saved coefficients, and the Composer reads the
    offset 0 for month 1, the value its average of the twelve offsets
    assumes. *)
Theorem saved_month_coefs_preserve_level
    (df : list Merger.panel_row) (include_year_dummies : bool)
    (fitted : list (string * R)) :
  (∀ r, r ∈ df → (1 ≤ month (Merger.panel_date r))%Z) →
  (∀ name, name ∈ fitted.*1 →
     name ∈ "const" :: SpreadModel.regressors df include_year_dummies) →
  SpreadModel.month_coefs_of fitted !! "month_1" = None
  ∧ default 0 (SpreadModel.month_coefs_of fitted !! Seasonal.month_key 1) = 0.
Proof.
  intros Hm Hnames.
  assert (H1 : SpreadModel.month_coefs_of fitted !! "month_1" = None).
  { apply month_coefs_of_notin. intros Hin.
    exact (month_1_not_regressor df include_year_dummies Hm (Hnames _ Hin)). }
  split; [exact H1 |].
  change (Seasonal.month_key 1) with "month_1". rewrite H1. reflexivity.
Qed.

Lemma saved_month_coefs_preserve_level_witness :
  (∀ r, r ∈ MoreSamples.panel_jan_feb → (1 ≤ month (Merger.panel_date r))%Z)
  ∧ (∀ name, name ∈ MoreSamples.fitted_jan_feb.*1 →
       name ∈ "const" :: SpreadModel.regressors MoreSamples.panel_jan_feb false)
  ∧ SpreadModel.month_coefs_of MoreSamples.fitted_jan_feb !! "month_1" = None.
Proof.
  assert (H1 : ∀ r, r ∈ MoreSamples.panel_jan_feb →
                    (1 ≤ month (Merger.panel_date r))%Z).
  { intros r Hr. unfold MoreSamples.panel_jan_feb in Hr.
    rewrite !elem_of_cons, elem_of_nil in Hr.
    destruct Hr as [-> | [-> | []]]; cbn; lia. }
  assert (H2 : ∀ name, name ∈ MoreSamples.fitted_jan_feb.*1 →
    name ∈ "const" :: SpreadModel.regressors MoreSamples.panel_jan_feb false).
  { intros name Hn.
    assert (Hreg : SpreadModel.regressors MoreSamples.panel_jan_feb false
                   = ["bess_gw"; "weekend"; "month_2"]) by (vm_compute; reflexivity).
    rewrite Hreg. cbn in Hn. rewrite !elem_of_cons, elem_of_nil in Hn.
    rewrite !elem_of_cons. tauto. }
  split; [exact H1 |]. split; [exact H2 |].
  exact (proj1 (saved_month_coefs_preserve_level _ false _ H1 H2)).
Defined.

(** ** The processing steps of the fetch scripts *)

Section FetchFacts.

Import Fetch.

Lemma date_le_iff (a b : date) :
  date_le a b ↔
  (year a < year b)%Z
  ∨ (year a = year b
     ∧ ((month a < month b)%Z ∨ (month a = month b ∧ (day a ≤ day b)%Z))).
Proof.
  unfold date_le, date_leb.
  rewrite orb_true_iff, andb_true_iff, orb_true_iff, andb_true_iff.
  rewrite !bool_decide_eq_true. reflexivity.
Qed.

#[local] Instance date_le_total : Total date_le.
Proof. intros a b. rewrite !date_le_iff. lia. Qed.

#[local] Instance date_le_trans : Transitive date_le.
Proof. intros a b c. rewrite !date_le_iff. lia. Qed.

(** The distinct days of a column, in ascending order. *)
Lemma day_keys_spec (l : list date) :
  NoDup (merge_sort date_le (remove_dups l))
  ∧ StronglySorted date_le (merge_sort date_le (remove_dups l))
  ∧ ∀ d, d ∈ merge_sort date_le (remove_dups l) ↔ d ∈ l.
Proof.
  split; [| split].
  - rewrite merge_sort_Permutation. apply NoDup_remove_dups.
  - apply StronglySorted_merge_sort; apply _.
  - intros d. rewrite merge_sort_Permutation. apply elem_of_remove_dups.
Qed.

(** Rows built key by key and then filtered stay distinct and ordered. *)
Lemma keyed_rows_sorted {K A} (le : relation K) (f : K → A) (key : A → K)
    (P : A → Prop) `{∀ a, Decision (P a)} (keys : list K) :
  (∀ k, key (f k) = k) →
  NoDup keys → StronglySorted le keys →
  NoDup (key <$> filter P (f <$> keys))
  ∧ StronglySorted le (key <$> filter P (f <$> keys)).
Proof.
  intros Hkey Hnd Hs.
  assert (Hsub : ∀ (l : list K) (k : K),
            k ∈ key <$> filter P (f <$> l) → k ∈ l).
  { intros l k (a & -> & Ha)%list_elem_of_fmap.
    apply list_elem_of_filter in Ha as [_ Ha].
    apply list_elem_of_fmap in Ha as (k' & -> & Hk'). rewrite Hkey. exact Hk'. }
  induction Hs as [| k keys Hs IH Hall]; [split; constructor |].
  apply NoDup_cons in Hnd as [Hk Hnd]. destruct (IH Hnd) as [IH1 IH2].
  rewrite fmap_cons, filter_cons. case_decide; [| split; assumption].
  rewrite fmap_cons, Hkey. split.
  - apply NoDup_cons. split; [| exact IH1]. intros Hin. apply Hk, Hsub, Hin.
  - constructor; [exact IH2 |].
    apply Forall_forall. intros k' Hk'. rewrite Forall_forall in Hall.
    apply Hall, Hsub, Hk'.
Qed.

(** The running maximum is one of the values and bounds them all. *)
Lemma foldl_Rmax_spec (v : R) (vs : list R) :
  foldl Rmax v vs ∈ v :: vs ∧ ∀ x, x ∈ v :: vs → x <= foldl Rmax v vs.
Proof.
  revert v. induction vs as [| w vs IH]; intros v.
  - cbn. split; [apply list_elem_of_here |].
    intros x ->%list_elem_of_singleton. lra.
  - cbn [foldl]. destruct (IH (Rmax v w)) as [Hin Hub]. split.
    + apply elem_of_cons in Hin as [Heq | Hin].
      * rewrite Heq. unfold Rmax. destruct (Rle_dec v w).
        -- apply list_elem_of_further, list_elem_of_here.
        -- apply list_elem_of_here.
      * do 2 apply list_elem_of_further. exact Hin.
    + intros x Hx. rewrite !elem_of_cons in Hx.
      destruct Hx as [-> | [-> | Hx]].
      * etransitivity; [apply Rmax_l | apply Hub, list_elem_of_here].
      * etransitivity; [apply Rmax_r | apply Hub, list_elem_of_here].
      * apply Hub, list_elem_of_further, Hx.
Qed.

Lemma foldl_Rmin_spec (v : R) (vs : list R) :
  foldl Rmin v vs ∈ v :: vs ∧ ∀ x, x ∈ v :: vs → foldl Rmin v vs <= x.
Proof.
  revert v. induction vs as [| w vs IH]; intros v.
  - cbn. split; [apply list_elem_of_here |].
    intros x ->%list_elem_of_singleton. lra.
  - cbn [foldl]. destruct (IH (Rmin v w)) as [Hin Hlb]. split.
    + apply elem_of_cons in Hin as [Heq | Hin].
      * rewrite Heq. unfold Rmin. destruct (Rle_dec v w).
        -- apply list_elem_of_here.
        -- apply list_elem_of_further, list_elem_of_here.
      * do 2 apply list_elem_of_further. exact Hin.
    + intros x Hx. rewrite !elem_of_cons in Hx.
      destruct Hx as [-> | [-> | Hx]].
      * etransitivity; [apply Hlb, list_elem_of_here | apply Rmin_l].
      * etransitivity; [apply Hlb, list_elem_of_here | apply Rmin_r].
      * apply Hlb, list_elem_of_further, Hx.
Qed.

Lemma elem_of_values (col : list (option R)) (x : R) :
  x ∈ omap (λ c : option R, c) col ↔ Some x ∈ col.
Proof.
  rewrite list_elem_of_omap. split.
  - intros (c & Hc & ->). exact Hc.
  - intros Hc. eauto.
Qed.

Lemma mean_upper (c : R) (l : list R) :
  l ≠ [] → Forall (λ x, x <= c) l → PowerLaw.mean l <= c.
Proof.
  intros Hne Hall. unfold PowerLaw.mean.
  assert (Hlen : 0 < INR (length l)).
  { apply lt_0_INR. destruct l; [congruence | cbn; lia]. }
  apply (Rmult_le_reg_r (INR (length l))); [exact Hlen |].
  unfold Rdiv. rewrite Rmult_assoc, Rinv_l by lra. rewrite Rmult_1_r.
  clear Hne Hlen. induction Hall as [| x l Hx _ IH]; [cbn; lra |].
  cbn [length PowerLaw.Rsum foldr]. rewrite S_INR.
  unfold PowerLaw.Rsum in IH. lra.
Qed.

(** The aggregates of a column with at least one value. *)
Lemma column_aggregates (col : list (option R)) :
  (1 ≤ col_count col)%nat →
  ∃ mx mn mean,
    col_max col = Some mx ∧ col_min col = Some mn
    ∧ SpreadModel.col_mean col = Some mean
    ∧ Some mx ∈ col ∧ Some mn ∈ col
    ∧ (∀ x, Some x ∈ col → mn <= x <= mx)
    ∧ mn <= mean <= mx.
Proof.
  unfold col_count, col_max, col_min, SpreadModel.col_mean.
  pose proof (elem_of_values col) as Hval.
  destruct (omap _ col) as [| v vs]; [cbn; lia |]. intros _.
  destruct (foldl_Rmax_spec v vs) as [Hmx Hub].
  destruct (foldl_Rmin_spec v vs) as [Hmn Hlb].
  eexists _, _, _. repeat (split; [reflexivity |]).
  split; [apply Hval, Hmx |]. split; [apply Hval, Hmn |]. split.
  - intros x Hx. apply Hval in Hx. split; [apply Hlb | apply Hub]; exact Hx.
  - split.
    + apply mean_lower; [discriminate |].
      apply Forall_forall. intros x Hx. apply Hlb, Hx.
    + apply mean_upper; [discriminate |].
      apply Forall_forall. intros x Hx. apply Hub, Hx.
Qed.

End FetchFacts.

(** X16. The daily Agile table: the days are distinct and ascending;
    every kept day has at least 40 priced half-hours, so none of its
    aggregates is empty; price_max and price_min are ten times two p/kWh
    values of that day's rates, every priced rate of the day lies between
    those two values, and spread_max_min = price_max - price_min, which
    is never negative. *)
Theorem daily_spread_rows (rates : list Fetch.agile_rate) :
  let daily := Fetch.calculate_daily_spread (Fetch.reverse_engineer_wholesale rates) in
  NoDup (Fetch.spread_date <$> daily)
  ∧ StronglySorted Fetch.date_le (Fetch.spread_date <$> daily)
  ∧ ∀ g, g ∈ daily →
      (40 ≤ Fetch.n_periods g)%nat
      ∧ ∃ mx mn vmx vmn,
          Fetch.price_max g = Some mx ∧ Fetch.price_min g = Some mn
          ∧ Fetch.spread_max_min g = Some (mx - mn)
          ∧ 0 <= mx - mn
          ∧ mx = vmx * 10 ∧ mn = vmn * 10 ∧ vmn <= vmx
          ∧ (∃ r, r ∈ rates ∧ Fetch.valid_from r = Fetch.spread_date g
                  ∧ Fetch.value_exc_vat r = Some vmx)
          ∧ (∃ r, r ∈ rates ∧ Fetch.valid_from r = Fetch.spread_date g
                  ∧ Fetch.value_exc_vat r = Some vmn)
          ∧ (∀ r v, r ∈ rates → Fetch.valid_from r = Fetch.spread_date g →
                    Fetch.value_exc_vat r = Some v → vmn <= v <= vmx).
Proof.
  intros daily. subst daily. unfold Fetch.calculate_daily_spread.
  set (df := Fetch.reverse_engineer_wholesale rates).
  destruct (day_keys_spec (Fetch.rate_date <$> df)) as (Hnd & Hs & _).
  destruct (keyed_rows_sorted Fetch.date_le (Fetch.day_group df) Fetch.spread_date
              (λ g, (40 ≤ Fetch.n_periods g)%nat) _ (λ k, eq_refl) Hnd Hs)
    as [H1 H2].
  split; [exact H1 |]. split; [exact H2 |].
  intros g Hg. apply list_elem_of_filter in Hg as [Hn Hg].
  apply list_elem_of_fmap in Hg as (d & -> & _).
  split; [exact Hn |].
  cbn [Fetch.day_group Fetch.n_periods Fetch.price_max Fetch.price_min
       Fetch.price_mean Fetch.spread_max_min Fetch.spread_date] in *.
  destruct (column_aggregates
              (Fetch.price_mwh <$> filter (λ r, Fetch.rate_date r = d) df))
    as (mx & mn & mean & Hmx & Hmn & Hmean & Hinx & Hinn & Hb & Hm); [lia |].
  assert (Hsrc : ∀ x,
    Some x ∈ Fetch.price_mwh <$> filter (λ r, Fetch.rate_date r = d) df →
    ∃ r v, r ∈ rates ∧ Fetch.valid_from r = d
           ∧ Fetch.value_exc_vat r = Some v ∧ x = v * 10).
  { intros x (p & Hp & Hin)%list_elem_of_fmap.
    apply list_elem_of_filter in Hin as [Hd Hin].
    apply list_elem_of_fmap in Hin as (r & -> & Hr). cbn in Hp, Hd.
    destruct (Fetch.value_exc_vat r) as [v |] eqn:Hv; [| discriminate].
    cbn in Hp. injection Hp as ->. eauto 8. }
  assert (Hall : ∀ r v, r ∈ rates → Fetch.valid_from r = d →
    Fetch.value_exc_vat r = Some v → mn <= v * 10 <= mx).
  { intros r v Hr Hd Hv. apply Hb. apply list_elem_of_fmap.
    exists {| Fetch.rate_date := Fetch.valid_from r;
              Fetch.price_mwh := (λ v, v * 10) <$> Fetch.value_exc_vat r |}.
    split; [cbn; rewrite Hv; reflexivity |].
    apply list_elem_of_filter. split; [exact Hd |].
    unfold df, Fetch.reverse_engineer_wholesale.
    apply list_elem_of_fmap. exists r. split; [reflexivity | exact Hr]. }
  destruct (Hsrc mx Hinx) as (rx & vmx & Hrx & Hdx & Hvx & ->).
  destruct (Hsrc mn Hinn) as (rn & vmn & Hrn & Hdn & Hvn & ->).
  pose proof (Hb _ Hinx) as [Hle _].
  exists (vmx * 10), (vmn * 10), vmx, vmn.
  rewrite Hmx, Hmn. cbn.
  split; [reflexivity |]. split; [reflexivity |]. split; [reflexivity |].
  split; [lra |]. split; [reflexivity |]. split; [reflexivity |].
  split; [lra |]. split; [eauto |]. split; [eauto |].
  intros r v Hr Hd Hv. specialize (Hall r v Hr Hd Hv). lra.
Qed.

Section MarketIndex.

Import Fetch.

(** Which records the daily wholesale table is computed from. *)
Lemma select_provider_spec (data : list market_record) (r : market_record) :
  r ∈ select_provider data →
  r ∈ data
  ∧ ((∃ a, a ∈ data ∧ dataProvider a = "APXMIDP") → dataProvider r = "APXMIDP")
  ∧ ((∃ a, a ∈ data ∧ dataProvider a = "N2EXMIDP") →
     dataProvider r = "APXMIDP" ∨ dataProvider r = "N2EXMIDP").
Proof.
  unfold select_provider.
  destruct (filter (λ r, dataProvider r = "APXMIDP") data) as [| a apx] eqn:Ha.
  - assert (Hno : ¬ ∃ a, a ∈ data ∧ dataProvider a = "APXMIDP").
    { intros (a & Hin & Hp).
      assert (Hf : a ∈ filter (λ r, dataProvider r = "APXMIDP") data)
        by (apply list_elem_of_filter; auto).
      rewrite Ha in Hf. inversion Hf. }
    destruct (filter (λ r, dataProvider r = "N2EXMIDP") data) as [| n n2] eqn:Hn.
    + intros Hr. split; [exact Hr |]. split; [intros H; destruct (Hno H) |].
      intros (a & Hin & Hp).
      assert (Hf : a ∈ filter (λ r, dataProvider r = "N2EXMIDP") data)
        by (apply list_elem_of_filter; auto).
      rewrite Hn in Hf. inversion Hf.
    + rewrite <- Hn. intros [Hp Hr]%list_elem_of_filter.
      split; [exact Hr |]. split; [intros H; destruct (Hno H) | auto].
  - rewrite <- Ha. intros [Hp Hr]%list_elem_of_filter. auto.
Qed.

Lemma fmap_key_id {K A} (f : K → A) (key : A → K) (l : list K) :
  (∀ k, key (f k) = k) → key <$> (f <$> l) = l.
Proof.
  intros Hk. induction l as [| k l IH]; [reflexivity |].
  cbn. rewrite Hk. f_equal. exact IH.
Qed.

Lemma spread_of_column (col : list (option R)) (s : R) :
  (mx ← col_max col; mn ← col_min col; Some (mx - mn)) = Some s →
  ∃ mx mn, col_max col = Some mx ∧ col_min col = Some mn
           ∧ s = mx - mn ∧ 0 <= s.
Proof.
  intros Hs.
  destruct (col_count col) as [| n] eqn:Hc.
  - unfold col_count in Hc. unfold col_max in Hs.
    destruct (omap _ col); [discriminate Hs | discriminate Hc].
  - destruct (column_aggregates col) as (mx & mn & mean & Hmx & Hmn & _ & Hin & _ & Hb & _);
      [lia |].
    rewrite Hmx, Hmn in Hs. cbn in Hs. injection Hs as <-.
    exists mx, mn. repeat split; try assumption.
    destruct (Hb _ Hin). lra.
Qed.

End MarketIndex.

(** X17. The daily wholesale table: nothing is written when there is no
    record; otherwise the days are distinct and ascending, each comes
    from a record of the provider in use (APXMIDP when any record has
    it, else N2EXMIDP when any has it, else any provider), and a spread
    that is present equals max - min of that day's prices and is never
    negative. *)
Theorem market_index_daily (data : list Fetch.market_record) :
  (Fetch.process_market_index data = None ↔ data = [])
  ∧ ∀ out, Fetch.process_market_index data = Some out →
      NoDup (Fetch.wholesale_date <$> out)
      ∧ StronglySorted Fetch.date_le (Fetch.wholesale_date <$> out)
      ∧ ∀ w, w ∈ out →
          (∃ r, r ∈ data ∧ Fetch.start_date r = Fetch.wholesale_date w
                ∧ ((∃ a, a ∈ data ∧ Fetch.dataProvider a = "APXMIDP") →
                   Fetch.dataProvider r = "APXMIDP")
                ∧ ((∃ a, a ∈ data ∧ Fetch.dataProvider a = "N2EXMIDP") →
                   Fetch.dataProvider r = "APXMIDP"
                   ∨ Fetch.dataProvider r = "N2EXMIDP"))
          ∧ ∀ s, Fetch.wholesale_spread w = Some s →
              ∃ mx mn, Fetch.wholesale_max w = Some mx
                       ∧ Fetch.wholesale_min w = Some mn
                       ∧ s = mx - mn ∧ 0 <= s.
Proof.
  split.
  - destruct data; split; try reflexivity; discriminate.
  - intros out Hout.
    assert (Hform : out = Fetch.wholesale_group (Fetch.select_provider data)
              <$> merge_sort Fetch.date_le
                    (remove_dups (Fetch.start_date <$> Fetch.select_provider data))).
    { destruct data; [discriminate |]. injection Hout as <-. reflexivity. }
    subst out. clear Hout.
    set (apx := Fetch.select_provider data).
    destruct (day_keys_spec (Fetch.start_date <$> apx)) as (Hnd & Hs & Hel).
    split; [| split].
    + rewrite fmap_key_id by reflexivity. exact Hnd.
    + rewrite fmap_key_id by reflexivity. exact Hs.
    + intros w (d & -> & Hd)%list_elem_of_fmap. split.
      * apply Hel in Hd. apply list_elem_of_fmap in Hd as (r & -> & Hr).
        apply select_provider_spec in Hr as (Hr & Hp1 & Hp2).
        exists r. auto.
      * intros s Hs'. apply spread_of_column in Hs'. exact Hs'.
Qed.

Section GenerationFacts.

Import Fetch.

Lemma first_seen_spec (l : list string) :
  NoDup (first_seen l) ∧ ∀ d, d ∈ first_seen l ↔ d ∈ l.
Proof.
  unfold first_seen. split.
  - rewrite reverse_Permutation. apply NoDup_remove_dups.
  - intros d. rewrite elem_of_reverse, elem_of_remove_dups, elem_of_reverse.
    reflexivity.
Qed.

Lemma keep_last_elem (l : list generation_raw) (x : generation_raw) :
  x ∈ keep_last l → x ∈ l.
Proof.
  induction l as [| y l IH]; [trivial |]. cbn.
  case_decide.
  - intros Hx. apply list_elem_of_further, IH, Hx.
  - intros [-> | Hx]%elem_of_cons; [apply list_elem_of_here |].
    apply list_elem_of_further, IH, Hx.
Qed.

Lemma keep_last_dates (l : list generation_raw) (d : date) :
  d ∈ raw_date <$> keep_last l ↔ d ∈ raw_date <$> l.
Proof.
  induction l as [| y l IH]; [reflexivity |]. cbn.
  case_decide as Hy.
  - rewrite IH, elem_of_cons. split; [auto |]. intros [-> | H]; auto.
  - rewrite fmap_cons, !elem_of_cons, IH. reflexivity.
Qed.

Lemma keep_last_NoDup (l : list generation_raw) :
  NoDup (raw_date <$> keep_last l).
Proof.
  induction l as [| y l IH]; [constructor |]. cbn.
  case_decide as Hy; [exact IH |].
  rewrite fmap_cons. apply NoDup_cons. split; [| exact IH].
  rewrite keep_last_dates. exact Hy.
Qed.

Lemma keep_last_sorted (l : list generation_raw) :
  StronglySorted raw_le l →
  StronglySorted date_le (raw_date <$> keep_last l).
Proof.
  induction 1 as [| y l Hs IH Hall]; [constructor |]. cbn.
  case_decide; [exact IH |].
  rewrite fmap_cons. constructor; [exact IH |].
  apply Forall_fmap, Forall_forall. intros x Hx.
  rewrite Forall_forall in Hall. apply Hall, keep_last_elem, Hx.
Qed.

#[local] Instance raw_le_total : Total raw_le.
Proof. intros a b. unfold raw_le. apply date_le_total. Qed.

#[local] Instance raw_le_trans : Transitive raw_le.
Proof. intros a b c. unfold raw_le. apply date_le_trans. Qed.

Lemma merge_sort_raw_ok :
  (∀ l, merge_sort raw_le l ≡ₚ l)
  ∧ (∀ l, StronglySorted raw_le (merge_sort raw_le l)).
Proof.
  split; intros l.
  - apply merge_sort_Permutation.
  - apply StronglySorted_merge_sort; apply _.
Qed.

End GenerationFacts.

(** X18. The rows a chunk of FUELHH records contributes: one row per
    settlement date of the chunk; a date whose records include no WIND
    record is stored with wind_gen_mw = 0 and wind_periods = 0 (zero, not
    an empty cell); otherwise wind_gen_mw is the mean of that date's WIND
    generation values and wind_periods their number. *)
Theorem chunk_rows_per_date (records : list Fetch.fuel_record) :
  NoDup (Fetch.wind_day_date <$> Fetch.chunk_rows records)
  ∧ (∀ d, d ∈ Fetch.wind_day_date <$> Fetch.chunk_rows records
          ↔ d ∈ Fetch.settlementDate <$> records)
  ∧ ∀ row, row ∈ Fetch.chunk_rows records →
      let wind :=
        Fetch.generation
        <$> filter (λ r, Fetch.settlementDate r = Fetch.wind_day_date row
                         ∧ Fetch.fuelType r = "WIND") records in
      Fetch.wind_periods row = length wind
      ∧ ((∀ r, r ∈ records →
               Fetch.settlementDate r = Fetch.wind_day_date row →
               Fetch.fuelType r ≠ "WIND") →
         Fetch.wind_gen_mw row = 0 ∧ Fetch.wind_periods row = 0%nat)
      ∧ (wind ≠ [] → Fetch.wind_gen_mw row = PowerLaw.mean wind).
Proof.
  destruct (first_seen_spec (Fetch.settlementDate <$> records)) as [Hnd Hel].
  unfold Fetch.chunk_rows. split; [| split].
  - rewrite fmap_key_id by reflexivity. exact Hnd.
  - intros d. rewrite fmap_key_id by reflexivity. apply Hel.
  - intros row (d & -> & _)%list_elem_of_fmap.
    cbn [Fetch.wind_day_date Fetch.wind_periods Fetch.wind_gen_mw].
    split; [reflexivity |]. split.
    + intros Hno.
      assert (Hnil : filter (λ r, Fetch.settlementDate r = d
                                  ∧ Fetch.fuelType r = "WIND") records = []).
      { destruct (filter _ records) as [| x xs] eqn:Hf; [reflexivity |].
        assert (Hx : x ∈ filter (λ r, Fetch.settlementDate r = d
                                      ∧ Fetch.fuelType r = "WIND") records)
          by (rewrite Hf; apply list_elem_of_here).
        apply list_elem_of_filter in Hx as [[Hd Hw] Hx].
        destruct (Hno x Hx Hd Hw). }
      rewrite Hnil. split; reflexivity.
    + intros Hne.
      destruct (Fetch.generation <$> filter _ records) as [| g gs];
        [congruence | reflexivity].
Qed.

(** X19. The generation file: whatever order the sort gives to rows with
    one date, the written table has distinct dates in ascending order,
    exactly the dates of the input; every row is an input row: it keeps
    the two MW values, and each GW value is the MW value divided by 1000;
    and the rows the merger reads from it have
    distinct dates, so that merge never duplicates a daily row. *)
Theorem generation_file_dates
    (sort : list Fetch.generation_raw → list Fetch.generation_raw)
    (df : list Fetch.generation_raw) :
  (∀ l, sort l ≡ₚ l) →
  (∀ l, StronglySorted Fetch.raw_le (sort l)) →
  let out := Fetch.process_generation sort df in
  NoDup (Fetch.gen_date <$> out)
  ∧ StronglySorted Fetch.date_le (Fetch.gen_date <$> out)
  ∧ (∀ d, d ∈ Fetch.gen_date <$> out ↔ d ∈ Fetch.raw_date <$> df)
  ∧ (∀ g, g ∈ out →
       ∃ r, r ∈ df ∧ Fetch.raw_date r = Fetch.gen_date g
            ∧ Fetch.gen_wind_mw g = Fetch.raw_wind_mw r
            ∧ Fetch.gen_solar_mw g = Fetch.raw_solar_mw r
            ∧ Fetch.gen_wind_gw g = Fetch.gen_wind_mw g / 1000
            ∧ Fetch.gen_solar_gw g = Fetch.gen_solar_mw g / 1000)
  ∧ NoDup (Merger.generation_date <$> Fetch.to_generation_rows out).
Proof.
  intros Hperm Hsorted out. subst out. unfold Fetch.process_generation.
  assert (Hdates : ∀ l : list Fetch.generation_raw,
    Fetch.gen_date
    <$> ((λ r, {| Fetch.gen_date := Fetch.raw_date r;
                  Fetch.gen_wind_gw := Fetch.raw_wind_mw r / 1000;
                  Fetch.gen_solar_gw := Fetch.raw_solar_mw r / 1000;
                  Fetch.gen_wind_mw := Fetch.raw_wind_mw r;
                  Fetch.gen_solar_mw := Fetch.raw_solar_mw r |}) <$> l)
    = Fetch.raw_date <$> l).
  { intros l. rewrite <- list_fmap_compose. reflexivity. }
  rewrite Hdates. split; [apply keep_last_NoDup |].
  split; [apply keep_last_sorted, Hsorted |]. split; [| split].
  - intros d. rewrite keep_last_dates.
    split; intros (r & -> & Hr)%list_elem_of_fmap; apply list_elem_of_fmap;
      exists r; (split; [reflexivity |]).
    + rewrite <- (Hperm df). exact Hr.
    + rewrite (Hperm df). exact Hr.
  - intros g (r & -> & Hr)%list_elem_of_fmap.
    apply keep_last_elem in Hr. rewrite (Hperm df) in Hr.
    exists r. cbn. split; [exact Hr |]. repeat (split; [reflexivity |]).
    reflexivity.
  - unfold Fetch.to_generation_rows. rewrite <- !list_fmap_compose.
    change (NoDup (Fetch.raw_date <$> Fetch.keep_last (sort df))).
    apply keep_last_NoDup.
Qed.

Lemma generation_file_dates_witness :
  (∀ l, merge_sort Fetch.raw_le l ≡ₚ l)
  ∧ (∀ l, StronglySorted Fetch.raw_le (merge_sort Fetch.raw_le l))
  ∧ NoDup (Fetch.gen_date
           <$> Fetch.process_generation (merge_sort Fetch.raw_le)
                 [ {| Fetch.raw_date := Samples.jan_2026;
                      Fetch.raw_wind_mw := 9000; Fetch.raw_solar_mw := 0 |};
                   {| Fetch.raw_date := Samples.jan_2026;
                      Fetch.raw_wind_mw := 8000; Fetch.raw_solar_mw := 0 |} ]).
Proof.
  destruct merge_sort_raw_ok as [H1 H2].
  split; [exact H1 |]. split; [exact H2 |].
  exact (proj1 (generation_file_dates (merge_sort Fetch.raw_le) _ H1 H2)).
Defined.

(** ** The capacity series *)

Section CapacityFacts.

Import Capacity.

(** Rows with distinct keys are determined by their key. *)
Lemma NoDup_key_inj {A K} (key : A → K) (l : list A) (x y : A) :
  NoDup (key <$> l) → x ∈ l → y ∈ l → key x = key y → x = y.
Proof.
  induction l as [| z l IH]; intros Hnd Hx Hy Hk; [inversion Hx |].
  rewrite fmap_cons in Hnd. apply NoDup_cons in Hnd as [Hz Hnd].
  apply elem_of_cons in Hx as [-> | Hx]; apply elem_of_cons in Hy as [-> | Hy].
  - reflexivity.
  - exfalso. apply Hz. rewrite Hk. apply list_elem_of_fmap. eauto.
  - exfalso. apply Hz. rewrite <- Hk. apply list_elem_of_fmap. eauto.
  - apply IH; assumption.
Qed.

(** A relation that holds position by position holds between the rows
    with equal keys. *)
Lemma Forall2_by_key {A K} (key : A → K) (Q : A → A → Prop) (l1 l2 : list A) :
  Forall2 (λ a b, key a = key b ∧ Q a b) l1 l2 →
  NoDup (key <$> l2) →
  ∀ a b, a ∈ l1 → b ∈ l2 → key a = key b → Q a b.
Proof.
  intros HF Hnd a b Ha Hb Hk.
  apply list_elem_of_lookup in Ha as [i Hi].
  destruct (Forall2_lookup_l _ _ _ _ _ HF Hi) as (b' & Hi' & Hk' & HQ).
  assert (b' = b) as ->; [| exact HQ].
  apply (NoDup_key_inj key l2); [exact Hnd | | exact Hb | congruence].
  apply list_elem_of_lookup. eauto.
Qed.

Lemma scenario_monthly_name (name : string) (r : projection_row) :
  r ∈ scenario_monthly name → projection_scenario r = name.
Proof.
  unfold scenario_monthly. intros (e & -> & _)%list_elem_of_fmap. reflexivity.
Qed.

Lemma projections_by_scenario (r : projection_row) :
  r ∈ build_fes_projections → r ∈ scenario_monthly (projection_scenario r).
Proof.
  unfold build_fes_projections, FES_SCENARIOS.
  rewrite !bind_cons, !elem_of_app.
  change (@nil string ≫= _) with (@nil projection_row). rewrite elem_of_nil.
  intros [H | [H | [H | [H | []]]]];
    rewrite (scenario_monthly_name _ _ H); exact H.
Qed.

Lemma scenario_dates (name : string) :
  name ∈ FES_SCENARIOS →
  projection_date <$> scenario_monthly name
  = date_range MoreSamples.jan_2025 MoreSamples.jan_2035.
Proof.
  unfold FES_SCENARIOS. rewrite !elem_of_cons, elem_of_nil.
  intros [-> | [-> | [-> | [-> | []]]]]; vm_compute; reflexivity.
Qed.

Lemma fes_range_NoDup :
  NoDup (date_range MoreSamples.jan_2025 MoreSamples.jan_2035).
Proof.
  apply (bool_decide_unpack (NoDup _)). vm_compute. exact I.
Qed.

(** One neighbouring pair of the fan, position by position. *)
Ltac fan_pair :=
  cbv -[Rplus Rminus Rmult Rdiv Rinv INR IZR Rle Rlt];
  repeat (constructor;
          [split; [reflexivity |];
           eexists _, _; split; [reflexivity |]; split; [reflexivity |];
           cbn -[Rplus Rminus Rmult Rdiv Rinv IZR]; lra |]);
  constructor.

Lemma fan_lw_ct :
  Forall2 (λ a b, projection_date a = projection_date b
                  ∧ ∃ x y, projection_capacity_gw a = Some x
                           ∧ projection_capacity_gw b = Some y
                           ∧ 6 <= y <= x)
    (scenario_monthly "leading_the_way")
    (scenario_monthly "consumer_transformation").
Proof. fan_pair. Qed.

Lemma fan_ct_st :
  Forall2 (λ a b, projection_date a = projection_date b
                  ∧ ∃ x y, projection_capacity_gw a = Some x
                           ∧ projection_capacity_gw b = Some y
                           ∧ 6 <= y <= x)
    (scenario_monthly "consumer_transformation")
    (scenario_monthly "system_transformation").
Proof. fan_pair. Qed.

Lemma fan_st_fs :
  Forall2 (λ a b, projection_date a = projection_date b
                  ∧ ∃ x y, projection_capacity_gw a = Some x
                           ∧ projection_capacity_gw b = Some y
                           ∧ 6 <= y <= x)
    (scenario_monthly "system_transformation")
    (scenario_monthly "falling_short").
Proof. fan_pair. Qed.

End CapacityFacts.

(** X20. The scenario table: each of the four scenarios has one row for
    every month from January 2025 to January 2035, and at every date the
    capacities are all present and ordered Leading the Way >= Consumer
    Transformation >= System Transformation >= Falling Short >= 6 GW. *)
Theorem scenario_fan_capacities :
  (∀ name, name ∈ Capacity.FES_SCENARIOS →
     Capacity.projection_date <$> Capacity.scenario_monthly name
     = Capacity.date_range MoreSamples.jan_2025 MoreSamples.jan_2035)
  ∧ ∀ r1 r2,
      r1 ∈ Capacity.build_fes_projections →
      r2 ∈ Capacity.build_fes_projections →
      Capacity.projection_date r1 = Capacity.projection_date r2 →
      (Capacity.projection_scenario r1, Capacity.projection_scenario r2)
      ∈ [ ("leading_the_way", "consumer_transformation");
          ("consumer_transformation", "system_transformation");
          ("system_transformation", "falling_short") ] →
      ∃ c1 c2,
        Capacity.projection_capacity_gw r1 = Some c1
        ∧ Capacity.projection_capacity_gw r2 = Some c2
        ∧ 6 <= c2 ∧ c2 <= c1.
Proof.
  split; [exact scenario_dates |].
  intros r1 r2 H1 H2 Hd Hs.
  apply projections_by_scenario in H1, H2.
  assert (Hnd : ∀ name, name ∈ Capacity.FES_SCENARIOS →
            NoDup (Capacity.projection_date <$> Capacity.scenario_monthly name)).
  { intros name Hn. rewrite scenario_dates by exact Hn. exact fes_range_NoDup. }
  assert (Hgen : ∀ n1 n2,
    Forall2 (λ a b, Capacity.projection_date a = Capacity.projection_date b
                    ∧ ∃ x y, Capacity.projection_capacity_gw a = Some x
                             ∧ Capacity.projection_capacity_gw b = Some y
                             ∧ 6 <= y <= x)
      (Capacity.scenario_monthly n1) (Capacity.scenario_monthly n2) →
    n2 ∈ Capacity.FES_SCENARIOS →
    Capacity.projection_scenario r1 = n1 → Capacity.projection_scenario r2 = n2 →
    ∃ c1 c2, Capacity.projection_capacity_gw r1 = Some c1
             ∧ Capacity.projection_capacity_gw r2 = Some c2 ∧ 6 <= c2 ∧ c2 <= c1).
  { intros n1 n2 HF Hn2 Hn1 Hn2'. rewrite Hn1 in H1. rewrite Hn2' in H2.
    destruct (Forall2_by_key Capacity.projection_date _ _ _ HF (Hnd _ Hn2)
                r1 r2 H1 H2 Hd) as (x & y & Hx & Hy & Hle1 & Hle2).
    exists x, y. auto. }
  rewrite !elem_of_cons, elem_of_nil in Hs.
  destruct Hs as [Hs | [Hs | [Hs | []]]]; injection Hs as Hn1 Hn2.
  - apply (Hgen _ _ fan_lw_ct); [| assumption | assumption].
    unfold Capacity.FES_SCENARIOS. rewrite !elem_of_cons. tauto.
  - apply (Hgen _ _ fan_ct_st); [| assumption | assumption].
    unfold Capacity.FES_SCENARIOS. rewrite !elem_of_cons. tauto.
  - apply (Hgen _ _ fan_st_fs); [| assumption | assumption].
    unfold Capacity.FES_SCENARIOS. rewrite !elem_of_cons. tauto.
Qed.

Lemma historic_dates :
  (Capacity.build_historic_monthly).*1
  = Capacity.date_range MoreSamples.dec_2017 MoreSamples.dec_2025.
Proof. vm_compute. reflexivity. Qed.

Lemma combined_dates :
  Merger.capacity_date <$> Capacity.combined_series
  = Capacity.date_range MoreSamples.dec_2017 MoreSamples.jan_2035.
Proof. vm_compute. reflexivity. Qed.

Lemma combined_cells :
  Forall (λ r, ∃ c, Merger.capacity_gw r = Some c ∧ 3 / 10 <= c <= 255 / 10)
    Capacity.combined_series.
Proof.
  cbv -[Rplus Rminus Rmult Rdiv Rinv INR IZR Rle Rlt].
  repeat (constructor;
          [eexists; split; [reflexivity |];
           cbn -[Rplus Rminus Rmult Rdiv Rinv IZR]; lra |]).
  constructor.
Qed.

Lemma combined_sources :
  Forall (λ r, Merger.source r
               = (if decide (Fetch.date_le (Merger.capacity_date r) MoreSamples.dec_2025)
                  then "historic" else "fes_system_transformation"))
    Capacity.combined_series.
Proof.
  apply (bool_decide_unpack (Forall _ _)). vm_compute. exact I.
Qed.

(** X21. The capacity file: one row for every month from December 2017
    to January 2035 in order, every capacity present and between 0.3 and
    25.5 GW, the rows up to December 2025 tagged historic and the later
    ones tagged with the base scenario; the known points are kept as
    they are, and the historic rows have distinct months, which is what
    the merger asks of the file. *)
Theorem capacity_file_is_monthly :
  Merger.capacity_date <$> Capacity.combined_series
  = Capacity.date_range MoreSamples.dec_2017 MoreSamples.jan_2035
  ∧ (∀ r, r ∈ Capacity.combined_series →
       (∃ c, Merger.capacity_gw r = Some c ∧ 3 / 10 <= c <= 255 / 10)
       ∧ (Fetch.date_le (Merger.capacity_date r) MoreSamples.dec_2025 →
          Merger.source r = "historic")
       ∧ (¬ Fetch.date_le (Merger.capacity_date r) MoreSamples.dec_2025 →
          Merger.source r = "fes_system_transformation"))
  ∧ (∀ d v, (d, v) ∈ Capacity.KNOWN_CAPACITY_GW →
       Capacity.value_at Capacity.build_historic_monthly d = Some v)
  ∧ NoDup (Merger.bess_lookup Capacity.combined_series).*1.
Proof.
  split; [exact combined_dates |]. split; [| split].
  - intros r Hr.
    pose proof (proj1 (Forall_forall _ _) combined_cells r Hr) as Hc.
    pose proof (proj1 (Forall_forall _ _) combined_sources r Hr) as Hs.
    split; [exact Hc |]. split; intros Hd; rewrite Hs.
    + rewrite decide_True by exact Hd. reflexivity.
    + rewrite decide_False by exact Hd. reflexivity.
  - intros d v Hin. unfold Capacity.KNOWN_CAPACITY_GW in Hin.
    rewrite !elem_of_cons, elem_of_nil in Hin.
    repeat (destruct Hin as [Hin | Hin];
            [injection Hin as -> ->; vm_compute; reflexivity |]).
    destruct Hin.
  - apply (bool_decide_unpack (NoDup _)). vm_compute. exact I.
Qed.

(** ** The capacity forecast *)

Lemma filter_nil_iff {A} (P : A → Prop) `{!∀ x, Decision (P x)} (l : list A) :
  filter P l = [] ↔ ∀ x, x ∈ l → ¬ P x.
Proof.
  split.
  - intros Hnil x Hx HP.
    assert (Hin : x ∈ filter P l) by (apply list_elem_of_filter; auto).
    rewrite Hnil in Hin. inversion Hin.
  - intros Hall. destruct (filter P l) as [| y l'] eqn:Hf; [reflexivity |].
    assert (Hy : y ∈ filter P l) by (rewrite Hf; apply list_elem_of_here).
    apply list_elem_of_filter in Hy as [HP Hy]. destruct (Hall y Hy HP).
Qed.

(** Past the two lines that read the historic rows, the script selects
    the rows to write. *)
Lemma bess_forecast_with_historic
    (bess : list Merger.capacity_row)
    (scenarios : option (list Capacity.projection_row))
    (h : Merger.capacity_row) :
  h ∈ bess → Merger.source h = "historic" →
  Capacity.bess_forecast bess scenarios
  = match Capacity.of_capacity_row
          <$> filter (λ b, Capacity.in_window (Merger.capacity_date b)) bess,
          scenarios with
    | [], Some [] => inl AttributeError
    | [], Some sc =>
        inr (Capacity.of_projection_row
             <$> filter (λ r, Capacity.in_window (Capacity.projection_date r))
                   (filter (λ r, Capacity.projection_scenario r
                                 = "system_transformation") sc))
    | forecast, _ => inr forecast
    end.
Proof.
  intros Hh Hs. unfold Capacity.bess_forecast.
  destruct bess as [| b0 bess']; [inversion Hh |].
  destruct (filter (λ b, Merger.source b = "historic") (b0 :: bess'))
    as [| h' hs] eqn:Hf.
  { exfalso. apply (proj1 (filter_nil_iff _ _) Hf h Hh Hs). }
  cbn [mbind]. unfold result_bind, mret, result_ret, raise. cbn.
  destruct (Capacity.of_capacity_row <$> _) as [| f fs];
    destruct scenarios as [[| p sc] |]; reflexivity.
Qed.

(** Without a historic row the script stops before it selects any. *)
Lemma bess_forecast_without_historic
    (bess : list Merger.capacity_row)
    (scenarios : option (list Capacity.projection_row)) :
  (∀ b, b ∈ bess → Merger.source b ≠ "historic") →
  ∃ e, Capacity.bess_forecast bess scenarios = inl e.
Proof.
  intros Hall. unfold Capacity.bess_forecast.
  destruct bess as [| b0 bess']; [eexists; reflexivity |].
  rewrite (proj2 (filter_nil_iff _ _) Hall). eexists. reflexivity.
Qed.

(** Whether the capacity file has a historic row. *)
Lemma historic_row_or_none (bess : list Merger.capacity_row) :
  (∃ h, h ∈ bess ∧ Merger.source h = "historic")
  ∨ (∀ b, b ∈ bess → Merger.source b ≠ "historic").
Proof.
  destruct (filter (λ b, Merger.source b = "historic") bess) as [| h hs] eqn:Hf.
  - right. apply (proj1 (filter_nil_iff _ _) Hf).
  - left. exists h.
    assert (Hh : h ∈ filter (λ b, Merger.source b = "historic") bess)
      by (rewrite Hf; apply list_elem_of_here).
    apply list_elem_of_filter in Hh as [Hs Hh]. auto.
Qed.

(** With a historic row and a row in the window, the forecast is made
    of the rows of the capacity file. *)
Lemma bess_forecast_of_file
    (bess : list Merger.capacity_row)
    (scenarios : option (list Capacity.projection_row))
    (h b : Merger.capacity_row) :
  h ∈ bess → Merger.source h = "historic" →
  b ∈ bess → Capacity.in_window (Merger.capacity_date b) →
  Capacity.bess_forecast bess scenarios
  = inr (Capacity.of_capacity_row
         <$> filter (λ b, Capacity.in_window (Merger.capacity_date b)) bess).
Proof.
  intros Hh Hs Hb Hw. rewrite (bess_forecast_with_historic _ _ h Hh Hs).
  destruct (filter (λ b, Capacity.in_window (Merger.capacity_date b)) bess)
    as [| b' bs] eqn:Hg.
  { exfalso. apply (proj1 (filter_nil_iff _ _) Hg b Hb Hw). }
  destruct scenarios as [[| p sc] |]; reflexivity.
Qed.

(** X22. The forecast script: it fails exactly when the capacity file has
    no historic row (an empty file among them), or when that file has no
    row between January 2026 and December 2030 while the scenario file
    exists without any row.  Otherwise every row it writes has its date
    in that window; when the capacity file has a row in the window the
    rows written are exactly its rows in the window, whatever the
    scenario file holds; when it has none and the scenario file exists,
    they are the rows of the System Transformation scenario in the
    window. *)
Theorem forecast_rows_in_window
    (bess : list Merger.capacity_row)
    (scenarios : option (list Capacity.projection_row)) :
  ((∃ e, Capacity.bess_forecast bess scenarios = inl e)
   ↔ (∀ b, b ∈ bess → Merger.source b ≠ "historic")
     ∨ ((∀ b, b ∈ bess → ¬ Capacity.in_window (Merger.capacity_date b))
        ∧ scenarios = Some []))
  ∧ ∀ rows, Capacity.bess_forecast bess scenarios = inr rows →
      (∀ r, r ∈ rows → Capacity.in_window (Capacity.forecast_date r))
      ∧ ((∃ b, b ∈ bess ∧ Capacity.in_window (Merger.capacity_date b)) →
         ∀ r, r ∈ rows
              ↔ ∃ b, b ∈ bess ∧ Capacity.in_window (Merger.capacity_date b)
                     ∧ r = Capacity.of_capacity_row b)
      ∧ ((∀ b, b ∈ bess → ¬ Capacity.in_window (Merger.capacity_date b)) →
         ∀ sc, scenarios = Some sc →
         ∀ r, r ∈ rows
              ↔ ∃ p, p ∈ sc
                     ∧ Capacity.projection_scenario p = "system_transformation"
                     ∧ Capacity.in_window (Capacity.projection_date p)
                     ∧ r = Capacity.of_projection_row p).
Proof.
  split.
  - destruct (historic_row_or_none bess) as [(h & Hh & Hs) | Hall].
    + rewrite (bess_forecast_with_historic _ _ h Hh Hs).
      destruct (filter (λ b, Capacity.in_window (Merger.capacity_date b)) bess)
        as [| b bs] eqn:Hg.
      * pose proof (proj1 (filter_nil_iff _ _) Hg) as Hnone.
        destruct scenarios as [[| p sc] |]; cbn.
        -- split; [auto | eauto].
        -- split; [intros [e He]; discriminate He |].
           intros [Hall | [_ Hsc]]; [destruct (Hall h Hh Hs) | discriminate Hsc].
        -- split; [intros [e He]; discriminate He |].
           intros [Hall | [_ Hsc]]; [destruct (Hall h Hh Hs) | discriminate Hsc].
      * assert (Hb : b ∈ filter (λ b, Capacity.in_window (Merger.capacity_date b)) bess)
          by (rewrite Hg; apply list_elem_of_here).
        apply list_elem_of_filter in Hb as [Hw Hb].
        split.
        -- intros [e He]. destruct scenarios as [[| p sc] |]; discriminate He.
        -- intros [Hall | [Hnone _]];
             [destruct (Hall h Hh Hs) | destruct (Hnone b Hb Hw)].
    + split; [auto |]. intros _. apply bess_forecast_without_historic, Hall.
  - intros rows Hrun.
    destruct (historic_row_or_none bess) as [(h & Hh & Hs) | Hall];
      [| destruct (bess_forecast_without_historic bess scenarios Hall) as [e He];
         rewrite He in Hrun; discriminate Hrun].
    rewrite (bess_forecast_with_historic _ _ h Hh Hs) in Hrun.
    assert (Hfile : ∀ r,
      r ∈ Capacity.of_capacity_row
          <$> filter (λ b, Capacity.in_window (Merger.capacity_date b)) bess
      ↔ ∃ b, b ∈ bess ∧ Capacity.in_window (Merger.capacity_date b)
             ∧ r = Capacity.of_capacity_row b).
    { intros r. rewrite list_elem_of_fmap. split.
      - intros (b & -> & Hb). apply list_elem_of_filter in Hb as [Hw Hb]. eauto.
      - intros (b & Hb & Hw & ->). exists b. split; [reflexivity |].
        apply list_elem_of_filter. auto. }
    assert (Hscen : ∀ (sc : list Capacity.projection_row) r,
      r ∈ Capacity.of_projection_row
          <$> filter (λ p, Capacity.in_window (Capacity.projection_date p))
                (filter (λ p, Capacity.projection_scenario p = "system_transformation") sc)
      ↔ ∃ p, p ∈ sc
             ∧ Capacity.projection_scenario p = "system_transformation"
             ∧ Capacity.in_window (Capacity.projection_date p)
             ∧ r = Capacity.of_projection_row p).
    { intros sc r. rewrite list_elem_of_fmap. split.
      - intros (p & -> & Hp). apply list_elem_of_filter in Hp as [Hw Hp].
        apply list_elem_of_filter in Hp as [Hs' Hp]. eauto.
      - intros (p & Hp & Hs' & Hw & ->). exists p. split; [reflexivity |].
        apply list_elem_of_filter. split; [exact Hw |].
        apply list_elem_of_filter. auto. }
    destruct (filter (λ b, Capacity.in_window (Merger.capacity_date b)) bess)
      as [| b bs] eqn:Hg.
    + pose proof (proj1 (filter_nil_iff _ _) Hg) as Hnone.
      change (Capacity.of_capacity_row <$> []) with (@nil Capacity.forecast_month)
        in Hrun.
      destruct scenarios as [[| p sc] |]; cbv beta iota in Hrun;
        [discriminate Hrun | |]; injection Hrun as <-.
      * split; [| split].
        -- intros r Hr. apply Hscen in Hr as (q & _ & _ & Hw & ->). exact Hw.
        -- intros (b & Hb & Hw). destruct (Hnone b Hb Hw).
        -- intros _ sc' [= <-] r. apply Hscen.
      * split; [| split].
        -- intros r Hr. inversion Hr.
        -- intros (b & Hb & Hw). destruct (Hnone b Hb Hw).
        -- intros _ sc' Hsc. discriminate Hsc.
    + assert (Hrows : rows = Capacity.of_capacity_row <$> (b :: bs)).
      { destruct scenarios as [[| p sc] |]; cbn in Hrun;
          injection Hrun as <-; reflexivity. }
      rewrite Hrows. split; [| split].
      * intros r Hr. apply Hfile in Hr as (b' & _ & Hw & ->). exact Hw.
      * intros _ r. apply Hfile.
      * intros Hnone. exfalso.
        assert (Hb : b ∈ filter (λ b, Capacity.in_window (Merger.capacity_date b)) bess)
          by (rewrite Hg; apply list_elem_of_here).
        apply list_elem_of_filter in Hb as [Hw Hb]. exact (Hnone b Hb Hw).
Qed.

Lemma forecast_rows_in_window_witness :
  ∃ rows,
    Capacity.bess_forecast MoreSamples.capacity_two_months
      (Some MoreSamples.scenario_one_month) = inr rows
    ∧ ∀ r, r ∈ rows → Capacity.in_window (Capacity.forecast_date r).
Proof.
  eexists. split; [reflexivity |].
  exact (proj1 (proj2 (forecast_rows_in_window MoreSamples.capacity_two_months
                         (Some MoreSamples.scenario_one_month)) _ eq_refl)).
Defined.

(** X23. The forecast made from the capacity file that the capacity
    script writes: whatever the scenario file holds, it is the sixty
    months from January 2026 to December 2030 of the System
    Transformation scenario, each tagged with that scenario. *)
Theorem forecast_of_capacity_file
    (scenarios : option (list Capacity.projection_row)) :
  Capacity.bess_forecast Capacity.combined_series scenarios
  = inr ((λ p, {| Capacity.forecast_date := Capacity.projection_date p;
                  Capacity.forecast_capacity_gw := Capacity.projection_capacity_gw p;
                  Capacity.forecast_source := Some "fes_system_transformation" |})
         <$> filter (λ p, Capacity.in_window (Capacity.projection_date p))
               (Capacity.scenario_monthly "system_transformation"))
  ∧ Capacity.projection_date
    <$> filter (λ p, Capacity.in_window (Capacity.projection_date p))
          (Capacity.scenario_monthly "system_transformation")
    = Capacity.date_range Capacity.forecast_start Capacity.forecast_end
  ∧ length (Capacity.date_range Capacity.forecast_start Capacity.forecast_end)
    = 60%nat.
Proof.
  split; [| split; vm_compute; reflexivity].
  assert (Hh : ∃ h, Capacity.combined_series !! 0%nat = Some h
                    ∧ Merger.source h = "historic").
  { eexists. split; vm_compute; reflexivity. }
  assert (Hb : ∃ b, Capacity.combined_series !! 97%nat = Some b
                    ∧ Capacity.in_window (Merger.capacity_date b)).
  { eexists. split; [vm_compute; reflexivity |]. split; vm_compute; reflexivity. }
  destruct Hh as (h & Hh & Hs), Hb as (b & Hb & Hw).
  rewrite (bess_forecast_of_file _ _ h b);
    [| eapply list_elem_of_lookup_2; exact Hh | exact Hs
     | eapply list_elem_of_lookup_2; exact Hb | exact Hw].
  vm_compute. reflexivity.
Qed.
